(** * Online-Truck-Configurator: the backend's request-shaping layer

    A shallow embedding of [backend/server.js]: the pricing and rounding
    functions, the Striven access-token cache, the per-minute call guard, the
    item cache and the two batch resolution handlers.

    Conventions of the embedding.
    - A JavaScript number is a [JsNum]: an exact rational, or one of the
      three non-finite values.  Arithmetic on finite numbers is exact: the
      rounding of the doubles is not modelled, except in [roundUpNice64],
      the rounding function on binary64 numbers, and neither is the negative
      zero.
    - A JSON value, [undefined], or one of the functions a plain object
      inherits, is a [JsVal].  The objects are data: no field holds a
      function.
    - [Number(v)] and [String(v)] throw on an object with a property
      [toString] of its own ([hasPrimitive]).  The calls of [Number] on the
      [id] of a line and on the [qty] and [price] of an item throw there
      ([tryNumber], [tryToNumber]); identifiers, item numbers, the token
      and its lifetime are taken to convert.
    - A function that can throw returns a [Completion].
    - The server's mutable variables form the record [State]; an effectful
      function is a function from [State] to a completion and a new state.
      A handler runs to its reply before the next request is taken: requests
      are not interleaved at their [await]s.
    - What the code asks of its host (the clock, the network, the conversions
      between strings and numbers) is a field of [Builtins] or of [World].
      Every call of [Date.now()] is a reading of its own. *)

From Stdlib Require Import ZArith QArith Qround Lqa Lia Bool List Ascii String.
From Stdlib Require Import PrimFloat.
From stdpp Require Import gmap strings pretty.
Import ListNotations.

Local Open Scope string_scope.
Local Open Scope Z_scope.
Local Open Scope Q_scope.

(** ** Numbers and values *)

#[local] Set Warnings "-register-all".

Inductive JsNum : Type :=
| Fin (q : Q)
| PosInf
| NegInf
| NaN.

Inductive JsVal : Type :=
| VUndef
| VNull
| VBool (b : bool)
| VNum (n : JsNum)
| VStr (s : string)
| VArr (elems : list JsVal)
| VObj (fields : list (string * JsVal))
| VFun (fname : string).   (* a built-in function, such as [Object] *)

(** An [Error] object, with the two properties the server attaches to it. *)
Record JsError : Type := mkError {
  message : string;
  status : JsVal;
  retryAfter : JsVal
}.

Inductive Completion (A : Type) : Type :=
| Ret (a : A)
| Throw (e : JsError).
Arguments Ret {A} a.
Arguments Throw {A} e.

(** What an engine throws on [undefined.p], [null.p] or a call of a value
    that is not a function. *)
Definition TypeError : JsError :=
  mkError "TypeError" VUndef VUndef.

(** The host's conversions that the embedding does not spell out. *)
Record Builtins : Type := {
  StringToNumber : string -> JsNum;   (* Number(s) for a string s *)
  NumberToString : JsNum -> string;   (* String(n) for a number n *)
  trim : string -> string;            (* String.prototype.trim *)
  base64 : string -> string           (* Buffer.from(s).toString("base64") *)
}.

Definition Qlt_bool (x y : Q) : bool := negb (Qle_bool y x).

Definition isZero (n : JsNum) : bool :=
  match n with
  | Fin q => Qeq_bool q 0
  | _ => false
  end.

(** [Boolean(v)]: the test of [if (v)], [!v], [a || b]. *)
Definition truthy (v : JsVal) : bool :=
  match v with
  | VUndef | VNull => false
  | VBool b => b
  | VNum NaN => false
  | VNum n => negb (isZero n)
  | VStr s => negb (String.eqb s EmptyString)
  | VArr _ | VObj _ | VFun _ => true
  end.

(** [v == null]: [v] is [null] or [undefined]. *)
Definition nullish (v : JsVal) : bool :=
  match v with
  | VUndef | VNull => true
  | _ => false
  end.

(** [a || b] and [a ?? b] on values. *)
Definition js_or (a b : JsVal) : JsVal := if truthy a then a else b.
Definition js_coalesce (a b : JsVal) : JsVal := if nullish a then b else a.

Fixpoint lookupField (k : string) (fs : list (string * JsVal)) : JsVal :=
  match fs with
  | [] => VUndef
  | (k', v) :: rest => if String.eqb k k' then v else lookupField k rest
  end.

(** [v?.k] for one of the names the server reads: the field of an object,
    the name of a function, and [undefined] on the other values (none of
    these names is a property of a string, a number or an array, or one that
    an object inherits). *)
Definition getPropOpt (v : JsVal) (k : string) : JsVal :=
  match v with
  | VObj fs => lookupField k fs
  | VFun f => if String.eqb k "name" then VStr f else VUndef
  | _ => VUndef
  end.

(** [v.k]: a [TypeError] on [undefined] and [null]. *)
Definition getProp (v : JsVal) (k : string) : Completion JsVal :=
  match v with
  | VUndef | VNull => Throw TypeError
  | _ => Ret (getPropOpt v k)
  end.

Fixpoint lookupOwn (k : string) (fs : list (string * JsVal)) : option JsVal :=
  match fs with
  | [] => None
  | (k', v) :: rest => if String.eqb k k' then Some v else lookupOwn k rest
  end.

(** What a plain object inherits from [Object.prototype].  [__proto__] gives
    the prototype itself, an object that prints as ["[object Object]"]. *)
Definition objectPrototype : list (string * JsVal) :=
  [("constructor", VFun "Object");
   ("__defineGetter__", VFun "__defineGetter__");
   ("__defineSetter__", VFun "__defineSetter__");
   ("hasOwnProperty", VFun "hasOwnProperty");
   ("__lookupGetter__", VFun "__lookupGetter__");
   ("__lookupSetter__", VFun "__lookupSetter__");
   ("isPrototypeOf", VFun "isPrototypeOf");
   ("propertyIsEnumerable", VFun "propertyIsEnumerable");
   ("toString", VFun "toString");
   ("valueOf", VFun "valueOf");
   ("__proto__", VObj []);
   ("toLocaleString", VFun "toLocaleString")].

(** [obj[k]] for any key [k] and the plain object of own properties [fs]:
    the own property, else the inherited one, else [undefined]. *)
Definition getIndex (k : string) (fs : list (string * JsVal)) : JsVal :=
  match lookupOwn k fs with
  | Some v => v
  | None => lookupField k objectPrototype
  end.

(** Whether [v] converts to a primitive, so that [Number(v)] and [String(v)]
    return.  An object is converted by the [toString] it inherits, its
    inherited [valueOf] returning the object itself and one of its own being
    passed over; a property [toString] of its own is data, cannot be called,
    and the conversion throws a [TypeError].  An array converts its
    elements, [null] and [undefined] apart. *)
Fixpoint hasPrimitive (v : JsVal) : bool :=
  match v with
  | VObj fs =>
      match lookupOwn "toString" fs with
      | Some _ => false
      | None => true
      end
  | VArr l => forallb hasPrimitive l
  | _ => true
  end.


Definition lowerAscii (c : ascii) : ascii :=
  let n := nat_of_ascii c in
  if ((65 <=? n)%nat && (n <=? 90)%nat)%bool then ascii_of_nat (n + 32) else c.

(** [s.toLowerCase()], on the letters A to Z; no other character lowers to
    a character of ["item group"]. *)
Fixpoint toLowerCase (s : string) : string :=
  match s with
  | EmptyString => EmptyString
  | String c rest => String (lowerAscii c) (toLowerCase rest)
  end.

Fixpoint joinComma (l : list string) : string :=
  match l with
  | [] => EmptyString
  | [s] => s
  | s :: rest => s +:+ "," +:+ joinComma rest
  end.

Section Pure.

Variable B : Builtins.

(** [String(v)], for a [v] that converts to a primitive. *)
Fixpoint ToString (v : JsVal) : string :=
  match v with
  | VUndef => "undefined"
  | VNull => "null"
  | VBool true => "true"
  | VBool false => "false"
  | VNum n => NumberToString B n
  | VStr s => s
  | VArr l =>
      joinComma (map (fun x => if nullish x then EmptyString else ToString x) l)
  | VObj _ => "[object Object]"
  | VFun f => "function " +:+ f +:+ "() { [native code] }"
  end.

(** The number [Number(v)] returns; no number, written [NaN], where the
    conversion throws. *)
Definition Number (v : JsVal) : JsNum :=
  match v with
  | VUndef => NaN
  | VNull => Fin 0
  | VBool true => Fin 1
  | VBool false => Fin 0
  | VNum n => n
  | VStr s => StringToNumber B s
  | VArr _ | VObj _ | VFun _ =>
      if hasPrimitive v then StringToNumber B (ToString v) else NaN
  end.

(** The call [Number(v)], with its error. *)
Definition tryNumber (v : JsVal) : Completion JsNum :=
  if hasPrimitive v then Ret (Number v) else Throw TypeError.

Definition isFinite (n : JsNum) : bool :=
  match n with
  | Fin _ => true
  | _ => false
  end.

(** ** Pricing *)

(** server.js 199-202: the number [toNumber(x)] returns. *)
Definition toNumber (x : JsVal) : Q :=
  match Number x with
  | Fin q => q
  | _ => 0
  end.

(** server.js 199-202: the call [toNumber(x)], which throws where
    [Number(x)] does. *)
Definition tryToNumber (x : JsVal) : Completion Q :=
  match tryNumber x with
  | Throw e => Throw e
  | Ret _ => Ret (toNumber x)
  end.

(** server.js 209-213: the step of the tier of [x]. *)
Definition niceStep (x : Q) : Q :=
  if (Qle_bool 10 x && Qlt_bool x 100)%bool then 5
  else if (Qle_bool 100 x && Qle_bool x 500)%bool then 20
  else if (Qlt_bool 500 x && Qle_bool x 1000)%bool then 50
  else if Qlt_bool 1000 x then 100
  else 1.

(** server.js 205-216; the server calls it on a number. *)
Definition roundUpNice (n : JsVal) : Q :=
  let x := toNumber n in
  if Qle_bool x 0 then 0
  else
    let step := niceStep x in
    inject_Z (Qceiling (x / step)) * step.

Record Component : Type := {
  itemId : JsVal;
  name : JsVal;
  qty : Q;
  unitPrice : Q;
  lineTotal : Q
}.

Record Pricing : Type := {
  rawTotal : Q;
  components : list Component;
  kind : string
}.

(** server.js 223-233: the callback of [groupItems.map]. *)
Definition componentOf (g : JsVal) : Completion Component :=
  match getProp g "qty" with
  | Throw e => Throw e
  | Ret q =>
      match tryToNumber q with
      | Throw e => Throw e
      | Ret qty =>
          match getProp g "price" with
          | Throw e => Throw e
          | Ret p =>
              match tryToNumber p with
              | Throw e => Throw e
              | Ret unitPrice =>
                  Ret {| itemId := js_coalesce (getPropOpt (getPropOpt g "item") "id") VNull;
                         name := js_coalesce (getPropOpt (getPropOpt g "item") "name")
                                             (VStr EmptyString);
                         qty := qty;
                         unitPrice := unitPrice;
                         lineTotal := qty * unitPrice |}
              end
          end
      end
  end.

(** [Array.prototype.map] with a callback that can throw. *)
Fixpoint mapThrow {A X : Type} (f : A -> Completion X) (l : list A)
  : Completion (list X) :=
  match l with
  | [] => Ret []
  | a :: rest =>
      match f a with
      | Throw e => Throw e
      | Ret b =>
          match mapThrow f rest with
          | Throw e => Throw e
          | Ret bs => Ret (b :: bs)
          end
      end
  end.

(** server.js 219: the type name of the item, or the empty string. *)
Definition itemTypeName (itemJson : JsVal) : JsVal :=
  js_or (getPropOpt (getPropOpt itemJson "itemType") "name") (VStr EmptyString).

(** server.js 218-242 *)
Definition calcItemRawTotal (itemJson : JsVal) : Completion Pricing :=
  match itemTypeName itemJson with
  | VStr typeName =>
      let isGroup :=
        if String.eqb (toLowerCase typeName) "item group" then
          match getProp itemJson "groupItems" with
          | Throw e => Throw e
          | Ret (VArr gs) => Ret (Some gs)
          | Ret _ => Ret None
          end
        else Ret None in
      match isGroup with
      | Throw e => Throw e
      | Ret (Some gs) =>
          match mapThrow componentOf gs with
          | Throw e => Throw e
          | Ret comps =>
              Ret {| rawTotal := fold_left (fun sum c => sum + lineTotal c) comps 0;
                     components := comps;
                     kind := "SRG" |}
          end
      | Ret None =>
          match getProp itemJson "price" with
          | Throw e => Throw e
          | Ret p =>
              match tryToNumber p with
              | Throw e => Throw e
              | Ret price => Ret {| rawTotal := price; components := []; kind := "ITEM" |}
              end
          end
      end
  | _ => Throw TypeError   (* typeName.toLowerCase is not a function *)
  end.

End Pure.

(** ** The rounding on binary64 numbers

    The same lines of server.js on the doubles the code computes with, for
    the totals on which the doubles part from the rationals. *)

Definition two52 : float := 4503599627370496%float.

(** [Math.ceil]: a double from 2^52 on is an integer; below, adding and
    subtracting 2^52 rounds to the nearest integer, which is then put right.
    Infinities and [NaN] are returned as they are. *)
Definition ceil64 (x : float) : float :=
  if PrimFloat.ltb x 0 then
    let a := PrimFloat.abs x in
    if PrimFloat.leb two52 a then x
    else
      let t := (a + two52 - two52)%float in
      PrimFloat.opp (if PrimFloat.ltb a t then (t - 1)%float else t)
  else if PrimFloat.ltb x two52 then
    let t := (x + two52 - two52)%float in
    if PrimFloat.ltb t x then (t + 1)%float else t
  else x.

(** server.js 199-202, on a number. *)
Definition toNumber64 (n : float) : float :=
  if PrimFloat.is_finite n then n else 0%float.

(** server.js 209-213 *)
Definition niceStep64 (x : float) : float :=
  if (PrimFloat.leb 10 x && PrimFloat.ltb x 100)%bool then 5%float
  else if (PrimFloat.leb 100 x && PrimFloat.leb x 500)%bool then 20%float
  else if (PrimFloat.ltb 500 x && PrimFloat.leb x 1000)%bool then 50%float
  else if PrimFloat.ltb 1000 x then 100%float
  else 1%float.

(** server.js 205-216, on a number. *)
Definition roundUpNice64 (n : float) : float :=
  let x := toNumber64 n in
  if PrimFloat.leb x 0 then 0%float
  else
    let step := niceStep64 x in
    (ceil64 (x / step) * step)%float.

(** ** Arithmetic and comparison of numbers, non-finite values included *)

Definition num_neg (a : JsNum) : JsNum :=
  match a with
  | Fin q => Fin (- q)
  | PosInf => NegInf
  | NegInf => PosInf
  | NaN => NaN
  end.

Definition num_add (a b : JsNum) : JsNum :=
  match a, b with
  | NaN, _ | _, NaN => NaN
  | Fin x, Fin y => Fin (x + y)
  | PosInf, NegInf | NegInf, PosInf => NaN
  | PosInf, _ | _, PosInf => PosInf
  | NegInf, _ | _, NegInf => NegInf
  end.

Definition num_sub (a b : JsNum) : JsNum := num_add a (num_neg b).

(** The product of an infinity of sign [pos] with the finite [q]. *)
Definition infTimes (pos : bool) (q : Q) : JsNum :=
  if Qeq_bool q 0 then NaN
  else if Bool.eqb pos (Qlt_bool 0 q) then PosInf else NegInf.

Definition num_mul (a b : JsNum) : JsNum :=
  match a, b with
  | NaN, _ | _, NaN => NaN
  | Fin x, Fin y => Fin (x * y)
  | PosInf, Fin y | Fin y, PosInf => infTimes true y
  | NegInf, Fin y | Fin y, NegInf => infTimes false y
  | PosInf, PosInf | NegInf, NegInf => PosInf
  | PosInf, NegInf | NegInf, PosInf => NegInf
  end.

(** [a < b]. *)
Definition num_lt (a b : JsNum) : bool :=
  match a, b with
  | NaN, _ | _, NaN => false
  | Fin x, Fin y => Qlt_bool x y
  | NegInf, NegInf => false
  | NegInf, _ => true
  | Fin _, PosInf => true
  | _, _ => false
  end.

(** [a === b] on numbers. *)
Definition num_eqb (a b : JsNum) : bool :=
  match a, b with
  | Fin x, Fin y => Qeq_bool x y
  | PosInf, PosInf | NegInf, NegInf => true
  | _, _ => false
  end.

Definition ofZ (z : Z) : JsNum := Fin (inject_Z z).

(** ** The host: clock and network *)

Record Request : Type := {
  url : string;
  method : string;
  authorization : string
}.

(** What the server reads of a [fetch] response.  [resJson] is [None] when the
    body is not JSON, in which case [res.json()] rejects. *)
Record Response : Type := {
  resStatus : Z;
  resText : string;
  resRetryAfter : option string;   (* res.headers.get("retry-after") *)
  resJson : option JsVal
}.

(** [res.ok] *)
Definition resOk (r : Response) : bool :=
  ((200 <=? resStatus r)%Z && (resStatus r <=? 299)%Z)%bool.

Inductive FetchResult : Type :=
| NetworkFailure (reason : string)   (* the promise of fetch rejects *)
| Responded (r : Response).

(** The limit of calls per minute is read from the environment by the code
    (90 when unset); it is an integer here, as in the spec's data model.  The
    two mapping files hold objects, given by their own properties. *)
Record World : Type := {
  clock : nat -> Z;                          (* the n-th value of Date.now() *)
  network : nat -> Request -> FetchResult;   (* the answer to the n-th fetch *)
  STRIVEN_MAX_CALLS_PER_MIN : Z;
  CLIENT_ID : string;
  CLIENT_SECRET : string;
  itemNumberToId : list (string * JsVal);
  itemNameToIdMissingNumber : list (string * JsVal)
}.

(** ** The server's variables *)

Record CacheEntry : Type := {
  ts : Z;
  value : JsVal
}.

Record State : Type := {
  windowStartMs : Z;
  windowCount : Z;
  cachedToken : JsVal;
  tokenExpiresAt : JsNum;
  itemByIdCache : gmap string CacheEntry;
  ticks : nat;            (* how often Date.now() has been called *)
  sent : list Request     (* the requests fetched so far, the latest first *)
}.

Definition setWindow (s : State) (start count : Z) : State :=
  {| windowStartMs := start; windowCount := count;
     cachedToken := cachedToken s; tokenExpiresAt := tokenExpiresAt s;
     itemByIdCache := itemByIdCache s; ticks := ticks s; sent := sent s |}.

Definition setCachedToken (s : State) (tok : JsVal) : State :=
  {| windowStartMs := windowStartMs s; windowCount := windowCount s;
     cachedToken := tok; tokenExpiresAt := tokenExpiresAt s;
     itemByIdCache := itemByIdCache s; ticks := ticks s; sent := sent s |}.

Definition setTokenExpiresAt (s : State) (t : JsNum) : State :=
  {| windowStartMs := windowStartMs s; windowCount := windowCount s;
     cachedToken := cachedToken s; tokenExpiresAt := t;
     itemByIdCache := itemByIdCache s; ticks := ticks s; sent := sent s |}.

Definition setCache (s : State) (c : gmap string CacheEntry) : State :=
  {| windowStartMs := windowStartMs s; windowCount := windowCount s;
     cachedToken := cachedToken s; tokenExpiresAt := tokenExpiresAt s;
     itemByIdCache := c; ticks := ticks s; sent := sent s |}.

Definition tick (s : State) : State :=
  {| windowStartMs := windowStartMs s; windowCount := windowCount s;
     cachedToken := cachedToken s; tokenExpiresAt := tokenExpiresAt s;
     itemByIdCache := itemByIdCache s; ticks := S (ticks s); sent := sent s |}.

Definition logRequest (s : State) (r : Request) : State :=
  {| windowStartMs := windowStartMs s; windowCount := windowCount s;
     cachedToken := cachedToken s; tokenExpiresAt := tokenExpiresAt s;
     itemByIdCache := itemByIdCache s; ticks := ticks s; sent := r :: sent s |}.

(** ** The monad of the server's functions *)

Definition M (A : Type) : Type := State -> Completion A * State.

Definition ret {A : Type} (a : A) : M A := fun s => (Ret a, s).

Definition throw {A : Type} (e : JsError) : M A := fun s => (Throw e, s).

Definition bind {A X : Type} (m : M A) (k : A -> M X) : M X :=
  fun s =>
    match m s with
    | (Ret a, s') => k a s'
    | (Throw e, s') => (Throw e, s')
    end.

Definition get : M State := fun s => (Ret s, s).

Definition modify (f : State -> State) : M unit := fun s => (Ret tt, f s).

(** [try { m } catch (err) { h err }] *)
Definition tryCatch {A : Type} (m : M A) (h : JsError -> M A) : M A :=
  fun s =>
    match m s with
    | (Throw e, s') => h e s'
    | r => r
    end.

Definition liftC {A : Type} (c : Completion A) : M A := fun s => (c, s).

Declare Scope js_scope.
Delimit Scope js_scope with js.
Notation "x <- m ;; k" := (bind m (fun x => k))
  (at level 100, m at next level, right associativity) : js_scope.
Notation "m ;; k" := (bind m (fun _ => k))
  (at level 100, right associativity) : js_scope.
Local Open Scope js_scope.

(** [for (const a of l) { body }], where the body either leaves the handler
    with a reply ([inl]) or goes on to the next element ([inr]). *)
Fixpoint forOf {A R Acc : Type} (body : A -> Acc -> M (R + Acc))
    (l : list A) (acc : Acc) : M (R + Acc) :=
  match l with
  | [] => ret (inr acc)
  | a :: rest =>
      r <- body a acc ;;
      match r with
      | inl reply => ret (inl reply)
      | inr acc' => forOf body rest acc'
      end
  end.

(** ** The server *)

Definition ITEM_CACHE_TTL_MS : Z := 10 * 60 * 1000.
Definition STRIVEN_BASE : string := "https://api.striven.com".
Definition TOKEN_URL : string := STRIVEN_BASE +:+ "/accesstoken".

(** [String(err.message || err)]; an error without message prints as its
    name. *)
Definition errText (e : JsError) : string :=
  if String.eqb (message e) EmptyString then "Error" else message e.

Record Resolved : Type := {
  r_id : JsVal;
  r_itemNumber : JsVal;
  r_name : JsVal;
  r_kind : string;
  r_workDescription : JsVal;
  r_rawTotal : Q;
  r_roundedTotal : Q;
  r_finalTotal : Q;
  r_debug : list Component
}.

(** The records pushed on [results]. *)
Inductive Line : Type :=
| ErrorByNumber (requestedItemNumber itemNumber error : string)
| ErrorById (id : JsNum) (error : string)
| ResolvedByNumber (requestedItemNumber : string) (r : Resolved)
| ResolvedById (r : Resolved).

(** What a handler sends. *)
Inductive Reply : Type :=
| JsonItem (item : JsVal)
| Json200 (lines : list Line)
| Json429 (error : string) (retryAfter : JsVal) (lines : list Line)
| JsonError (status : JsNum) (error : string) (retryAfter : JsVal).

Section Server.

Variable B : Builtins.
Variable W : World.

(** [Date.now()] *)
Definition DateNow : M Z :=
  fun s => (Ret (clock W (ticks s)), tick s).

(** [await fetch(url, ...)] *)
Definition fetch (r : Request) : M Response :=
  fun s =>
    match network W (length (sent s)) r with
    | NetworkFailure reason => (Throw (mkError reason VUndef VUndef), logRequest s r)
    | Responded res => (Ret res, logRequest s r)
    end.

(** [await res.json()] *)
Definition json (res : Response) : M JsVal :=
  match resJson res with
  | Some v => ret v
  | None => throw (mkError "SyntaxError" VUndef VUndef)
  end.

(** server.js 45-51 *)
Definition rateWindowResetIfNeeded : M unit :=
  now <- DateNow ;;
  s <- get ;;
  if (60000 <=? now - windowStartMs s)%Z
  then modify (fun s => setWindow s now 0)
  else ret tt.

(** server.js 53-56 *)
Definition canSpendStrivenCall : M bool :=
  rateWindowResetIfNeeded ;;
  s <- get ;;
  ret (windowCount s <? STRIVEN_MAX_CALLS_PER_MIN W)%Z.

(** server.js 58-61 *)
Definition spendStrivenCall : M unit :=
  rateWindowResetIfNeeded ;;
  modify (fun s => setWindow s (windowStartMs s) (windowCount s + 1)%Z).

(** server.js 63-68 *)
Definition getRetryAfterSeconds : M Z :=
  rateWindowResetIfNeeded ;;
  now <- DateNow ;;
  s <- get ;;
  let msLeft := Z.max 0 (60000 - (now - windowStartMs s)) in
  ret (Z.max 1 (Qceiling (inject_Z msLeft / 1000))).

(** server.js 70-72 *)
Definition normalizeKey (s : JsVal) : string :=
  trim B (ToString B (js_coalesce s (VStr EmptyString))).

(** server.js 102-104 *)
Definition basicAuthHeader (clientId clientSecret : string) : string :=
  "Basic " +:+ base64 B (clientId +:+ ":" +:+ clientSecret).

(** server.js 106-137.  The lifetime [json.expires_in] is taken to convert
    to a number, as a number, a string, [null] or no lifetime does. *)
Definition getAccessToken : M JsVal :=
  now <- DateNow ;;
  s <- get ;;
  if (truthy (cachedToken s) && num_lt (ofZ now) (tokenExpiresAt s))%bool
  then ret (cachedToken s)
  else
    res <- fetch {| url := TOKEN_URL; method := "POST";
                    authorization := basicAuthHeader (CLIENT_ID W) (CLIENT_SECRET W) |} ;;
    if negb (resOk res) then
      throw (mkError ("Token request failed (" +:+ NumberToString B (ofZ (resStatus res))
                        +:+ "): " +:+ resText res) VUndef VUndef)
    else
      j <- json res ;;
      tok <- liftC (getProp j "access_token") ;;
      modify (fun s => setCachedToken s tok) ;;
      ex <- liftC (getProp j "expires_in") ;;
      let expiresInMs :=
        num_mul (match js_or (VNum (Number B ex)) (VNum (Fin 86400)) with
                 | VNum n => n
                 | _ => NaN
                 end) (Fin 1000) in
      now' <- DateNow ;;
      modify (fun s => setTokenExpiresAt s
                         (num_sub (num_add (ofZ now') expiresInMs) (Fin 60000))) ;;
      ret tok.

(** server.js 142-148: the error of the rate limit guard. *)
Definition rateLimitError (retryAfter : Z) : JsError :=
  mkError ("Rate limit guard: too many Striven calls this minute. Retry after "
             +:+ NumberToString B (ofZ retryAfter) +:+ "s")
          (VNum (Fin 429)) (VNum (ofZ retryAfter)).

(** server.js 163-171: the error of a response that is not ok. *)
Definition strivenApiError (path : string) (res : Response) : JsError :=
  mkError ("Striven API error " +:+ NumberToString B (ofZ (resStatus res)) +:+ " on "
             +:+ path +:+ ": " +:+ resText res)
          (VNum (ofZ (resStatus res)))
          (match resRetryAfter res with
           | Some ra =>
               if truthy (VStr ra) then js_or (VNum (Number B (VStr ra))) VUndef else VUndef
           | None => VUndef
           end).

(** server.js 151-173: what [strivenFetch] does once the guard has let the
    call through. *)
Definition strivenCall (path : string) (meth : string) : M JsVal :=
  token <- getAccessToken ;;
  res <- fetch {| url := STRIVEN_BASE +:+ path; method := meth;
                  authorization := "Bearer " +:+ ToString B token |} ;;
  if negb (resOk res) then throw (strivenApiError path res)
  else json res.

(** server.js 142-149: the guard at the head of [strivenFetch]; it throws
    when the call may not be spent and counts the call otherwise. *)
Definition rateGuard : M unit :=
  can <- canSpendStrivenCall ;;
  if negb can then
    retryAfter <- getRetryAfterSeconds ;;
    throw (rateLimitError retryAfter)
  else spendStrivenCall.

(** server.js 139-174, called with [options = { method }]. *)
Definition strivenFetch (path : string) (meth : string) : M JsVal :=
  rateGuard ;;
  strivenCall path meth.

(** server.js 176-185 *)
Definition cacheGetItem (id : JsVal) : M JsVal :=
  let key := ToString B id in
  s <- get ;;
  match itemByIdCache s !! key with
  | None => ret VNull
  | Some hit =>
      now <- DateNow ;;
      if (ITEM_CACHE_TTL_MS <? now - ts hit)%Z then
        modify (fun s => setCache s (delete key (itemByIdCache s))) ;;
        ret VNull
      else ret (value hit)
  end.

(** server.js 187-189 *)
Definition cacheSetItem (id : JsVal) (v : JsVal) : M unit :=
  now <- DateNow ;;
  modify (fun s => setCache s (<[ToString B id := {| ts := now; value := v |}]> (itemByIdCache s))).

(** server.js 194-196: the path of [fetchItemByIdCached] after a miss. *)
Definition fetchAndStore (id : JsVal) : M JsVal :=
  item <- strivenFetch ("/v1/items/" +:+ ToString B id) "GET" ;;
  cacheSetItem id item ;;
  ret item.

(** server.js 191-197 *)
Definition fetchItemByIdCached (id : JsVal) : M JsVal :=
  cached <- cacheGetItem id ;;
  if truthy cached then ret cached
  else fetchAndStore id.

(** [results.push(line)] *)
Definition push (results : list Line) (line : Line) : list Line :=
  (results ++ [line])%list.

(** The three ways out of the [try] around the fetch of one line. *)
Inductive Fetched : Type :=
| Got (item : JsVal)
| Abort (reply : Reply)          (* return res.status(429).json(...) *)
| Skip (results : list Line).    (* results.push(...); continue *)

(** [err.retryAfter || getRetryAfterSeconds()] *)
Definition retryAfterOf (err : JsError) : M JsVal :=
  if truthy (retryAfter err) then ret (retryAfter err)
  else
    secs <- getRetryAfterSeconds ;;
    ret (VNum (ofZ secs)).

(** server.js 292-310 and 351-364: the fetch of one line and its [catch];
    [errorLine] builds the record pushed for an error that is not a 429. *)
Definition fetchLine (id : JsVal) (errorLine : string -> Line) (results : list Line)
  : M Fetched :=
  tryCatch
    (item <- fetchItemByIdCached id ;;
     ret (Got item))
    (fun err =>
       if num_eqb (Number B (status err)) (Fin 429) then
         ra <- retryAfterOf err ;;
         ret (Abort (Json429 (errText err) ra results))
       else ret (Skip (push results (errorLine (errText err))))).

(** server.js 312-326 and 366-379: the record of a fetched item.  Once
    [calcItemRawTotal] has returned, [item] is neither [null] nor
    [undefined], and its properties can be read. *)
Definition resolvedOf (item : JsVal) : Completion Resolved :=
  match calcItemRawTotal B item with
  | Throw e => Throw e
  | Ret p =>
      let roundedTotal := roundUpNice B (VNum (Fin (rawTotal p))) in
      match getProp item "id" with
      | Throw e => Throw e
      | Ret id =>
          Ret {| r_id := id;
                 r_itemNumber := getPropOpt item "itemNumber";
                 r_name := getPropOpt item "name";
                 r_kind := kind p;
                 r_workDescription :=
                   js_coalesce (js_coalesce (getPropOpt item "description")
                                            (getPropOpt item "name")) (VStr EmptyString);
                 r_rawTotal := rawTotal p;
                 r_roundedTotal := roundedTotal;
                 r_finalTotal := roundedTotal;
                 r_debug := components p |}
      end
  end.

Definition NO_ID_FOUND : string :=
  "No ItemId found for this itemNumber/name in backend/data mapping files.".

(** server.js 276-281: the id the two mapping files give for [itemNumber]. *)
Definition lookupItemId (itemNumber : string) : JsVal :=
  let id := getIndex itemNumber (itemNumberToId W) in
  if (negb (truthy id) && nullish (getIndex itemNumber (itemNumberToId W)))%bool
  then getIndex itemNumber (itemNameToIdMissingNumber W)
  else id.

(** server.js 274-327: the body of the loop of /api/resolve-by-number. *)
Definition resolveByNumber_line (n : JsVal) (results : list Line)
  : M (Reply + list Line) :=
  let itemNumber := normalizeKey n in
  let id := lookupItemId itemNumber in
  if negb (truthy id) then
    ret (inr (push results (ErrorByNumber itemNumber itemNumber NO_ID_FOUND)))
  else
    f <- fetchLine id (ErrorByNumber itemNumber itemNumber) results ;;
    match f with
    | Abort reply => ret (inl reply)
    | Skip results' => ret (inr results')
    | Got item =>
        r <- liftC (resolvedOf item) ;;
        ret (inr (push results (ResolvedByNumber itemNumber r)))
    end.

(** server.js 347-380: the body of the loop of /api/resolve-lines. *)
Definition resolveLines_line (line : JsVal) (results : list Line)
  : M (Reply + list Line) :=
  lineId <- liftC (getProp line "id") ;;
  id <- liftC (tryNumber B lineId) ;;
  if negb (isFinite id) then ret (inr results)
  else
    f <- fetchLine (VNum id) (ErrorById id) results ;;
    match f with
    | Abort reply => ret (inl reply)
    | Skip results' => ret (inr results')
    | Got item =>
        r <- liftC (resolvedOf item) ;;
        ret (inr (push results (ResolvedById r)))
    end.

(** The [catch] that closes every handler. *)
Definition catchAll (err : JsError) : M Reply :=
  ret (JsonError
         (match js_or (VNum (Number B (status err))) (VNum (Fin 500)) with
          | VNum n => n
          | _ => NaN
          end)
         (errText err)
         (if truthy (retryAfter err) then retryAfter err else VUndef)).

(** [Array.isArray(v) ? v : []] *)
Definition arrayOrEmpty (v : JsVal) : list JsVal :=
  match v with
  | VArr l => l
  | _ => []
  end.

Definition finish (r : Reply + list Line) : M Reply :=
  match r with
  | inl reply => ret reply
  | inr results => ret (Json200 results)
  end.

(** server.js 254-264 *)
Definition getItem (id : string) : M Reply :=
  tryCatch
    (item <- fetchItemByIdCached (VStr id) ;;
     ret (JsonItem item))
    catchAll.

(** server.js 265-336 *)
Definition resolveByNumber (body : JsVal) : M Reply :=
  tryCatch
    (let itemNumbers := arrayOrEmpty (getPropOpt body "itemNumbers") in
     if (length itemNumbers =? 0)%nat then
       ret (JsonError (Fin 400) "Body must include { itemNumbers: [...] }" VUndef)
     else
       r <- forOf resolveByNumber_line itemNumbers [] ;;
       finish r)
    catchAll.

(** server.js 338-389 *)
Definition resolveLines (body : JsVal) : M Reply :=
  tryCatch
    (let lines := arrayOrEmpty (getPropOpt body "lines") in
     if (length lines =? 0)%nat then
       ret (JsonError (Fin 400) "Body must include { lines: [{id: number}, ...] }" VUndef)
     else
       r <- forOf resolveLines_line lines [] ;;
       finish r)
    catchAll.

(** The state when the module has been loaded: [windowStartMs] holds the
    first reading of the clock. *)
Definition initialState : State :=
  {| windowStartMs := clock W 0; windowCount := 0;
     cachedToken := VNull; tokenExpiresAt := Fin 0;
     itemByIdCache := ∅; ticks := 1; sent := [] |}.

(** The states the server can be in between two requests. *)
Inductive reachable : State -> Prop :=
| reach_init : reachable initialState
| reach_getItem : forall s id,
    reachable s -> reachable (snd (getItem id s))
| reach_resolveByNumber : forall s body,
    reachable s -> reachable (snd (resolveByNumber body s))
| reach_resolveLines : forall s body,
    reachable s -> reachable (snd (resolveLines body s)).

End Server.

(** ** A host to run the model on *)

Fixpoint digitsValue (s : string) (acc : Z) : option Z :=
  match s with
  | EmptyString => Some acc
  | String c rest =>
      let n := Z.of_nat (nat_of_ascii c) in
      if ((48 <=? n)%Z && (n <=? 57)%Z)%bool
      then digitsValue rest (10 * acc + (n - 48))%Z
      else None
  end.

(** The conversions, defined on the unsigned decimal integers only; the
    sample [trim] and [base64] leave the string as it is. *)
Definition sampleBuiltins : Builtins :=
  {| StringToNumber := fun s =>
       match digitsValue s 0 with
       | Some z => Fin (inject_Z z)
       | None => NaN
       end;
     NumberToString := fun n =>
       match n with
       | Fin q => pretty (Qfloor q)
       | PosInf => "Infinity"
       | NegInf => "-Infinity"
       | NaN => "NaN"
       end;
     trim := fun s => s;
     base64 := fun s => s |}.


(** The double of a whole number below 2^53, and the double nearest to a
    quotient of two such numbers. *)
Fixpoint doubleOfPositive (p : positive) : float :=
  match p with
  | xH => 1%float
  | xO p' => (2 * doubleOfPositive p')%float
  | xI p' => (2 * doubleOfPositive p' + 1)%float
  end.

Definition doubleOfZ (z : Z) : float :=
  match z with
  | Z0 => 0%float
  | Zpos p => doubleOfPositive p
  | Zneg p => PrimFloat.opp (doubleOfPositive p)
  end.

Definition doubleOfQ (q : Q) : float :=
  (doubleOfZ (Qnum q) / doubleOfPositive (Qden q))%float.

(** The rounding on doubles and the exact rounding give the same total
    for [q]. *)
Definition sameRounding (B : Builtins) (q : Q) : bool :=
  PrimFloat.eqb (roundUpNice64 (doubleOfQ q))
                (doubleOfQ (roundUpNice B (VNum (Fin q)))).


(** The fields of the component built for the group item [g]. *)
Definition isComponentOf (B : Builtins) (g : JsVal) (c : Component) : Prop :=
  qty c = toNumber B (getPropOpt g "qty") /\
  unitPrice c = toNumber B (getPropOpt g "price") /\
  lineTotal c = qty c * unitPrice c /\
  itemId c = js_coalesce (getPropOpt (getPropOpt g "item") "id") VNull /\
  name c = js_coalesce (getPropOpt (getPropOpt g "item") "name") (VStr EmptyString).

(** The group item [g] can be priced: it is not [null] or [undefined], and
    its [qty] and [price] convert to numbers. *)
Definition priced (g : JsVal) : bool :=
  (negb (nullish g) && hasPrimitive (getPropOpt g "qty")
   && hasPrimitive (getPropOpt g "price"))%bool.



(** ** Notions used to state the properties *)

(** What [rateWindowResetIfNeeded] makes of the state when the clock
    reads [now]. *)
Definition resetWindow (now : Z) (s : State) : State :=
  if (60000 <=? now - windowStartMs s)%Z then setWindow s now 0 else s.

(** The two states have the same rate window. *)
Definition sameWindow (s s' : State) : Prop :=
  windowStartMs s' = windowStartMs s /\ windowCount s' = windowCount s.

(** The counter of the rate window is within its bounds. *)
Definition countInBounds (W : World) (s : State) : Prop :=
  (0 <= windowCount s <= STRIVEN_MAX_CALLS_PER_MIN W)%Z.

(** [n] calls let through the guard, one after the other. *)
Fixpoint rateGuardTimes (B : Builtins) (W : World) (n : nat) : M unit :=
  match n with
  | O => ret tt
  | S k => rateGuard B W ;; rateGuardTimes B W k
  end.

(** The seconds the guard reports when the clock reads [now]. *)
Definition secondsLeft (now start : Z) : Z :=
  Z.max 1 (Qceiling (inject_Z (Z.max 0 (60000 - (now - start))) / 1000)).

(** The property [P] of the state survives the run of [m], whether [m]
    returns or throws. *)
Definition preserves {A : Type} (P : State -> Prop) (m : M A) : Prop :=
  forall s, P s -> P (snd (m s)).

(** [P] looks at the rate window only. *)
Definition windowOnly (P : State -> Prop) : Prop :=
  forall s s',
    windowStartMs s' = windowStartMs s -> windowCount s' = windowCount s ->
    P s -> P s'.

(** ** Sample worlds *)

Definition tokenResponse : Response :=
  {| resStatus := 200; resText := EmptyString; resRetryAfter := None;
     resJson := Some (VObj [("access_token", VStr "tok");
                            ("expires_in", VNum (Fin 3600))]) |}.

Definition sampleItem : JsVal :=
  VObj [("id", VNum (Fin 7)); ("itemNumber", VStr "A-100");
        ("name", VStr "Winch"); ("price", VNum (Fin 42))].

Definition itemResponse (item : JsVal) : Response :=
  {| resStatus := 200; resText := EmptyString; resRetryAfter := None; resJson := Some item |}.

(** A network that grants a token and answers every item request with
    [item]. *)
Definition networkServing (item : JsVal) (n : nat) (r : Request) : FetchResult :=
  if String.eqb (url r) TOKEN_URL then Responded tokenResponse
  else Responded (itemResponse item).

(** A network whose token endpoint refuses the credentials. *)
Definition networkRefusing (n : nat) (r : Request) : FetchResult :=
  Responded {| resStatus := 401; resText := "denied"; resRetryAfter := None;
               resJson := None |}.

Definition sampleWorld (clk : nat -> Z) (net : nat -> Request -> FetchResult)
    (limit : Z) : World :=
  {| clock := clk; network := net; STRIVEN_MAX_CALLS_PER_MIN := limit;
     CLIENT_ID := "client"; CLIENT_SECRET := "secret";
     itemNumberToId := [("A-100", VNum (Fin 7))];
     itemNameToIdMissingNumber := [("Winch", VNum (Fin 9))] |}.

(** A clock that advances by one second at each reading. *)
Definition secondsClock (n : nat) : Z := (1000 * Z.of_nat n)%Z.

(** A state of the server with the given window and cache, and nothing else. *)
Definition stateWith (start count : Z) (tok : JsVal) (expires : JsNum)
    (cache : gmap string CacheEntry) : State :=
  {| windowStartMs := start; windowCount := count;
     cachedToken := tok; tokenExpiresAt := expires;
     itemByIdCache := cache; ticks := 0; sent := [] |}.

(** The request of the credential exchange (server.js 114-122). *)
Definition tokenRequest (B : Builtins) (W : World) : Request :=
  {| url := TOKEN_URL; method := "POST";
     authorization := basicAuthHeader B (CLIENT_ID W) (CLIENT_SECRET W) |}.

(** The lifetime, in seconds, read from the answer [j] of the exchange
    (server.js 133: [Number(json.expires_in) || 86400]). *)
Definition lifetimeOf (B : Builtins) (j : JsVal) : JsNum :=
  match js_or (VNum (Number B (getPropOpt j "expires_in"))) (VNum (Fin 86400)) with
  | VNum n => n
  | _ => NaN
  end.

(** The cached token may be reused when the clock reads [now]. *)
Definition tokenFresh (s : State) (now : Z) : bool :=
  (truthy (cachedToken s) && num_lt (ofZ now) (tokenExpiresAt s))%bool.

(** A clock that reads 0 once and 700000 from then on. *)
Definition expiryClock (n : nat) : Z := if (n =? 0)%nat then 0%Z else 700000%Z.

(** A clock that reads 59999 once and 60000 from then on. *)
Definition boundaryClock (n : nat) : Z := if (n =? 0)%nat then 59999%Z else 60000%Z.

(** A clock that reads 0 three times, and 3500 seconds from then on. *)
Definition lateClock (n : nat) : Z := if (n <? 3)%nat then 0%Z else 3500000%Z.

(** A request to the item endpoint. *)
Definition isItemRequest (r : Request) : bool :=
  String.prefix (STRIVEN_BASE +:+ "/v1/items/") (url r).

(** A cache that holds [null] for the identifier 7, stored at time 0. *)
Definition nullCache : gmap string CacheEntry :=
  {["7" := {| ts := 0; value := VNull |}]}.

(** The error is the one the rate guard throws: the spec's QuotaExceeded. *)
Definition QuotaExceeded (B : Builtins) (e : JsError) : Prop :=
  exists ra, (1 <= ra)%Z /\ e = rateLimitError B ra.

(** The [id] of the line coerces to a finite number: the line is not
    skipped by /api/resolve-lines. *)
Definition finiteId (B : Builtins) (line : JsVal) : bool :=
  match getProp line "id" with
  | Ret v => isFinite (Number B v)
  | Throw _ => false
  end.

(** [out] is a record /api/resolve-lines pushes for [line]: an error marked
    with the id of the line, or a resolved item. *)
Definition isLineOf (B : Builtins) (line : JsVal) (out : Line) : Prop :=
  exists v, getProp line "id" = Ret v /\
            ((exists msg, out = ErrorById (Number B v) msg) \/
             (exists r, out = ResolvedById r)).


(** The batch of the quota example: five lines, with a limit of two calls. *)
Definition lineOfId (n : Z) : JsVal := VObj [("id", VNum (ofZ n))].

Definition fiveLines : list JsVal := map lineOfId [1; 2; 3; 4; 5]%Z.

Definition tightWorld : World :=
  sampleWorld (fun _ => 5000%Z) (networkServing sampleItem) 2.

(** ** Notions used to state the further properties *)

Definition isString (v : JsVal) : bool :=
  match v with
  | VStr _ => true
  | _ => false
  end.

(** The type name of the item is truthy and not a string: it has no
    [toLowerCase]. *)
Definition badTypeName (item : JsVal) : bool :=
  let v := getPropOpt (getPropOpt item "itemType") "name" in
  (truthy v && negb (isString v))%bool.

(** The components of an item that [calcItemRawTotal] prices as a group. *)
Definition groupComponents (item : JsVal) : option (list JsVal) :=
  match itemTypeName item with
  | VStr tn =>
      if String.eqb (toLowerCase tn) "item group" then
        match getPropOpt item "groupItems" with
        | VArr gs => Some gs
        | _ => None
        end
      else None
  | _ => None
  end.

(** The items [calcItemRawTotal] throws on: a group needs every component
    priced, any other item a price that converts to a number. *)
Definition pricingFails (item : JsVal) : bool :=
  (nullish item || badTypeName item ||
   match groupComponents item with
   | Some gs => negb (forallb priced gs)
   | None => negb (hasPrimitive (getPropOpt item "price"))
   end)%bool.

(** [out] is a record /api/resolve-by-number pushes for the requested [n]:
    an error or a resolved item, marked with the normalized key of [n]. *)
Definition isRecordOf (B : Builtins) (n : JsVal) (out : Line) : Prop :=
  (exists msg, out = ErrorByNumber (normalizeKey B n) (normalizeKey B n) msg) \/
  (exists r, out = ResolvedByNumber (normalizeKey B n) r).

(** The error has the status 429: [Number(err.status) === 429]. *)
Definition is429 (B : Builtins) (e : JsError) : bool :=
  num_eqb (Number B (status e)) (Fin 429).

(** A network that grants a token and answers every item request with the
    given status, retry-after header and no JSON. *)
Definition networkFailing (st : Z) (ra : option string) (n : nat) (r : Request)
  : FetchResult :=
  if String.eqb (url r) TOKEN_URL then Responded tokenResponse
  else Responded {| resStatus := st; resText := "busy"; resRetryAfter := ra;
                    resJson := None |}.

(** The number of requests sent to the item endpoint so far. *)
Definition itemRequests (s : State) : Z :=
  Z.of_nat (length (List.filter isItemRequest (sent s))).

(** The window started at [start], and the item requests sent exceed the
    calls counted in it by [d] at most. *)
Definition quotaLedger (start d : Z) (s : State) : Prop :=
  windowStartMs s = start /\ (itemRequests s - windowCount s <= d)%Z.

(** ** Rounding *)

Lemma Qlt_bool_iff (x y : Q) : Qlt_bool x y = true <-> x < y.
Proof.
  unfold Qlt_bool. rewrite negb_true_iff, <- not_true_iff_false, Qle_bool_iff.
  split; [apply Qnot_le_lt | apply Qlt_not_le].
Qed.

Lemma Qle_bool_false (x y : Q) : Qle_bool x y = false <-> y < x.
Proof.
  rewrite <- not_true_iff_false, Qle_bool_iff.
  split; [apply Qnot_le_lt | apply Qlt_not_le].
Qed.

Lemma Qlt_bool_false (x y : Q) : Qlt_bool x y = false <-> y <= x.
Proof.
  unfold Qlt_bool. rewrite negb_false_iff. apply Qle_bool_iff.
Qed.

(** The four comparisons of [niceStep], decided. *)
Ltac decide_tiers x :=
  destruct (Qle_bool 10 x) eqn:?H10; destruct (Qlt_bool x 100) eqn:?H100;
  destruct (Qle_bool 100 x) eqn:?H100'; destruct (Qle_bool x 500) eqn:?H500;
  destruct (Qlt_bool 500 x) eqn:?H500'; destruct (Qle_bool x 1000) eqn:?H1000;
  destruct (Qlt_bool 1000 x) eqn:?H1000';
  repeat match goal with
  | H : Qle_bool _ _ = true |- _ => apply Qle_bool_iff in H
  | H : Qle_bool _ _ = false |- _ => apply Qle_bool_false in H
  | H : Qlt_bool _ _ = true |- _ => apply Qlt_bool_iff in H
  | H : Qlt_bool _ _ = false |- _ => apply Qlt_bool_false in H
  end.

Lemma niceStep_cases (x : Q) :
  (x < 10 /\ niceStep x = 1) \/
  (10 <= x < 100 /\ niceStep x = 5) \/
  (100 <= x <= 500 /\ niceStep x = 20) \/
  (500 < x <= 1000 /\ niceStep x = 50) \/
  (1000 < x /\ niceStep x = 100).
Proof.
  unfold niceStep. decide_tiers x; simpl; try lra; intuition (auto; lra).
Qed.

Lemma niceStep_pos (x : Q) : 0 < niceStep x.
Proof.
  destruct (niceStep_cases x) as [[_ ->]|[[_ ->]|[[_ ->]|[[_ ->]|[_ ->]]]]]; reflexivity.
Qed.

Lemma roundUpNice_num (B : Builtins) (x : Q) :
  roundUpNice B (VNum (Fin x)) =
  if Qle_bool x 0 then 0 else inject_Z (Qceiling (x / niceStep x)) * niceStep x.
Proof. reflexivity. Qed.

Lemma toNumber_not_finite (B : Builtins) (v : JsVal) :
  isFinite (Number B v) = false -> toNumber B v = 0.
Proof. unfold toNumber. destruct (Number B v); [discriminate | reflexivity ..]. Qed.

(** Any argument is rounded as the number [toNumber] makes of it. *)
Lemma roundUpNice_coerces (B : Builtins) (v : JsVal) :
  roundUpNice B v = roundUpNice B (VNum (Fin (toNumber B v))).
Proof. reflexivity. Qed.

(** An argument that is not a finite number is rounded to 0. *)
Lemma roundUpNice_not_finite (B : Builtins) (v : JsVal) :
  isFinite (Number B v) = false -> roundUpNice B v = 0.
Proof.
  intros H. unfold roundUpNice. rewrite (toNumber_not_finite B v H). reflexivity.
Qed.

Example niceStep_above_500 : niceStep (50001 # 100) = 50.
Proof. reflexivity. Qed.

Example niceStep_above_1000 : niceStep (100001 # 100) = 100.
Proof. reflexivity. Qed.

Example roundUpNice_25 (B : Builtins) : roundUpNice B (VNum (Fin 25)) = 25.
Proof. reflexivity. Qed.



Lemma ceil_multiple_bounds (x step : Q) :
  0 < step ->
  x <= inject_Z (Qceiling (x / step)) * step /\
  inject_Z (Qceiling (x / step)) * step - step < x.
Proof.
  intros Hs.
  assert (Hx : x == x / step * step) by (field; lra).
  pose proof (Qle_ceiling (x / step)) as Hle.
  pose proof (Qceiling_lt (x / step)) as Hlt.
  unfold Z.sub in Hlt. rewrite inject_Z_plus in Hlt. simpl inject_Z in Hlt.
  set (c := inject_Z (Qceiling (x / step))) in *.
  set (q := x / step) in *.
  clearbody c q.
  change (inject_Z (- (1))) with (- (1)) in Hlt.
  split; rewrite Hx; clear Hx; nra.
Qed.

Lemma ceil_of_multiple (c : Z) (step : Q) :
  0 < step -> Qceiling (inject_Z c * step / step) = c.
Proof.
  intros Hs. rewrite <- (Qceiling_Z c) at 2.
  apply Qceiling_comp. field. lra.
Qed.




(** Below 2^53 the rounding on doubles gives what the exact one gives. *)
Example roundUpNice64_samples :
  PrimFloat.eqb (roundUpNice64 25) 25 = true /\
  PrimFloat.eqb (roundUpNice64 42) 45 = true /\
  PrimFloat.eqb (roundUpNice64 (42 / 5)) 9 = true /\
  PrimFloat.eqb (roundUpNice64 (50001 / 100)) 550 = true /\
  PrimFloat.eqb (roundUpNice64 (100001 / 100)) 1100 = true /\
  PrimFloat.eqb (roundUpNice64 (PrimFloat.next_down 100)) 100 = true /\
  PrimFloat.eqb (roundUpNice64 9007199254740991) 9007199254741000 = true /\
  PrimFloat.eqb (roundUpNice64 (-3)) 0 = true /\
  PrimFloat.eqb (roundUpNice64 PrimFloat.infinity) 0 = true /\
  PrimFloat.eqb (roundUpNice64 PrimFloat.nan) 0 = true.
Proof. repeat split; reflexivity. Qed.

(** The two agree on every quarter from 0 to 1250, which covers the tiers
    and their boundaries, and on whole numbers up to 2^53. *)
Example roundUpNice64_agrees :
  forallb (fun k => sameRounding sampleBuiltins (Z.of_nat k # 4)) (seq 0 (Z.to_nat 5001)) = true /\
  forallb (fun z => sameRounding sampleBuiltins (inject_Z z))
    [99999; 100001; 4503599627370495; 4503599627370497; 9007199254740891;
     9007199254740991]%Z = true.
Proof. split; vm_compute; reflexivity. Qed.

(** The same without the condition on the tier: a rounded total is a fixed
    point of the rounding. *)
Lemma roundUpNice_idempotent (B : Builtins) (x : Q) :
  roundUpNice B (VNum (Fin (roundUpNice B (VNum (Fin x))))) ==
  roundUpNice B (VNum (Fin x)).
Proof.
  rewrite (roundUpNice_num B x).
  destruct (Qle_bool x 0) eqn:H0; [reflexivity |].
  apply Qle_bool_false in H0.
  set (r := inject_Z (Qceiling (x / niceStep x)) * niceStep x).
  destruct (ceil_multiple_bounds x (niceStep x) (niceStep_pos x)) as [Hle Hlt].
  fold r in Hle, Hlt.
  rewrite roundUpNice_num.
  destruct (Qle_bool r 0) eqn:Hr0; [apply Qle_bool_iff in Hr0; lra |].
  assert (Hmul : forall k : Z, forall s : Q, 0 < s ->
            inject_Z (Qceiling (inject_Z k * s / s)) * s == inject_Z k * s).
  { intros k s Hs. rewrite ceil_of_multiple by exact Hs. reflexivity. }
  destruct (niceStep_cases x) as [[H Hx]|[[H Hx]|[[H Hx]|[[H Hx]|[H Hx]]]]];
    destruct (niceStep_cases r) as [[H' Hr]|[[H' Hr]|[[H' Hr]|[[H' Hr]|[H' Hr]]]]];
    rewrite Hr; unfold r in *; rewrite Hx in *; try lra; try (apply Hmul; lra).
  - (* from (0,10) up to 10 *)
    set (c := Qceiling (x / 1)) in *.
    assert (Hc : c = 10%Z).
    { assert (H1 : inject_Z 10 <= inject_Z c) by (change (inject_Z 10) with 10; lra).
      assert (H2 : inject_Z c < inject_Z 11) by (change (inject_Z 11) with 11; lra).
      rewrite <- Zle_Qle in H1. rewrite <- Zlt_Qlt in H2. lia. }
    rewrite Hc. reflexivity.
  - (* from [10,100) up to 100 *)
    set (c := Qceiling (x / 5)) in *.
    assert (Hc : c = 20%Z).
    { assert (H1 : inject_Z 20 <= inject_Z c) by (change (inject_Z 20) with 20; lra).
      assert (H2 : inject_Z c < inject_Z 21) by (change (inject_Z 21) with 21; lra).
      rewrite <- Zle_Qle in H1. rewrite <- Zlt_Qlt in H2. lia. }
    rewrite Hc. reflexivity.
  - (* no multiple of 20 lies strictly between 500 and 520 *)
    set (c := Qceiling (x / 20)) in *. exfalso.
    assert (H1 : inject_Z 25 < inject_Z c) by (change (inject_Z 25) with 25; lra).
    assert (H2 : inject_Z c < inject_Z 26) by (change (inject_Z 26) with 26; lra).
    rewrite <- Zlt_Qlt in H1, H2. lia.
  - (* no multiple of 50 lies strictly between 1000 and 1050 *)
    set (c := Qceiling (x / 50)) in *. exfalso.
    assert (H1 : inject_Z 20 < inject_Z c) by (change (inject_Z 20) with 20; lra).
    assert (H2 : inject_Z c < inject_Z 21) by (change (inject_Z 21) with 21; lra).
    rewrite <- Zlt_Qlt in H1, H2. lia.
Qed.

(** ** Pricing *)

Lemma getProp_not_nullish (v : JsVal) (k : string) :
  nullish v = false -> getProp v k = Ret (getPropOpt v k).
Proof. destruct v; simpl; intros; try discriminate; reflexivity. Qed.

Lemma tryToNumber_run (B : Builtins) (v : JsVal) :
  tryToNumber B v = if hasPrimitive v then Ret (toNumber B v) else Throw TypeError.
Proof. unfold tryToNumber, tryNumber. destruct (hasPrimitive v); reflexivity. Qed.

(** A number is not finite where the conversion throws. *)
Lemma finite_hasPrimitive (B : Builtins) (v : JsVal) :
  isFinite (Number B v) = true -> hasPrimitive v = true.
Proof.
  destruct v; try reflexivity; unfold Number;
    match goal with |- context [if ?c then _ else _] => destruct c end;
    try reflexivity; discriminate.
Qed.

Lemma componentOf_priced (B : Builtins) (g : JsVal) :
  priced g = true ->
  exists c, componentOf B g = Ret c /\ isComponentOf B g c.
Proof.
  unfold priced. intros H.
  apply andb_prop in H as [H Hp]. apply andb_prop in H as [Hg Hq].
  apply negb_true_iff in Hg.
  unfold componentOf. rewrite !getProp_not_nullish by exact Hg.
  rewrite !tryToNumber_run, Hq, Hp.
  eexists. split; [reflexivity |]. repeat split.
Qed.

Lemma componentOf_unpriced (B : Builtins) (g : JsVal) :
  priced g = false -> componentOf B g = Throw TypeError.
Proof.
  unfold priced, componentOf. intros H.
  destruct (nullish g) eqn:Hg.
  - destruct g; try discriminate Hg; reflexivity.
  - rewrite !getProp_not_nullish by exact Hg. rewrite !tryToNumber_run.
    cbn [negb andb] in H.
    destruct (hasPrimitive (getPropOpt g "qty")); [| reflexivity].
    cbn [andb] in H. rewrite H. reflexivity.
Qed.

Lemma mapThrow_priced (B : Builtins) (gs : list JsVal) :
  forallb priced gs = true ->
  exists comps, mapThrow (componentOf B) gs = Ret comps /\
                Forall2 (isComponentOf B) gs comps.
Proof.
  induction gs as [|g gs IH]; cbn [forallb mapThrow]; intros H.
  - exists []. split; [reflexivity | constructor].
  - apply andb_prop in H as [Hg Hgs].
    destruct (componentOf_priced B g Hg) as (c & -> & Hc).
    destruct (IH Hgs) as (comps & -> & Hf).
    exists (c :: comps). split; [reflexivity | constructor; assumption].
Qed.

Lemma mapThrow_unpriced (B : Builtins) (gs : list JsVal) :
  forallb priced gs = false ->
  mapThrow (componentOf B) gs = Throw TypeError.
Proof.
  induction gs as [|g gs IH]; cbn [forallb mapThrow]; intros H; [discriminate |].
  destruct (priced g) eqn:Hg.
  - destruct (componentOf_priced B g Hg) as (c & -> & _).
    rewrite (IH H). reflexivity.
  - rewrite (componentOf_unpriced B g Hg). reflexivity.
Qed.


Example toLowerCase_item_group : toLowerCase "Item GROUP" = "item group".
Proof. reflexivity. Qed.






(** ** The rate guard *)

Section Guard.

Variable B : Builtins.
Variable W : World.

Local Abbreviation LIMIT := (STRIVEN_MAX_CALLS_PER_MIN W).

Lemma rateWindowResetIfNeeded_run (s : State) :
  rateWindowResetIfNeeded W s = (Ret tt, tick (resetWindow (clock W (ticks s)) s)).
Proof.
  unfold rateWindowResetIfNeeded, resetWindow, bind, DateNow, get, modify, ret. simpl.
  destruct (60000 <=? clock W (ticks s) - windowStartMs s)%Z; reflexivity.
Qed.

Lemma canSpendStrivenCall_run (s : State) :
  let s1 := tick (resetWindow (clock W (ticks s)) s) in
  canSpendStrivenCall W s = (Ret (windowCount s1 <? LIMIT)%Z, s1).
Proof.
  unfold canSpendStrivenCall, bind. rewrite rateWindowResetIfNeeded_run. reflexivity.
Qed.

Lemma spendStrivenCall_run (s : State) :
  let s1 := tick (resetWindow (clock W (ticks s)) s) in
  spendStrivenCall W s =
  (Ret tt, setWindow s1 (windowStartMs s1) (windowCount s1 + 1)%Z).
Proof.
  unfold spendStrivenCall, bind. rewrite rateWindowResetIfNeeded_run. reflexivity.
Qed.

Lemma getRetryAfterSeconds_run (s : State) :
  let s1 := tick (resetWindow (clock W (ticks s)) s) in
  getRetryAfterSeconds W s =
  (Ret (secondsLeft (clock W (ticks s1)) (windowStartMs s1)), tick s1).
Proof.
  unfold getRetryAfterSeconds, bind. rewrite rateWindowResetIfNeeded_run. reflexivity.
Qed.

Lemma secondsLeft_pos (now start : Z) : (1 <= secondsLeft now start)%Z.
Proof. unfold secondsLeft. lia. Qed.

Lemma resetWindow_elapsed (now : Z) (s : State) :
  (60000 <= now - windowStartMs s)%Z ->
  resetWindow now s = setWindow s now 0.
Proof. unfold resetWindow. intros H. apply Z.leb_le in H. rewrite H. reflexivity. Qed.

Lemma resetWindow_within (now : Z) (s : State) :
  (now - windowStartMs s < 60000)%Z -> resetWindow now s = s.
Proof. unfold resetWindow. intros H. apply Z.leb_gt in H. rewrite H. reflexivity. Qed.

Lemma resetWindow_ticks (now : Z) (s : State) :
  ticks (resetWindow now s) = ticks s.
Proof. unfold resetWindow. destruct (60000 <=? now - windowStartMs s)%Z; reflexivity. Qed.

(** A second reset at the same instant changes nothing. *)
Lemma resetWindow_again (now : Z) (s : State) :
  resetWindow now (tick (resetWindow now s)) = tick (resetWindow now s).
Proof.
  unfold resetWindow at 2 3. destruct (60000 <=? now - windowStartMs s)%Z eqn:H.
  - apply resetWindow_within. simpl. lia.
  - apply resetWindow_within. simpl. apply Z.leb_gt in H. exact H.
Qed.

Lemma resetWindow_count (now : Z) (s : State) :
  (0 <= windowCount s <= LIMIT)%Z ->
  (0 <= windowCount (resetWindow now s) <= LIMIT)%Z.
Proof.
  unfold resetWindow. destruct (60000 <=? now - windowStartMs s)%Z; simpl; lia.
Qed.

Lemma resetWindow_count_lt (now : Z) (s : State) :
  (0 < LIMIT)%Z ->
  (0 <= windowCount s < LIMIT)%Z ->
  (0 <= windowCount (resetWindow now s) < LIMIT)%Z.
Proof.
  unfold resetWindow. destruct (60000 <=? now - windowStartMs s)%Z; simpl; lia.
Qed.

Lemma rateGuard_run (s : State) :
  let s1 := tick (resetWindow (clock W (ticks s)) s) in
  let s2 := tick (resetWindow (clock W (ticks s1)) s1) in
  rateGuard B W s =
  if (windowCount s1 <? LIMIT)%Z
  then (Ret tt, setWindow s2 (windowStartMs s2) (windowCount s2 + 1)%Z)
  else (Throw (rateLimitError B (secondsLeft (clock W (ticks s2)) (windowStartMs s2))),
        tick s2).
Proof.
  cbv zeta. unfold rateGuard, bind. rewrite canSpendStrivenCall_run. cbv zeta.
  destruct (windowCount _ <? LIMIT)%Z; cbn [negb]; cbv beta iota.
  - rewrite spendStrivenCall_run. reflexivity.
  - rewrite getRetryAfterSeconds_run. reflexivity.
Qed.

(** The guard when its readings of the clock all give [now]. *)
Lemma rateGuard_at (s : State) (now : Z) :
  clock W (ticks s) = now ->
  clock W (S (ticks s)) = now ->
  clock W (S (S (ticks s))) = now ->
  let s0 := resetWindow now s in
  rateGuard B W s =
  if (windowCount s0 <? LIMIT)%Z
  then (Ret tt, tick (tick (setWindow s0 (windowStartMs s0) (windowCount s0 + 1)%Z)))
  else (Throw (rateLimitError B (secondsLeft now (windowStartMs s0))),
        tick (tick (tick s0))).
Proof.
  intros H1 H2 H3. cbv zeta. rewrite rateGuard_run. cbv zeta.
  rewrite H1. cbn [ticks tick]. rewrite resetWindow_ticks, H2, resetWindow_again.
  cbn [ticks tick]. rewrite resetWindow_ticks, H3. reflexivity.
Qed.

Lemma resetWindow_tick (now : Z) (s : State) :
  resetWindow now (tick s) = tick (resetWindow now s).
Proof.
  unfold resetWindow. cbn [windowStartMs tick].
  destruct (60000 <=? now - windowStartMs s)%Z; reflexivity.
Qed.

(** The guard in terms of its three readings of the clock: the first for
    the reset check of [canSpendStrivenCall], the second for the reset check
    of [spendStrivenCall] or of [getRetryAfterSeconds], the third for the
    seconds to wait. *)
Lemma rateGuard_readings (s : State) :
  let s1 := resetWindow (clock W (ticks s)) s in
  let s2 := resetWindow (clock W (S (ticks s))) s1 in
  rateGuard B W s =
  if (windowCount s1 <? LIMIT)%Z
  then (Ret tt, tick (tick (setWindow s2 (windowStartMs s2) (windowCount s2 + 1)%Z)))
  else (Throw (rateLimitError B (secondsLeft (clock W (S (S (ticks s)))) (windowStartMs s2))),
        tick (tick (tick s2))).
Proof.
  cbv zeta. rewrite rateGuard_run. cbv zeta.
  cbn [ticks tick windowCount]. rewrite resetWindow_ticks, resetWindow_tick.
  cbn [ticks tick windowCount windowStartMs]. rewrite !resetWindow_ticks.
  reflexivity.
Qed.

(** Whatever the clock reads, the guard keeps the counter within bounds. *)
Lemma rateGuard_countInBounds (s : State) :
  (0 < LIMIT)%Z -> countInBounds W s -> countInBounds W (snd (rateGuard B W s)).
Proof.
  unfold countInBounds. intros HL Hs. rewrite rateGuard_run. cbv zeta.
  set (t1 := clock W (ticks s)).
  pose proof (resetWindow_count t1 s Hs) as H1.
  destruct (windowCount (tick (resetWindow t1 s)) <? LIMIT)%Z eqn:Hlt; simpl snd.
  - apply Z.ltb_lt in Hlt. cbn [windowCount tick] in Hlt.
    set (t2 := clock W _).
    assert (H2 : (0 <= windowCount (resetWindow t2 (tick (resetWindow t1 s))) < LIMIT)%Z).
    { apply resetWindow_count_lt; cbn [windowCount tick]; lia. }
    cbn [windowCount tick setWindow]. lia.
  - set (t2 := clock W _). cbn [windowCount tick].
    apply (resetWindow_count t2 (tick (resetWindow t1 s))). exact H1.
Qed.

End Guard.

(** ** What the functions leave of the state *)

Section Preservation.

Variable B : Builtins.
Variable W : World.
Variable P : State -> Prop.

Lemma preserves_ret {A : Type} (a : A) : preserves P (ret a).
Proof. intros s Hs. exact Hs. Qed.

Lemma preserves_throw {A : Type} (e : JsError) : preserves P (@throw A e).
Proof. intros s Hs. exact Hs. Qed.

Lemma preserves_get : preserves P get.
Proof. intros s Hs. exact Hs. Qed.

Lemma preserves_liftC {A : Type} (c : Completion A) : preserves P (liftC c).
Proof. intros s Hs. exact Hs. Qed.

Lemma preserves_modify (f : State -> State) :
  (forall s, P s -> P (f s)) -> preserves P (modify f).
Proof. intros Hf s Hs. apply Hf, Hs. Qed.

Lemma preserves_bind {A X : Type} (m : M A) (k : A -> M X) :
  preserves P m -> (forall a, preserves P (k a)) -> preserves P (bind m k).
Proof.
  intros Hm Hk s Hs. unfold bind. specialize (Hm s Hs).
  destruct (m s) as [[a | e] s']; simpl in *; [apply Hk, Hm | exact Hm].
Qed.

Lemma preserves_tryCatch {A : Type} (m : M A) (h : JsError -> M A) :
  preserves P m -> (forall e, preserves P (h e)) -> preserves P (tryCatch m h).
Proof.
  intros Hm Hh s Hs. unfold tryCatch. specialize (Hm s Hs).
  destruct (m s) as [[a | e] s']; simpl in *; [exact Hm | apply Hh, Hm].
Qed.

Lemma preserves_forOf {A R Acc : Type} (body : A -> Acc -> M (R + Acc)) (l : list A) :
  (forall a acc, preserves P (body a acc)) ->
  forall acc, preserves P (forOf body l acc).
Proof.
  intros Hbody. induction l as [|a l IH]; intros acc; simpl.
  - apply preserves_ret.
  - apply preserves_bind; [apply Hbody |].
    intros [r | acc']; [apply preserves_ret | apply IH].
Qed.

Hypothesis P_window : windowOnly P.

Lemma preserves_DateNow : preserves P (DateNow W).
Proof. intros s Hs. apply (P_window s); [reflexivity .. | exact Hs]. Qed.

Lemma preserves_fetch (r : Request) : preserves P (fetch W r).
Proof.
  intros s Hs. unfold fetch.
  destruct (network W _ r); apply (P_window s); (reflexivity || exact Hs).
Qed.

Lemma preserves_json (res : Response) : preserves P (json res).
Proof. unfold json. destruct (resJson res); [apply preserves_ret | apply preserves_throw]. Qed.

Lemma preserves_setCachedToken (tok : JsVal) :
  preserves P (modify (fun s => setCachedToken s tok)).
Proof. apply preserves_modify. intros s Hs. apply (P_window s); (reflexivity || exact Hs). Qed.

Lemma preserves_setTokenExpiresAt (t : JsNum) :
  preserves P (modify (fun s => setTokenExpiresAt s t)).
Proof. apply preserves_modify. intros s Hs. apply (P_window s); (reflexivity || exact Hs). Qed.

Lemma preserves_setCache (f : State -> gmap string CacheEntry) :
  preserves P (modify (fun s => setCache s (f s))).
Proof. apply preserves_modify. intros s Hs. apply (P_window s); (reflexivity || exact Hs). Qed.

Lemma preserves_getAccessToken : preserves P (getAccessToken B W).
Proof.
  unfold getAccessToken.
  apply preserves_bind; [apply preserves_DateNow | intros now].
  apply preserves_bind; [apply preserves_get | intros s].
  destruct (_ && _)%bool; [apply preserves_ret |].
  apply preserves_bind; [apply preserves_fetch | intros res].
  destruct (negb (resOk res)); [apply preserves_throw |].
  apply preserves_bind; [apply preserves_json | intros j].
  apply preserves_bind; [apply preserves_liftC | intros tok].
  apply preserves_bind; [apply preserves_setCachedToken | intros _].
  apply preserves_bind; [apply preserves_liftC | intros ex].
  apply preserves_bind; [apply preserves_DateNow | intros now'].
  apply preserves_bind; [apply preserves_setTokenExpiresAt | intros _].
  apply preserves_ret.
Qed.

Lemma preserves_strivenCall (path meth : string) :
  preserves P (strivenCall B W path meth).
Proof.
  unfold strivenCall.
  apply preserves_bind; [apply preserves_getAccessToken | intros token].
  apply preserves_bind; [apply preserves_fetch | intros res].
  destruct (negb (resOk res)); [apply preserves_throw | apply preserves_json].
Qed.

Lemma preserves_cacheGetItem (id : JsVal) : preserves P (cacheGetItem B W id).
Proof.
  unfold cacheGetItem.
  apply preserves_bind; [apply preserves_get | intros s].
  destruct (itemByIdCache s !! ToString B id) as [hit |]; [| apply preserves_ret].
  apply preserves_bind; [apply preserves_DateNow | intros now].
  destruct (ITEM_CACHE_TTL_MS <? now - ts hit)%Z; [| apply preserves_ret].
  apply preserves_bind; [| intros _; apply preserves_ret].
  apply (preserves_setCache (fun s => delete (ToString B id) (itemByIdCache s))).
Qed.

Lemma preserves_cacheSetItem (id v : JsVal) : preserves P (cacheSetItem B W id v).
Proof.
  unfold cacheSetItem.
  apply preserves_bind; [apply preserves_DateNow | intros now].
  apply (preserves_setCache
           (fun s => <[ToString B id := {| ts := now; value := v |}]> (itemByIdCache s))).
Qed.

End Preservation.

Section GuardInvariant.

Variable B : Builtins.
Variable W : World.

Local Abbreviation LIMIT := (STRIVEN_MAX_CALLS_PER_MIN W).

Hypothesis LIMIT_pos : (0 < LIMIT)%Z.

Lemma windowOnly_countInBounds : windowOnly (countInBounds W).
Proof. intros s s' Hstart Hcount. unfold countInBounds. rewrite Hcount. trivial. Qed.

Lemma preserves_rateGuard : preserves (countInBounds W) (rateGuard B W).
Proof. intros s Hs. apply rateGuard_countInBounds; assumption. Qed.

Lemma preserves_getRetryAfterSeconds :
  preserves (countInBounds W) (getRetryAfterSeconds W).
Proof.
  intros s Hs. rewrite getRetryAfterSeconds_run. cbv zeta. unfold countInBounds.
  cbn [snd windowCount tick]. apply resetWindow_count. exact Hs.
Qed.

Lemma preserves_strivenFetch (path meth : string) :
  preserves (countInBounds W) (strivenFetch B W path meth).
Proof.
  apply preserves_bind; [apply preserves_rateGuard | intros _].
  apply preserves_strivenCall, windowOnly_countInBounds.
Qed.

Lemma preserves_fetchItemByIdCached (id : JsVal) :
  preserves (countInBounds W) (fetchItemByIdCached B W id).
Proof.
  apply preserves_bind; [apply preserves_cacheGetItem, windowOnly_countInBounds |].
  intros cached. destruct (truthy cached); [apply preserves_ret |].
  apply preserves_bind; [apply preserves_strivenFetch | intros item].
  apply preserves_bind; [| intros _; apply preserves_ret].
  apply preserves_cacheSetItem, windowOnly_countInBounds.
Qed.

Lemma preserves_fetchLine (id : JsVal) (errorLine : string -> Line) (results : list Line) :
  preserves (countInBounds W) (fetchLine B W id errorLine results).
Proof.
  apply preserves_tryCatch.
  - apply preserves_bind; [apply preserves_fetchItemByIdCached |].
    intros item. apply preserves_ret.
  - intros err. destruct (num_eqb _ _); [| apply preserves_ret].
    apply preserves_bind; [| intros ra; apply preserves_ret].
    unfold retryAfterOf. destruct (truthy _); [apply preserves_ret |].
    apply preserves_bind; [apply preserves_getRetryAfterSeconds |].
    intros secs. apply preserves_ret.
Qed.

Lemma preserves_resolveByNumber_line (n : JsVal) (results : list Line) :
  preserves (countInBounds W) (resolveByNumber_line B W n results).
Proof.
  unfold resolveByNumber_line. cbv zeta.
  destruct (negb (truthy _)); [apply preserves_ret |].
  apply preserves_bind; [apply preserves_fetchLine |].
  intros [item | reply | results']; try apply preserves_ret.
  apply preserves_bind; [apply preserves_liftC | intros r; apply preserves_ret].
Qed.

Lemma preserves_resolveLines_line (line : JsVal) (results : list Line) :
  preserves (countInBounds W) (resolveLines_line B W line results).
Proof.
  unfold resolveLines_line.
  apply preserves_bind; [apply preserves_liftC | intros lineId].
  apply preserves_bind; [apply preserves_liftC | intros id].
  destruct (negb (isFinite _)); [apply preserves_ret |].
  apply preserves_bind; [apply preserves_fetchLine |].
  intros [item | reply | results']; try apply preserves_ret.
  apply preserves_bind; [apply preserves_liftC | intros r; apply preserves_ret].
Qed.

Lemma preserves_catchAll (P : State -> Prop) (e : JsError) : preserves P (catchAll B e).
Proof. apply preserves_ret. Qed.

Lemma preserves_finish (P : State -> Prop) (r : Reply + list Line) : preserves P (finish r).
Proof. destruct r; apply preserves_ret. Qed.

Lemma preserves_getItem (id : string) : preserves (countInBounds W) (getItem B W id).
Proof.
  apply preserves_tryCatch; [| apply preserves_catchAll].
  apply preserves_bind; [apply preserves_fetchItemByIdCached |].
  intros item. apply preserves_ret.
Qed.

Lemma preserves_resolveByNumber (body : JsVal) :
  preserves (countInBounds W) (resolveByNumber B W body).
Proof.
  apply preserves_tryCatch; [| apply preserves_catchAll]. cbv zeta.
  destruct (_ =? _)%nat; [apply preserves_ret |].
  apply preserves_bind; [| apply preserves_finish].
  apply preserves_forOf. apply preserves_resolveByNumber_line.
Qed.

Lemma preserves_resolveLines (body : JsVal) :
  preserves (countInBounds W) (resolveLines B W body).
Proof.
  apply preserves_tryCatch; [| apply preserves_catchAll]. cbv zeta.
  destruct (_ =? _)%nat; [apply preserves_ret |].
  apply preserves_bind; [| apply preserves_finish].
  apply preserves_forOf. apply preserves_resolveLines_line.
Qed.

(** Between two requests the counter never exceeds the limit. *)
Lemma reachable_countInBounds (s : State) :
  reachable B W s -> countInBounds W s.
Proof.
  induction 1 as [| s id _ IH | s body _ IH | s body _ IH].
  - unfold countInBounds. simpl. lia.
  - apply preserves_getItem, IH.
  - apply preserves_resolveByNumber, IH.
  - apply preserves_resolveLines, IH.
Qed.

End GuardInvariant.

Section GuardSequences.

Variable B : Builtins.
Variable W : World.

Local Abbreviation LIMIT := (STRIVEN_MAX_CALLS_PER_MIN W).

(** A call inside the window, below the limit: counted. *)
Lemma rateGuard_within (s : State) :
  (windowCount s < LIMIT)%Z ->
  (clock W (ticks s) - windowStartMs s < 60000)%Z ->
  (clock W (S (ticks s)) - windowStartMs s < 60000)%Z ->
  rateGuard B W s =
  (Ret tt, tick (tick (setWindow s (windowStartMs s) (windowCount s + 1)%Z))).
Proof.
  intros Hc H1 H2. rewrite rateGuard_run. cbv zeta.
  rewrite (resetWindow_within _ s H1). cbn [ticks tick windowCount].
  rewrite (resetWindow_within _ (tick s)) by exact H2.
  apply Z.ltb_lt in Hc. rewrite Hc. reflexivity.
Qed.

(** A call inside the window, at the limit: refused, the window as it was. *)
Lemma rateGuard_full (s : State) :
  (LIMIT <= windowCount s)%Z ->
  (clock W (ticks s) - windowStartMs s < 60000)%Z ->
  (clock W (S (ticks s)) - windowStartMs s < 60000)%Z ->
  rateGuard B W s =
  (Throw (rateLimitError B (secondsLeft (clock W (S (S (ticks s)))) (windowStartMs s))),
   tick (tick (tick s))).
Proof.
  intros Hc H1 H2. rewrite rateGuard_run. cbv zeta.
  rewrite (resetWindow_within _ s H1). cbn [ticks tick windowCount].
  rewrite (resetWindow_within _ (tick s)) by exact H2.
  apply Z.ltb_ge in Hc. rewrite Hc. reflexivity.
Qed.

(** The first call after the window has elapsed: a new window, one call in it. *)
Lemma rateGuard_elapsed (s : State) (t : Z) :
  (0 < LIMIT)%Z ->
  clock W (ticks s) = t ->
  (60000 <= t - windowStartMs s)%Z ->
  (clock W (S (ticks s)) - t < 60000)%Z ->
  rateGuard B W s = (Ret tt, tick (tick (setWindow s t 1))).
Proof.
  intros HL Ht H1 H2. rewrite rateGuard_run. cbv zeta. rewrite Ht.
  rewrite (resetWindow_elapsed _ s H1). cbn [ticks tick windowCount setWindow].
  rewrite (resetWindow_within _ (tick (setWindow s t 0))) by exact H2.
  apply Z.ltb_lt in HL. rewrite HL. reflexivity.
Qed.

Lemma rateGuardTimes_within (n : nat) :
  forall s,
    (windowCount s + Z.of_nat n <= LIMIT)%Z ->
    (forall k, (ticks s <= k < ticks s + 2 * n)%nat ->
               (clock W k - windowStartMs s < 60000)%Z) ->
    exists s', rateGuardTimes B W n s = (Ret tt, s') /\
               windowStartMs s' = windowStartMs s /\
               windowCount s' = (windowCount s + Z.of_nat n)%Z /\
               ticks s' = (ticks s + 2 * n)%nat.
Proof.
  induction n as [|n IH]; intros s Hc Hk.
  - exists s. simpl. repeat split; lia.
  - cbn [rateGuardTimes]. unfold bind.
    rewrite rateGuard_within; [| lia | apply Hk; lia | apply Hk; lia].
    set (s1 := tick (tick (setWindow s (windowStartMs s) (windowCount s + 1)%Z))).
    destruct (IH s1) as (s' & Hrun & Hstart & Hcount & Hticks).
    + subst s1. cbn [windowCount tick setWindow]. lia.
    + intros k Hrange. subst s1. cbn [windowStartMs ticks tick setWindow] in *.
      apply Hk. lia.
    + exists s'. rewrite Hrun, Hstart, Hcount, Hticks. subst s1.
      cbn [windowStartMs windowCount ticks tick setWindow]. repeat split; lia.
Qed.

End GuardSequences.

(** C4, as the code has it: the guard of a call ([canSpendStrivenCall],
    then [spendStrivenCall] or the refusal with [getRetryAfterSeconds]),
    with a limit above 0.  The guard reads the clock for a reset check: the
    window is reset to start at the reading with a count of 0 if the reading
    minus [windowStartMs] is 60000 or more, and left as it is otherwise.
    The call passes if the count is then below the limit and is refused
    otherwise.  Either way the clock is read again for a second reset check,
    by [spendStrivenCall] or by [getRetryAfterSeconds]: when the window has
    not elapsed at that reading, a call that passes is counted by exactly 1
    and a refusal leaves the count and the start of the window unchanged;
    when it has, the window restarts at the second reading and holds the
    count 1 after a call that passes and the count 0 after a refusal.  The
    refusal tells at least one second to wait.  The count stays between 0
    and the limit in every state the server reaches.  From an empty window,
    [limit] calls in the window pass and the next is refused; the first call
    after the window has elapsed passes, and the new window has counted that
    call only. *)
Theorem rateGuard_admission (B : Builtins) (W : World) :
  (0 < STRIVEN_MAX_CALLS_PER_MIN W)%Z ->
  (forall s,
      let s1 := resetWindow (clock W (ticks s)) s in
      let s2 := resetWindow (clock W (S (ticks s))) s1 in
      (forall now s0,
          ((60000 <= now - windowStartMs s0)%Z ->
           windowStartMs (resetWindow now s0) = now /\
           windowCount (resetWindow now s0) = 0%Z) /\
          ((now - windowStartMs s0 < 60000)%Z ->
           windowStartMs (resetWindow now s0) = windowStartMs s0 /\
           windowCount (resetWindow now s0) = windowCount s0)) /\
      ((windowCount s1 < STRIVEN_MAX_CALLS_PER_MIN W)%Z ->
       exists s', rateGuard B W s = (Ret tt, s') /\
                  windowStartMs s' = windowStartMs s2 /\
                  windowCount s' = (windowCount s2 + 1)%Z) /\
      ((STRIVEN_MAX_CALLS_PER_MIN W <= windowCount s1)%Z ->
       exists ra s', rateGuard B W s = (Throw (rateLimitError B ra), s') /\
                     (1 <= ra)%Z /\
                     windowStartMs s' = windowStartMs s2 /\
                     windowCount s' = windowCount s2) /\
      ((clock W (S (ticks s)) - windowStartMs s1 < 60000)%Z ->
       ((windowCount s1 < STRIVEN_MAX_CALLS_PER_MIN W)%Z ->
        exists s', rateGuard B W s = (Ret tt, s') /\
                   windowStartMs s' = windowStartMs s1 /\
                   windowCount s' = (windowCount s1 + 1)%Z) /\
       ((STRIVEN_MAX_CALLS_PER_MIN W <= windowCount s1)%Z ->
        exists ra s', rateGuard B W s = (Throw (rateLimitError B ra), s') /\
                      (1 <= ra)%Z /\
                      windowStartMs s' = windowStartMs s1 /\
                      windowCount s' = windowCount s1))) /\
  (forall s, reachable B W s ->
             (0 <= windowCount s <= STRIVEN_MAX_CALLS_PER_MIN W)%Z) /\
  (forall s,
      windowCount s = 0%Z ->
      (forall k, (ticks s <= k < ticks s + 2 * Z.to_nat (STRIVEN_MAX_CALLS_PER_MIN W) + 2)%nat ->
                 (clock W k - windowStartMs s < 60000)%Z) ->
      exists s1,
        rateGuardTimes B W (Z.to_nat (STRIVEN_MAX_CALLS_PER_MIN W)) s = (Ret tt, s1) /\
        windowCount s1 = STRIVEN_MAX_CALLS_PER_MIN W /\
        exists ra s2,
          rateGuard B W s1 = (Throw (rateLimitError B ra), s2) /\
          windowCount s2 = STRIVEN_MAX_CALLS_PER_MIN W /\
          windowStartMs s2 = windowStartMs s) /\
  (forall s t,
      clock W (ticks s) = t ->
      (60000 <= t - windowStartMs s)%Z ->
      (clock W (S (ticks s)) - t < 60000)%Z ->
      exists s', rateGuard B W s = (Ret tt, s') /\
                 windowStartMs s' = t /\ windowCount s' = 1%Z).
Proof.
  intros HL. split; [| split; [| split]].
  - intros s s1 s2.
    pose proof (rateGuard_readings B W s) as Hrun. cbv zeta in Hrun.
    fold s1 in Hrun. fold s2 in Hrun.
    assert (Hpass : (windowCount s1 < STRIVEN_MAX_CALLS_PER_MIN W)%Z ->
              exists s', rateGuard B W s = (Ret tt, s') /\
                         windowStartMs s' = windowStartMs s2 /\
                         windowCount s' = (windowCount s2 + 1)%Z).
    { intros Hc. apply Z.ltb_lt in Hc. rewrite Hc in Hrun.
      eexists. split; [exact Hrun |]. split; reflexivity. }
    assert (Hrefuse : (STRIVEN_MAX_CALLS_PER_MIN W <= windowCount s1)%Z ->
              exists ra s', rateGuard B W s = (Throw (rateLimitError B ra), s') /\
                            (1 <= ra)%Z /\
                            windowStartMs s' = windowStartMs s2 /\
                            windowCount s' = windowCount s2).
    { intros Hc. apply Z.ltb_ge in Hc. rewrite Hc in Hrun.
      do 2 eexists. split; [exact Hrun |].
      split; [apply secondsLeft_pos |]. split; reflexivity. }
    split; [| split; [exact Hpass | split; [exact Hrefuse |]]].
    + intros now s0. split.
      * intros He. rewrite resetWindow_elapsed by exact He. split; reflexivity.
      * intros Hw. rewrite resetWindow_within by exact Hw. split; reflexivity.
    + intros Hw.
      assert (H2 : s2 = s1) by (unfold s2; apply resetWindow_within, Hw).
      rewrite H2 in Hpass, Hrefuse. split; assumption.
  - intros s Hs. apply (reachable_countInBounds B W HL s Hs).
  - intros s H0 Hk.
    destruct (rateGuardTimes_within B W (Z.to_nat (STRIVEN_MAX_CALLS_PER_MIN W)) s)
      as (s1 & Hrun & Hstart & Hcount & Hticks).
    + rewrite H0. lia.
    + intros k Hrange. apply Hk. lia.
    + assert (Hc : windowCount s1 = STRIVEN_MAX_CALLS_PER_MIN W) by lia.
      exists s1. split; [exact Hrun |]. split; [exact Hc |].
      do 2 eexists. split; [apply rateGuard_full |].
      * lia.
      * rewrite Hstart. apply Hk. lia.
      * rewrite Hstart. apply Hk. lia.
      * cbn [windowCount windowStartMs tick]. split; assumption.
  - intros s t Ht He Hw.
    eexists. split; [apply (rateGuard_elapsed B W s t HL Ht He Hw) |].
    split; reflexivity.
Qed.

Lemma rateGuard_admission_witness :
  let W := sampleWorld (fun _ => 5000%Z) (networkServing sampleItem) 2 in
  exists s1 ra s2,
    rateGuardTimes sampleBuiltins W 2 (initialState W) = (Ret tt, s1) /\
    windowCount s1 = 2%Z /\
    rateGuard sampleBuiltins W s1 = (Throw (rateLimitError sampleBuiltins ra), s2) /\
    windowCount s2 = 2%Z.
Proof.
  intros W.
  destruct (rateGuard_admission sampleBuiltins W) as (_ & _ & Hseq & _); [reflexivity |].
  destruct (Hseq (initialState W)) as (s1 & Hrun & Hc & ra & s2 & Hdeny & Hc2 & _).
  - reflexivity.
  - intros k _. reflexivity.
  - exists s1, ra, s2. repeat split; assumption.
Defined.

(** C4 fails as stated when the window elapses between two readings of the
    clock by the guard.  With a limit of 2, a window that started at 0 and
    has counted 2 calls: the guard reads 59999, keeps the window and
    refuses; [getRetryAfterSeconds] then reads 60000 and resets the window.
    The refusal has left neither the count nor the start of the window as
    they were. *)
Lemma rateGuard_refusal_resets :
  let W := sampleWorld boundaryClock (networkServing sampleItem) 2 in
  let s := stateWith 0 2 VNull (Fin 0) ∅ in
  let s1 := resetWindow (clock W (ticks s)) s in
  windowStartMs s1 = 0%Z /\ windowCount s1 = 2%Z /\
  exists s',
    rateGuard sampleBuiltins W s = (Throw (rateLimitError sampleBuiltins 60), s') /\
    windowStartMs s' = 60000%Z /\ windowCount s' = 0%Z /\
    windowStartMs s' <> windowStartMs s1 /\ windowCount s' <> windowCount s1.
Proof.
  intros W s s1. split; [reflexivity |]. split; [reflexivity |].
  exists (snd (rateGuard sampleBuiltins W s)).
  split; [reflexivity |]. split; [reflexivity |]. split; [reflexivity |].
  split; discriminate.
Qed.

(** ** The token cache *)

Section Token.

Variable B : Builtins.
Variable W : World.

Lemma getAccessToken_fresh (s : State) :
  tokenFresh s (clock W (ticks s)) = true ->
  getAccessToken B W s = (Ret (cachedToken s), tick s).
Proof.
  intros H. unfold getAccessToken, bind, DateNow, get. cbn [ticks tick cachedToken tokenExpiresAt].
  unfold tokenFresh in H. rewrite H. reflexivity.
Qed.

Lemma getAccessToken_exchange (s : State) :
  tokenFresh s (clock W (ticks s)) = false ->
  getAccessToken B W s =
  (res <- fetch W (tokenRequest B W) ;;
   if negb (resOk res) then
     throw (mkError ("Token request failed (" +:+ NumberToString B (ofZ (resStatus res))
                       +:+ "): " +:+ resText res) VUndef VUndef)
   else
     j <- json res ;;
     tok <- liftC (getProp j "access_token") ;;
     modify (fun s => setCachedToken s tok) ;;
     ex <- liftC (getProp j "expires_in") ;;
     now' <- DateNow W ;;
     modify (fun s => setTokenExpiresAt s
               (num_sub (num_add (ofZ now')
                           (num_mul (match js_or (VNum (Number B ex)) (VNum (Fin 86400)) with
                                     | VNum n => n
                                     | _ => NaN
                                     end) (Fin 1000)))
                        (Fin 60000))) ;;
     ret tok) (tick s).
Proof.
  intros H. unfold getAccessToken at 1. unfold bind at 1 2, DateNow at 1, get.
  cbn [ticks tick cachedToken tokenExpiresAt].
  unfold tokenFresh in H. rewrite H. reflexivity.
Qed.

(** The exchange is attempted: the request is sent, whatever comes back. *)
Lemma getAccessToken_exchange_sent (s : State) :
  tokenFresh s (clock W (ticks s)) = false ->
  sent (snd (getAccessToken B W s)) = tokenRequest B W :: sent s.
Proof.
  intros H. rewrite (getAccessToken_exchange s H).
  unfold bind at 1, fetch. cbn [sent tick].
  destruct (network W _ _) as [reason | res]; [reflexivity |].
  destruct (negb (resOk res)); [reflexivity |].
  unfold bind at 1, json. destruct (resJson res) as [j |]; [| reflexivity].
  unfold ret at 1. unfold bind at 1, liftC at 1.
  destruct (getProp j "access_token") as [tok | e]; [| reflexivity].
  unfold bind at 1, modify at 1. unfold bind at 1, liftC.
  destruct (getProp j "expires_in") as [ex | e]; reflexivity.
Qed.

Lemma getAccessToken_exchange_ok (s : State) (res : Response) (j tok : JsVal) :
  tokenFresh s (clock W (ticks s)) = false ->
  network W (length (sent s)) (tokenRequest B W) = Responded res ->
  resOk res = true ->
  resJson res = Some j ->
  getProp j "access_token" = Ret tok ->
  getAccessToken B W s =
  (Ret tok,
   tick (setTokenExpiresAt
           (setCachedToken (logRequest (tick s) (tokenRequest B W)) tok)
           (num_sub (num_add (ofZ (clock W (S (ticks s))))
                             (num_mul (lifetimeOf B j) (Fin 1000)))
                    (Fin 60000)))).
Proof.
  intros H Hnet Hok Hj Htok. rewrite (getAccessToken_exchange s H).
  unfold bind at 1, fetch. cbn [sent tick]. rewrite Hnet, Hok. cbn [negb].
  unfold bind at 1, json. rewrite Hj. unfold ret at 1.
  unfold bind at 1, liftC at 1. rewrite Htok.
  unfold bind at 1, modify at 1. unfold bind at 1, liftC.
  assert (Hnn : nullish j = false) by (destruct j; try discriminate; reflexivity).
  rewrite (getProp_not_nullish j "expires_in" Hnn).
  reflexivity.
Qed.

Lemma lifetimeOf_absent (j : JsVal) :
  getPropOpt j "expires_in" = VUndef -> lifetimeOf B j = Fin 86400.
Proof. unfold lifetimeOf. intros ->. reflexivity. Qed.

End Token.

Lemma cons_neq_self {A : Type} (a : A) (l : list A) : a :: l <> l.
Proof. intros H. apply (f_equal (@length A)) in H. simpl in H. lia. Qed.

(** C7, as the code has it, times in milliseconds: [getAccessToken] returns
    the cached token without a network call if and only if the token is
    truthy and the clock reads less than the stored [tokenExpiresAt], from
    which the buffer of 60000 was subtracted when it was stored and is not
    subtracted again.  Otherwise the exchange request is sent; when it is
    answered with an ok status and a JSON body that has an [access_token],
    that token is stored and returned, and [tokenExpiresAt] becomes the
    reading of the clock after the exchange plus 1000 times the lifetime
    minus 60000, the lifetime being 86400 when the answer carries none. *)
Theorem getAccessToken_reuse (B : Builtins) (W : World) (s : State) :
  let now := clock W (ticks s) in
  let now' := clock W (S (ticks s)) in
  (tokenFresh s now = true <-> sent (snd (getAccessToken B W s)) = sent s) /\
  (tokenFresh s now = true ->
   getAccessToken B W s = (Ret (cachedToken s), tick s)) /\
  (tokenFresh s now = false ->
   sent (snd (getAccessToken B W s)) = tokenRequest B W :: sent s /\
   forall res j tok,
     network W (length (sent s)) (tokenRequest B W) = Responded res ->
     resOk res = true ->
     resJson res = Some j ->
     getProp j "access_token" = Ret tok ->
     exists s',
       getAccessToken B W s = (Ret tok, s') /\
       cachedToken s' = tok /\
       tokenExpiresAt s' =
         num_sub (num_add (ofZ now') (num_mul (lifetimeOf B j) (Fin 1000))) (Fin 60000) /\
       (getPropOpt j "expires_in" = VUndef ->
        tokenExpiresAt s' = Fin (inject_Z now' + 86400 * 1000 - 60000))).
Proof.
  intros now now'. split; [| split].
  - split.
    + intros H. rewrite (getAccessToken_fresh B W s H). reflexivity.
    + intros H. destruct (tokenFresh s now) eqn:Hf; [reflexivity |].
      rewrite (getAccessToken_exchange_sent B W s Hf) in H.
      exfalso. exact (cons_neq_self _ _ H).
  - apply getAccessToken_fresh.
  - intros Hf. split; [apply getAccessToken_exchange_sent, Hf |].
    intros res j tok Hnet Hok Hj Htok.
    eexists. split; [apply (getAccessToken_exchange_ok B W s res j tok); assumption |].
    split; [reflexivity |]. split; [reflexivity |].
    intros Habs. cbn [tokenExpiresAt tick setTokenExpiresAt].
    rewrite (lifetimeOf_absent B j Habs). reflexivity.
Qed.

Lemma getAccessToken_reuse_witness :
  let W := sampleWorld secondsClock (networkServing sampleItem) 90 in
  exists s',
    getAccessToken sampleBuiltins W (initialState W) = (Ret (VStr "tok"), s') /\
    cachedToken s' = VStr "tok" /\
    tokenExpiresAt s' = Fin (inject_Z 2000 + 3600 * 1000 - 60000).
Proof.
  intros W.
  destruct (getAccessToken_reuse sampleBuiltins W (initialState W)) as (_ & _ & Hex).
  destruct Hex as [_ Hex]; [reflexivity |].
  destruct (Hex tokenResponse _ (VStr "tok") eq_refl eq_refl eq_refl eq_refl)
    as (s' & Hrun & Htok & Hexp & _).
  exists s'. repeat split; assumption.
Defined.

(** C7 fails as stated.  A token with a lifetime of 3600 seconds is
    obtained at time 0 and stored with [tokenExpiresAt] 3540000.  At
    3500000 it is returned without a network call, although 3500000 is not
    before the stored value minus the buffer of 60000. *)
Lemma getAccessToken_buffer_once :
  let W := sampleWorld lateClock (networkServing sampleItem) 90 in
  let s1 := snd (getAccessToken sampleBuiltins W (initialState W)) in
  tokenExpiresAt s1 = Fin (inject_Z 0 + 3600 * 1000 - 60000) /\
  clock W (ticks s1) = 3500000%Z /\
  getAccessToken sampleBuiltins W s1 = (Ret (VStr "tok"), tick s1) /\
  sent (tick s1) = sent s1 /\
  num_lt (ofZ 3500000) (num_sub (tokenExpiresAt s1) (Fin 60000)) = false.
Proof. repeat split; reflexivity. Qed.

(** ** The item cache *)

Lemma bind_assoc {A X Y : Type} (m : M A) (k : A -> M X) (h : X -> M Y) (s : State) :
  bind (bind m k) h s = bind m (fun a => bind (k a) h) s.
Proof. unfold bind. destruct (m s) as [[a | e] s']; reflexivity. Qed.

Section Cache.

Variable B : Builtins.
Variable W : World.

Lemma cacheSetItem_run (id v : JsVal) (s : State) :
  cacheSetItem B W id v s =
  (Ret tt,
   setCache (tick s)
     (<[ToString B id := {| ts := clock W (ticks s); value := v |}]> (itemByIdCache s))).
Proof. reflexivity. Qed.

Lemma cacheGetItem_absent (id : JsVal) (s : State) :
  itemByIdCache s !! ToString B id = None ->
  cacheGetItem B W id s = (Ret VNull, s).
Proof.
  intros H. unfold cacheGetItem, bind, get. rewrite H. reflexivity.
Qed.

Lemma cacheGetItem_live (id : JsVal) (s : State) (hit : CacheEntry) :
  itemByIdCache s !! ToString B id = Some hit ->
  (clock W (ticks s) - ts hit <= ITEM_CACHE_TTL_MS)%Z ->
  cacheGetItem B W id s = (Ret (value hit), tick s).
Proof.
  intros H Ht. unfold cacheGetItem, bind, get, DateNow. rewrite H.
  apply Z.ltb_ge in Ht. rewrite Ht. reflexivity.
Qed.

Lemma cacheGetItem_expired (id : JsVal) (s : State) (hit : CacheEntry) :
  itemByIdCache s !! ToString B id = Some hit ->
  (ITEM_CACHE_TTL_MS < clock W (ticks s) - ts hit)%Z ->
  cacheGetItem B W id s =
  (Ret VNull, setCache (tick s) (delete (ToString B id) (itemByIdCache s))).
Proof.
  intros H Ht. unfold cacheGetItem, bind, get, DateNow. rewrite H.
  apply Z.ltb_lt in Ht. rewrite Ht. reflexivity.
Qed.

(** [fetchItemByIdCached] after its lookup in the cache. *)
Lemma fetchItemByIdCached_after (id cached : JsVal) (s s1 : State) :
  cacheGetItem B W id s = (Ret cached, s1) ->
  fetchItemByIdCached B W id s =
  if truthy cached then (Ret cached, s1) else fetchAndStore B W id s1.
Proof.
  intros H. unfold fetchItemByIdCached, bind. rewrite H.
  destruct (truthy cached); reflexivity.
Qed.

(** The lookup never throws. *)
Lemma cacheGetItem_returns (id : JsVal) (s : State) :
  exists cached s1, cacheGetItem B W id s = (Ret cached, s1).
Proof.
  destruct (itemByIdCache s !! ToString B id) as [hit |] eqn:H.
  - destruct (Z_lt_le_dec ITEM_CACHE_TTL_MS (clock W (ticks s) - ts hit)) as [Hlt | Hle].
    + do 2 eexists. apply (cacheGetItem_expired id s hit H Hlt).
    + do 2 eexists. apply (cacheGetItem_live id s hit H Hle).
  - do 2 eexists. apply (cacheGetItem_absent id s H).
Qed.

(** The path after a miss: the guard, then the call and the store. *)
Lemma fetchAndStore_guard (id : JsVal) (s : State) :
  fetchAndStore B W id s =
  match rateGuard B W s with
  | (Throw e, s') => (Throw e, s')
  | (Ret _, s') =>
      (item <- strivenCall B W ("/v1/items/" +:+ ToString B id) "GET" ;;
       cacheSetItem B W id item ;;
       ret item) s'
  end.
Proof.
  unfold fetchAndStore, strivenFetch. rewrite bind_assoc. unfold bind at 1.
  destruct (rateGuard B W s) as [[[] | e] s']; reflexivity.
Qed.

End Cache.

Section CacheProperties.

Variable B : Builtins.
Variable W : World.

Lemma resetWindow_sent (now : Z) (s : State) : sent (resetWindow now s) = sent s.
Proof. unfold resetWindow. destruct (60000 <=? now - windowStartMs s)%Z; reflexivity. Qed.

(** The guard sends nothing. *)
Lemma rateGuard_sent (s : State) : sent (snd (rateGuard B W s)) = sent s.
Proof.
  rewrite rateGuard_run. cbv zeta.
  destruct (windowCount _ <? _)%Z; cbn [snd sent tick setWindow];
    rewrite !resetWindow_sent; cbn [sent tick]; rewrite ?resetWindow_sent; reflexivity.
Qed.

(** The guard leaves the cache alone. *)
Lemma resetWindow_cache (now : Z) (s : State) :
  itemByIdCache (resetWindow now s) = itemByIdCache s.
Proof. unfold resetWindow. destruct (60000 <=? now - windowStartMs s)%Z; reflexivity. Qed.

Lemma rateGuard_cache (s : State) :
  itemByIdCache (snd (rateGuard B W s)) = itemByIdCache s.
Proof.
  rewrite rateGuard_run. cbv zeta.
  destruct (windowCount _ <? _)%Z; cbn [snd itemByIdCache tick setWindow];
    rewrite !resetWindow_cache; cbn [itemByIdCache tick]; rewrite ?resetWindow_cache;
    reflexivity.
Qed.

(** The lookup in the cache leaves the window and the network alone. *)
Lemma cacheGetItem_frame (id : JsVal) (s : State) :
  let s1 := snd (cacheGetItem B W id s) in
  sameWindow s s1 /\ sent s1 = sent s.
Proof.
  cbv zeta. unfold sameWindow.
  destruct (itemByIdCache s !! ToString B id) as [hit |] eqn:H.
  - destruct (Z_lt_le_dec ITEM_CACHE_TTL_MS (clock W (ticks s) - ts hit)) as [Hlt | Hle].
    + rewrite (cacheGetItem_expired B W id s hit H Hlt). repeat split.
    + rewrite (cacheGetItem_live B W id s hit H Hle). repeat split.
  - rewrite (cacheGetItem_absent B W id s H). repeat split.
Qed.

Lemma windowOnly_sameWindow (s0 : State) : windowOnly (sameWindow s0).
Proof. intros s s' Hstart Hcount [H1 H2]. split; congruence. Qed.

(** Once the guard has counted the call, nothing else touches the window. *)
Lemma afterGuard_sameWindow (id : JsVal) (s : State) :
  sameWindow s
    (snd ((item <- strivenCall B W ("/v1/items/" +:+ ToString B id) "GET" ;;
           cacheSetItem B W id item ;;
           ret item) s)).
Proof.
  assert (Hp : preserves (sameWindow s)
                 (item <- strivenCall B W ("/v1/items/" +:+ ToString B id) "GET" ;;
                  cacheSetItem B W id item ;;
                  ret item)).
  { apply preserves_bind; [apply preserves_strivenCall, windowOnly_sameWindow |].
    intros item. apply preserves_bind; [| intros _; apply preserves_ret].
    apply preserves_cacheSetItem, windowOnly_sameWindow. }
  apply Hp. split; reflexivity.
Qed.

End CacheProperties.

(** The request [strivenFetch] sends for the item [id] with the token [tok]. *)
Lemma strivenCall_fresh_sent (B : Builtins) (W : World) (path meth : string) (s : State) :
  tokenFresh s (clock W (ticks s)) = true ->
  sent (snd (strivenCall B W path meth s)) =
  {| url := STRIVEN_BASE +:+ path; method := meth;
     authorization := "Bearer " +:+ ToString B (cachedToken s) |} :: sent s.
Proof.
  intros Hf. unfold strivenCall. unfold bind at 1.
  rewrite (getAccessToken_fresh B W s Hf). unfold bind, fetch. cbn [sent tick].
  destruct (network W _ _) as [reason | res]; [reflexivity |].
  destruct (negb (resOk res)); [reflexivity |].
  unfold json. destruct (resJson res); reflexivity.
Qed.

Lemma cacheSetItem_after_sent (B : Builtins) (W : World) (id : JsVal)
    (m : M JsVal) (s : State) :
  sent (snd ((item <- m ;; cacheSetItem B W id item ;; ret item) s)) = sent (snd (m s)).
Proof.
  unfold bind. destruct (m s) as [[item | e] s']; reflexivity.
Qed.

(** The call with a fresh token and an answer that is ok and JSON. *)
Lemma strivenCall_fresh_ok (B : Builtins) (W : World) (path meth : string) (s : State)
    (res : Response) (item : JsVal) :
  let req := {| url := STRIVEN_BASE +:+ path; method := meth;
                authorization := "Bearer " +:+ ToString B (cachedToken s) |} in
  tokenFresh s (clock W (ticks s)) = true ->
  network W (length (sent s)) req = Responded res ->
  resOk res = true ->
  resJson res = Some item ->
  strivenCall B W path meth s = (Ret item, logRequest (tick s) req).
Proof.
  intros req Hf Hnet Hok Hj. unfold strivenCall. unfold bind at 1.
  rewrite (getAccessToken_fresh B W s Hf). unfold bind, fetch. cbn [sent tick].
  fold req. rewrite Hnet, Hok. cbn [negb]. unfold json. rewrite Hj. reflexivity.
Qed.

(** When the token is not fresh the call starts with the exchange; at most
    one request follows it. *)
Lemma strivenCall_stale_sent (B : Builtins) (W : World) (path meth : string) (s : State) :
  tokenFresh s (clock W (ticks s)) = false ->
  exists l, sent (snd (strivenCall B W path meth s)) =
            (l ++ tokenRequest B W :: sent s)%list.
Proof.
  intros Hf. pose proof (getAccessToken_exchange_sent B W s Hf) as Hsent.
  unfold strivenCall. unfold bind at 1.
  destruct (getAccessToken B W s) as [[tok | e] s1]; cbn [snd] in Hsent.
  - exists [{| url := STRIVEN_BASE +:+ path; method := meth;
                authorization := "Bearer " +:+ ToString B tok |}].
    unfold bind, fetch.
    destruct (network W _ _) as [reason | res];
      [cbn [snd sent logRequest]; rewrite Hsent; reflexivity |].
    destruct (negb (resOk res));
      [unfold throw; cbn [snd sent logRequest]; rewrite Hsent; reflexivity |].
    unfold json.
    destruct (resJson res); unfold throw, ret; cbn [snd sent logRequest];
      rewrite Hsent; reflexivity.
  - exists []. exact Hsent.
Qed.

(** C6, as the code has it: [cacheSetItem] stores the value under the
    string form of the identifier, stamped with the reading of the clock,
    whatever the key held before, and leaves the other keys alone.  As long
    as that entry is in the cache, [cacheGetItem] at a reading [t'] with
    [t' - t <= TTL] returns exactly the value, sends nothing and keeps the
    entry (and [fetchItemByIdCached] returns a truthy value at once); at a
    reading with [t' - t > TTL] it returns [null], sends nothing and deletes
    the entry, and [fetchItemByIdCached] goes to the rate guard.  When the
    guard refuses, the error of the guard is thrown and nothing is sent:
    there is no fetch, and the entry stays deleted.  When the guard lets the
    call pass, Striven is called: with a token that is not fresh the
    exchange request is sent first; with a fresh one the request for the
    item is sent, and its answer, when ok and JSON, is returned and stored
    under the key with the reading of the clock at the store.  The TTL is
    10 minutes. *)
Theorem itemCache_ttl (B : Builtins) (W : World) (id v : JsVal) (s : State) :
  let key := ToString B id in
  let t := clock W (ticks s) in
  let s1 := snd (cacheSetItem B W id v s) in
  ITEM_CACHE_TTL_MS = 600000%Z /\
  itemByIdCache s1 !! key = Some {| ts := t; value := v |} /\
  (forall k, k <> key -> itemByIdCache s1 !! k = itemByIdCache s !! k) /\
  forall s2,
    itemByIdCache s2 !! key = Some {| ts := t; value := v |} ->
    let t' := clock W (ticks s2) in
    ((t' - t <= ITEM_CACHE_TTL_MS)%Z ->
     exists s3,
       cacheGetItem B W id s2 = (Ret v, s3) /\
       sent s3 = sent s2 /\ itemByIdCache s3 = itemByIdCache s2 /\
       (truthy v = true -> fetchItemByIdCached B W id s2 = (Ret v, s3))) /\
    ((ITEM_CACHE_TTL_MS < t' - t)%Z ->
     exists s3,
       cacheGetItem B W id s2 = (Ret VNull, s3) /\
       sent s3 = sent s2 /\
       itemByIdCache s3 !! key = None /\
       (forall e s4,
           rateGuard B W s3 = (Throw e, s4) ->
           fetchItemByIdCached B W id s2 = (Throw e, s4) /\
           sent s4 = sent s2 /\
           itemByIdCache s4 !! key = None) /\
       (forall s4,
           rateGuard B W s3 = (Ret tt, s4) ->
           let req := {| url := STRIVEN_BASE +:+ "/v1/items/" +:+ key; method := "GET";
                         authorization := "Bearer " +:+ ToString B (cachedToken s4) |} in
           let out := fetchItemByIdCached B W id s2 in
           (tokenFresh s4 (clock W (ticks s4)) = false ->
            exists l, sent (snd out) = (l ++ tokenRequest B W :: sent s2)%list) /\
           (tokenFresh s4 (clock W (ticks s4)) = true ->
            sent (snd out) = req :: sent s2 /\
            forall res item,
              network W (length (sent s2)) req = Responded res ->
              resOk res = true ->
              resJson res = Some item ->
              fst out = Ret item /\
              itemByIdCache (snd out) !! key =
                Some {| ts := clock W (S (ticks s4)); value := item |}))).
Proof.
  intros key t s1. split; [reflexivity |]. split; [| split].
  - unfold s1. rewrite cacheSetItem_run. cbn [snd itemByIdCache setCache].
    apply lookup_insert_eq.
  - intros k Hk. unfold s1. rewrite cacheSetItem_run. cbn [snd itemByIdCache setCache].
    apply lookup_insert_ne. intros Heq. apply Hk. symmetry. exact Heq.
  - intros s2 Hentry t'. split.
    + intros Hlive.
      pose proof (cacheGetItem_live B W id s2 _ Hentry Hlive) as Hget.
      cbn [value] in Hget.
      exists (tick s2). split; [exact Hget |]. split; [reflexivity |].
      split; [reflexivity |].
      intros Hv. rewrite (fetchItemByIdCached_after B W id v s2 (tick s2) Hget), Hv.
      reflexivity.
    + intros Hold.
      pose proof (cacheGetItem_expired B W id s2 _ Hentry Hold) as Hget.
      set (s3 := setCache (tick s2) (delete (ToString B id) (itemByIdCache s2))) in *.
      assert (Hgone : itemByIdCache s3 !! key = None) by apply lookup_delete_eq.
      pose proof (fetchItemByIdCached_after B W id VNull s2 s3 Hget) as Hafter.
      cbn [truthy] in Hafter. rewrite fetchAndStore_guard in Hafter.
      exists s3. split; [exact Hget |]. split; [reflexivity |].
      split; [exact Hgone |]. split.
      * intros e s4 Hg. rewrite Hg in Hafter. split; [exact Hafter |].
        pose proof (rateGuard_sent B W s3) as Hs.
        pose proof (rateGuard_cache B W s3) as Hc.
        rewrite Hg in Hs, Hc. cbn [snd] in Hs, Hc.
        split; [exact Hs | rewrite Hc; exact Hgone].
      * intros s4 Hg req out. subst out. rewrite Hg in Hafter. rewrite Hafter.
        pose proof (rateGuard_sent B W s3) as Hs. rewrite Hg in Hs. cbn [snd] in Hs.
        assert (Hs4 : sent s4 = sent s2) by exact Hs.
        split.
        -- intros Hf. rewrite cacheSetItem_after_sent.
           destruct (strivenCall_stale_sent B W ("/v1/items/" +:+ ToString B id) "GET" s4 Hf)
             as (l & Hl).
           exists l. rewrite Hl, Hs4. reflexivity.
        -- intros Hf. split.
           ++ rewrite cacheSetItem_after_sent.
              rewrite strivenCall_fresh_sent by exact Hf. rewrite Hs4. reflexivity.
           ++ intros res item Hnet Hok Hj. rewrite <- Hs4 in Hnet.
              unfold req, key in Hnet. unfold key.
              pose proof (strivenCall_fresh_ok B W _ "GET" s4 res item Hf Hnet Hok Hj)
                as Hcall.
              unfold bind. rewrite Hcall, cacheSetItem_run.
              cbn [fst snd itemByIdCache setCache ret].
              split; [reflexivity |].
              cbn [ticks tick logRequest]. apply lookup_insert_eq.
Qed.

Lemma itemCache_ttl_witness :
  let W := sampleWorld secondsClock (networkServing sampleItem) 90 in
  let s1 := snd (cacheSetItem sampleBuiltins W (VNum (Fin 7)) sampleItem (initialState W)) in
  exists s3,
    fetchItemByIdCached sampleBuiltins W (VNum (Fin 7)) s1 = (Ret sampleItem, s3) /\
    sent s3 = sent s1.
Proof.
  intros W s1.
  destruct (itemCache_ttl sampleBuiltins W (VNum (Fin 7)) sampleItem (initialState W))
    as (_ & Hput & _ & Hget).
  destruct (Hget s1 Hput) as [Hlive _].
  destruct Hlive as (s3 & Hrun & Hsent & _ & Hfetch); [vm_compute; discriminate |].
  exists s3. split; [exact (Hfetch eq_refl) | exact Hsent].
Defined.

(** C6 fails as stated when the guard refuses the call.  The item of the
    identifier 7 is put at time 0; at the next reading the clock gives
    700000 and the entry has expired.  The window started at 690000 and has
    counted the 2 calls of the limit.  [fetchItemByIdCached] deletes the
    entry and throws the error of the guard; no request has been sent. *)
Lemma expired_entry_refused :
  let W := sampleWorld expiryClock (networkServing sampleItem) 2 in
  let s := stateWith 690000 2 (VStr "tok") (Fin 1000000000) ∅ in
  let s1 := snd (cacheSetItem sampleBuiltins W (VNum (Fin 7)) sampleItem s) in
  let out := fetchItemByIdCached sampleBuiltins W (VNum (Fin 7)) s1 in
  itemByIdCache s1 !! "7" = Some {| ts := 0; value := sampleItem |} /\
  (ITEM_CACHE_TTL_MS < clock W (ticks s1) - 0)%Z /\
  fst out = Throw (rateLimitError sampleBuiltins 50) /\
  sent (snd out) = [] /\
  itemByIdCache (snd out) !! "7" = None.
Proof. repeat split; reflexivity. Qed.

(** C8, as the code has it: a call of [fetchItemByIdCached] that finds a
    truthy value in the cache leaves the window and the network untouched.
    One that does not is counted by the guard, or refused by it and then
    sends nothing; once counted, the count stays as the guard left it
    whatever becomes of the token exchange and of the item request.  So a
    request to the item endpoint is always a counted one, but a counted
    call need not reach the item endpoint. *)
Theorem cacheHit_spends_nothing (B : Builtins) (W : World) (id cached : JsVal)
    (s s1 : State) :
  cacheGetItem B W id s = (Ret cached, s1) ->
  (truthy cached = true ->
   fetchItemByIdCached B W id s = (Ret cached, s1) /\
   windowCount s1 = windowCount s /\ windowStartMs s1 = windowStartMs s /\
   sent s1 = sent s) /\
  (truthy cached = false ->
   (forall e s2,
       rateGuard B W s1 = (Throw e, s2) ->
       fetchItemByIdCached B W id s = (Throw e, s2) /\ sent s2 = sent s) /\
   (forall s2,
       rateGuard B W s1 = (Ret tt, s2) ->
       let s3 := snd (fetchItemByIdCached B W id s) in
       windowCount s3 = windowCount s2 /\ windowStartMs s3 = windowStartMs s2)).
Proof.
  intros Hget.
  pose proof (cacheGetItem_frame B W id s) as Hframe. cbv zeta in Hframe.
  rewrite Hget in Hframe. cbn [snd] in Hframe. destruct Hframe as [[Hst Hct] Hsent].
  pose proof (fetchItemByIdCached_after B W id cached s s1 Hget) as Hafter.
  split.
  - intros Hv. rewrite Hv in Hafter. repeat split; assumption.
  - intros Hv. rewrite Hv, fetchAndStore_guard in Hafter. split.
    + intros e s2 Hg. rewrite Hg in Hafter. split; [exact Hafter |].
      pose proof (rateGuard_sent B W s1) as Hs. rewrite Hg in Hs. cbn [snd] in Hs.
      congruence.
    + intros s2 Hg s3. subst s3. rewrite Hg in Hafter. rewrite Hafter.
      destruct (afterGuard_sameWindow B W id s2) as [H1 H2]. split; assumption.
Qed.

Lemma cacheHit_spends_nothing_witness :
  let W := sampleWorld secondsClock (networkServing sampleItem) 90 in
  let s := snd (cacheSetItem sampleBuiltins W (VNum (Fin 7)) sampleItem (initialState W)) in
  fetchItemByIdCached sampleBuiltins W (VNum (Fin 7)) s = (Ret sampleItem, tick s) /\
  windowCount (tick s) = windowCount s /\ sent (tick s) = sent s.
Proof.
  intros W s.
  destruct (cacheHit_spends_nothing sampleBuiltins W (VNum (Fin 7)) sampleItem s (tick s))
    as [Hhit _]; [reflexivity |].
  destruct (Hhit eq_refl) as (Hrun & Hc & _ & Hs).
  split; [exact Hrun | split; [exact Hc | exact Hs]].
Defined.

(** C8 fails as stated when the token exchange is refused: the call has
    been counted, and the only request sent went to the token endpoint. *)
Lemma counted_without_item_request :
  let W := sampleWorld secondsClock networkRefusing 90 in
  let s' := snd (fetchItemByIdCached sampleBuiltins W (VNum (Fin 7)) (initialState W)) in
  windowCount (initialState W) = 0%Z /\
  windowCount s' = 1%Z /\
  sent s' = [tokenRequest sampleBuiltins W] /\
  existsb isItemRequest (sent s') = false.
Proof. repeat split; reflexivity. Qed.

Example falsy_values :
  truthy VNull = false /\ truthy (VNum (Fin 0)) = false /\
  truthy (VStr EmptyString) = false /\ truthy (VBool false) = false /\
  truthy VUndef = false /\ truthy (VNum NaN) = false.
Proof. repeat split. Qed.



(** ** The batch handlers *)

Section Batches.

Variable B : Builtins.
Variable W : World.

Lemma forOf_app {A R Acc : Type} (body : A -> Acc -> M (R + Acc)) (l1 l2 : list A) :
  forall acc s,
    forOf body (l1 ++ l2)%list acc s =
    match forOf body l1 acc s with
    | (Ret (inr acc'), s1) => forOf body l2 acc' s1
    | other => other
    end.
Proof.
  induction l1 as [|a l1 IH]; intros acc s; simpl.
  - reflexivity.
  - unfold bind. destruct (body a acc s) as [[[reply | acc'] | e] s1]; try reflexivity.
    apply IH.
Qed.

Lemma forOf_stop {A R Acc : Type} (body : A -> Acc -> M (R + Acc)) (a : A)
    (rest : list A) (acc : Acc) (s s1 : State) (reply : R) :
  body a acc s = (Ret (inl reply), s1) ->
  forOf body (a :: rest) acc s = (Ret (inl reply), s1).
Proof. intros H. simpl. unfold bind. rewrite H. reflexivity. Qed.

(** What the guard throws is the spec's QuotaExceeded. *)
Lemma rateGuard_throws (s s' : State) (e : JsError) :
  rateGuard B W s = (Throw e, s') -> QuotaExceeded B e.
Proof.
  rewrite rateGuard_run. cbv zeta. destruct (_ <? _)%Z; [discriminate |].
  intros H. injection H as <- _. eexists. split; [apply secondsLeft_pos | reflexivity].
Qed.

(** The [catch] of a line on a QuotaExceeded: the reply of the abort. *)
Lemma fetchLine_quota (id : JsVal) (errorLine : string -> Line) (results : list Line)
    (s s2 : State) (e : JsError) (ra : Z) :
  fetchItemByIdCached B W id s = (Throw e, s2) ->
  (1 <= ra)%Z ->
  e = rateLimitError B ra ->
  fetchLine B W id errorLine results s =
  (Ret (Abort (Json429 (errText e) (VNum (ofZ ra)) results)), s2).
Proof.
  intros Hf Hra ->. unfold fetchLine, tryCatch, bind. rewrite Hf.
  cbn [status rateLimitError Number num_eqb]. 
  change (Qeq_bool 429 429) with true. cbv iota.
  unfold retryAfterOf. cbn [retryAfter rateLimitError].
  assert (Ht : truthy (VNum (ofZ ra)) = true).
  { unfold truthy, ofZ, isZero. apply negb_true_iff, not_true_iff_false.
    rewrite Qeq_bool_iff. unfold Qeq. simpl. lia. }
  rewrite Ht. reflexivity.
Qed.

(** A line with a finite id goes to the fetch. *)
Lemma resolveLines_line_finite (line idv : JsVal) (results : list Line) (s : State) :
  getProp line "id" = Ret idv ->
  isFinite (Number B idv) = true ->
  resolveLines_line B W line results s =
  (f <- fetchLine B W (VNum (Number B idv)) (ErrorById (Number B idv)) results ;;
   match f with
   | Abort reply => ret (inl reply)
   | Skip results' => ret (inr results')
   | Got item =>
       r <- liftC (resolvedOf B item) ;;
       ret (inr (push results (ResolvedById r)))
   end) s.
Proof.
  intros Hid Hfin. unfold resolveLines_line. unfold bind at 1, liftC at 1.
  rewrite Hid. unfold bind at 1, liftC at 1. unfold tryNumber.
  rewrite (finite_hasPrimitive B idv Hfin), Hfin. reflexivity.
Qed.

Lemma resolveLines_line_quota (line idv : JsVal) (results : list Line)
    (s s2 : State) (e : JsError) (ra : Z) :
  getProp line "id" = Ret idv ->
  isFinite (Number B idv) = true ->
  fetchItemByIdCached B W (VNum (Number B idv)) s = (Throw e, s2) ->
  (1 <= ra)%Z ->
  e = rateLimitError B ra ->
  resolveLines_line B W line results s =
  (Ret (inl (Json429 (errText e) (VNum (ofZ ra)) results)), s2).
Proof.
  intros Hid Hfin Hf Hra He.
  rewrite (resolveLines_line_finite line idv results s Hid Hfin). unfold bind.
  rewrite (fetchLine_quota _ _ results s s2 e ra Hf Hra He). reflexivity.
Qed.

Lemma resolveByNumber_line_quota (n : JsVal) (results : list Line)
    (s s2 : State) (e : JsError) (ra : Z) :
  truthy (lookupItemId W (normalizeKey B n)) = true ->
  fetchItemByIdCached B W (lookupItemId W (normalizeKey B n)) s = (Throw e, s2) ->
  (1 <= ra)%Z ->
  e = rateLimitError B ra ->
  resolveByNumber_line B W n results s =
  (Ret (inl (Json429 (errText e) (VNum (ofZ ra)) results)), s2).
Proof.
  intros Hid Hf Hra He. unfold resolveByNumber_line. cbv zeta. rewrite Hid.
  cbn [negb]. unfold bind.
  rewrite (fetchLine_quota _ _ results s s2 e ra Hf Hra He). reflexivity.
Qed.

(** A loop that reaches, after the elements [pre], an element on which the
    body leaves with a reply: that is the reply of the handler, whatever
    follows the element. *)
Lemma handler_stops {A : Type} (body : A -> list Line -> M (Reply + list Line))
    (pre post : list A) (a : A) (results : list Line) (s s1 s2 : State) (reply : Reply) :
  forOf body pre [] s = (Ret (inr results), s1) ->
  body a results s1 = (Ret (inl reply), s2) ->
  tryCatch (r <- forOf body (pre ++ a :: post)%list [] ;; finish r) (catchAll B) s =
  (Ret reply, s2).
Proof.
  intros Hpre Hbody. unfold tryCatch, bind.
  rewrite forOf_app, Hpre, (forOf_stop body a post results s1 s2 reply Hbody).
  reflexivity.
Qed.

Lemma length_app_cons_nonzero {A : Type} (pre post : list A) (a : A) :
  (length (pre ++ a :: post)%list =? 0)%nat = false.
Proof. apply Nat.eqb_neq. rewrite length_app. simpl. lia. Qed.

End Batches.

(** C3: in both batch handlers, when the lines before the k-th have been
    processed into [results] and the fetch of the k-th item throws the
    error of the rate guard (the spec's QuotaExceeded), the handler replies
    with the 429 record that carries exactly [results] and a [retryAfter] of
    at least 1, in the state in which the fetch threw.  Neither the reply
    nor the final state depends on what follows the k-th line in the batch:
    nothing is looked up, fetched or priced for it. *)
Theorem quota_abort (B : Builtins) (W : World) :
  (forall body pre n post s results s1 e s2,
      arrayOrEmpty (getPropOpt body "itemNumbers") = (pre ++ n :: post)%list ->
      forOf (resolveByNumber_line B W) pre [] s = (Ret (inr results), s1) ->
      truthy (lookupItemId W (normalizeKey B n)) = true ->
      fetchItemByIdCached B W (lookupItemId W (normalizeKey B n)) s1 = (Throw e, s2) ->
      QuotaExceeded B e ->
      exists ra,
        (1 <= ra)%Z /\
        resolveByNumber B W body s =
        (Ret (Json429 (errText e) (VNum (ofZ ra)) results), s2)) /\
  (forall body pre line post s results s1 idv e s2,
      arrayOrEmpty (getPropOpt body "lines") = (pre ++ line :: post)%list ->
      forOf (resolveLines_line B W) pre [] s = (Ret (inr results), s1) ->
      getProp line "id" = Ret idv ->
      isFinite (Number B idv) = true ->
      fetchItemByIdCached B W (VNum (Number B idv)) s1 = (Throw e, s2) ->
      QuotaExceeded B e ->
      exists ra,
        (1 <= ra)%Z /\
        resolveLines B W body s =
        (Ret (Json429 (errText e) (VNum (ofZ ra)) results), s2)).
Proof.
  split.
  - intros body pre n post s results s1 e s2 Hbody Hpre Hid Hf (ra & Hra & He).
    exists ra. split; [exact Hra |].
    unfold resolveByNumber. cbv zeta. rewrite Hbody.
    unfold tryCatch at 1. rewrite length_app_cons_nonzero.
    apply (handler_stops B (resolveByNumber_line B W) pre post n results s s1 s2);
      [exact Hpre |].
    apply resolveByNumber_line_quota; assumption.
  - intros body pre line post s results s1 idv e s2 Hbody Hpre Hid Hfin Hf (ra & Hra & He).
    exists ra. split; [exact Hra |].
    unfold resolveLines. cbv zeta. rewrite Hbody.
    unfold tryCatch at 1. rewrite length_app_cons_nonzero.
    apply (handler_stops B (resolveLines_line B W) pre post line results s s1 s2);
      [exact Hpre |].
    apply (resolveLines_line_quota B W line idv); assumption.
Qed.

Lemma quota_abort_witness :
  exists ra results s2,
    (1 <= ra)%Z /\
    resolveLines sampleBuiltins tightWorld (VObj [("lines", VArr fiveLines)])
      (initialState tightWorld) =
    (Ret (Json429 (errText (rateLimitError sampleBuiltins 60)) (VNum (ofZ ra)) results), s2) /\
    length results = 2%nat /\
    length (List.filter isItemRequest (sent s2)) = 2%nat.
Proof.
  destruct (quota_abort sampleBuiltins tightWorld) as [_ Hlines].
  set (s := initialState tightWorld).
  set (pre := forOf (resolveLines_line sampleBuiltins tightWorld)
                (map lineOfId [1; 2]%Z) [] s).
  set (results := match fst pre with Ret (inr r) => r | _ => [] end).
  set (s2 := snd (fetchItemByIdCached sampleBuiltins tightWorld (VNum (ofZ 3)) (snd pre))).
  destruct (Hlines (VObj [("lines", VArr fiveLines)])
              (map lineOfId [1; 2]%Z) (lineOfId 3) (map lineOfId [4; 5]%Z)
              s results (snd pre) (VNum (ofZ 3))
              (rateLimitError sampleBuiltins 60) s2)
    as (ra & Hra & Hrun).
  - reflexivity.
  - vm_compute. reflexivity.
  - reflexivity.
  - reflexivity.
  - vm_compute. reflexivity.
  - exists 60%Z. split; [lia | reflexivity].
  - exists ra, results, s2. split; [exact Hra |]. split; [exact Hrun |].
    split; vm_compute; reflexivity.
Defined.

Section ResolveLines.

Variable B : Builtins.
Variable W : World.

(** The [catch] of a line never throws, and aborts with a 429 record only. *)
Lemma fetchLine_outcome (id : JsVal) (errorLine : string -> Line) (results : list Line)
    (s : State) :
  exists f s1,
    fetchLine B W id errorLine results s = (Ret f, s1) /\
    match f with
    | Got _ => True
    | Abort reply => exists msg ra, reply = Json429 msg ra results
    | Skip results' => exists msg, results' = push results (errorLine msg)
    end.
Proof.
  unfold fetchLine, tryCatch, bind.
  destruct (fetchItemByIdCached B W id s) as [[item | e] s1].
  - do 2 eexists. split; [reflexivity | exact I].
  - destruct (num_eqb _ _).
    + unfold retryAfterOf. destruct (truthy (retryAfter e)).
      * do 2 eexists. split; [reflexivity |]. do 2 eexists. reflexivity.
      * unfold bind. rewrite getRetryAfterSeconds_run.
        do 2 eexists. split; [reflexivity |]. do 2 eexists. reflexivity.
    + do 2 eexists. split; [reflexivity |]. eexists. reflexivity.
Qed.

(** What one turn of the loop of /api/resolve-lines can return. *)
Lemma resolveLines_line_outcome (line : JsVal) (acc : list Line) (s s1 : State)
    (r : Reply + list Line) :
  resolveLines_line B W line acc s = (Ret r, s1) ->
  match r with
  | inl reply => exists msg ra, reply = Json429 msg ra acc
  | inr acc' =>
      (finiteId B line = false /\ acc' = acc) \/
      (finiteId B line = true /\ exists out, acc' = push acc out /\ isLineOf B line out)
  end.
Proof.
  unfold finiteId, isLineOf.
  destruct (getProp line "id") as [v | e] eqn:Hid.
  2: { unfold resolveLines_line. unfold bind at 1, liftC at 1. rewrite Hid.
       discriminate. }
  destruct (isFinite (Number B v)) eqn:Hfin.
  2: { unfold resolveLines_line. unfold bind at 1, liftC at 1. rewrite Hid.
       unfold bind at 1, liftC at 1, tryNumber.
       destruct (hasPrimitive v); [| discriminate]. rewrite Hfin. cbn [negb].
       intros H. injection H as <- _. left. split; reflexivity. }
  rewrite (resolveLines_line_finite B W line v acc s Hid Hfin).
  - unfold bind at 1.
    destruct (fetchLine_outcome (VNum (Number B v)) (ErrorById (Number B v)) acc s)
      as (f & s' & -> & Hf).
    destruct f as [item | reply | results'].
    + unfold bind, liftC. destruct (resolvedOf B item) as [res | e]; [| discriminate].
      intros H. injection H as <- _. right. split; [reflexivity |].
      eexists. split; [reflexivity |]. exists v. split; [reflexivity |].
      right. eexists. reflexivity.
    + intros H. injection H as <- _. exact Hf.
    + intros H. injection H as <- _. destruct Hf as (msg & ->).
      right. split; [reflexivity |].
      eexists. split; [reflexivity |]. exists v. split; [reflexivity |].
      left. eexists. reflexivity.
Qed.

Lemma forOf_resolveLines (lines : list JsVal) :
  forall acc s s1 r,
    forOf (resolveLines_line B W) lines acc s = (Ret r, s1) ->
    match r with
    | inl reply => exists msg ra results, reply = Json429 msg ra results
    | inr results =>
        exists new, results = (acc ++ new)%list /\
                    Forall2 (isLineOf B) (List.filter (finiteId B) lines) new
    end.
Proof.
  induction lines as [|line lines IH]; intros acc s s1 r; simpl.
  - intros H. injection H as <- _. exists []. split; [symmetry; apply app_nil_r | constructor].
  - unfold bind.
    destruct (resolveLines_line B W line acc s) as [[r0 | e] s0] eqn:Hline; [| discriminate].
    pose proof (resolveLines_line_outcome line acc s s0 r0 Hline) as Hout.
    destruct r0 as [reply | acc'].
    + intros H. injection H as <- _. destruct Hout as (msg & ra & ->). eauto.
    + intros H. specialize (IH acc' s0 s1 r H).
      destruct r as [reply | results]; [exact IH |].
      destruct IH as (new & -> & Hnew).
      destruct Hout as [[Hfin ->] | (Hfin & out & -> & Hout)].
      * exists new. split; [reflexivity |].
        cbn [List.filter]. rewrite Hfin. exact Hnew.
      * exists (out :: new). split; [unfold push; rewrite <- app_assoc; reflexivity |].
        cbn [List.filter]. rewrite Hfin. constructor; assumption.
Qed.



End ResolveLines.





(** ** Further properties of the rounding *)

Lemma ceil_multiple_le (x step : Q) (k : Z) :
  0 < step ->
  x <= inject_Z k * step ->
  inject_Z (Qceiling (x / step)) * step <= inject_Z k * step.
Proof.
  intros Hs Hx.
  assert (Hq : x / step <= inject_Z k) by (apply Qle_shift_div_r; assumption).
  apply Qceiling_resp_le in Hq. rewrite Qceiling_Z in Hq.
  rewrite Zle_Qle in Hq. apply Qmult_le_compat_r; [exact Hq | lra].
Qed.

Lemma ceil_multiple_mono (x y step : Q) :
  0 < step ->
  x <= y ->
  inject_Z (Qceiling (x / step)) * step <= inject_Z (Qceiling (y / step)) * step.
Proof.
  intros Hs Hxy.
  assert (Hq : x / step <= y / step).
  { unfold Qdiv. apply Qmult_le_compat_r; [exact Hxy |].
    apply Qlt_le_weak, Qinv_lt_0_compat, Hs. }
  apply Qceiling_resp_le in Hq. rewrite Zle_Qle in Hq.
  apply Qmult_le_compat_r; [exact Hq | lra].
Qed.

Lemma roundUpNice_nonneg (B : Builtins) (x : Q) : 0 <= roundUpNice B (VNum (Fin x)).
Proof.
  rewrite roundUpNice_num. destruct (Qle_bool x 0) eqn:H0; [lra |].
  apply Qle_bool_false in H0.
  destruct (ceil_multiple_bounds x (niceStep x) (niceStep_pos x)) as [Hle _]. lra.
Qed.

(** A higher raw total never gives a lower rounded total, within a tier and
    across the tiers. *)
Theorem roundUpNice_monotone (B : Builtins) (x y : Q) :
  x <= y ->
  roundUpNice B (VNum (Fin x)) <= roundUpNice B (VNum (Fin y)).
Proof.
  intros Hxy.
  pose proof (roundUpNice_nonneg B y) as Hy0.
  rewrite (roundUpNice_num B x).
  destruct (Qle_bool x 0) eqn:H0; [exact Hy0 |]. apply Qle_bool_false in H0.
  clear Hy0. rewrite (roundUpNice_num B y).
  destruct (Qle_bool y 0) eqn:H0'; [apply Qle_bool_iff in H0'; lra |]. clear H0'.
  destruct (ceil_multiple_bounds y (niceStep y) (niceStep_pos y)) as [Hy _].
  destruct (niceStep_cases x) as [[Hx Sx]|[[Hx Sx]|[[Hx Sx]|[[Hx Sx]|[Hx Sx]]]]];
    destruct (niceStep_cases y) as [[Hy' Sy]|[[Hy' Sy]|[[Hy' Sy]|[[Hy' Sy]|[Hy' Sy]]]]];
    rewrite Sx, Sy in *; try lra;
    try (apply ceil_multiple_mono; [reflexivity | exact Hxy]).
  all: match goal with
       | |- inject_Z (Qceiling (_ / 1)) * 1 <= _ =>
           apply Qle_trans with (inject_Z 10 * 1);
           [apply ceil_multiple_le; [reflexivity | change (inject_Z 10 * 1) with 10; lra]
           | change (inject_Z 10 * 1) with 10; lra]
       | |- inject_Z (Qceiling (_ / 5)) * 5 <= _ =>
           apply Qle_trans with (inject_Z 20 * 5);
           [apply ceil_multiple_le; [reflexivity | change (inject_Z 20 * 5) with 100; lra]
           | change (inject_Z 20 * 5) with 100; lra]
       | |- inject_Z (Qceiling (_ / 20)) * 20 <= _ =>
           apply Qle_trans with (inject_Z 25 * 20);
           [apply ceil_multiple_le; [reflexivity | change (inject_Z 25 * 20) with 500; lra]
           | change (inject_Z 25 * 20) with 500; lra]
       | |- inject_Z (Qceiling (_ / 50)) * 50 <= _ =>
           apply Qle_trans with (inject_Z 20 * 50);
           [apply ceil_multiple_le; [reflexivity | change (inject_Z 20 * 50) with 1000; lra]
           | change (inject_Z 20 * 50) with 1000; lra]
       end.
Qed.

Lemma roundUpNice_monotone_witness :
  roundUpNice sampleBuiltins (VNum (Fin 99)) <= roundUpNice sampleBuiltins (VNum (Fin 101)).
Proof. apply roundUpNice_monotone. discriminate. Defined.

Lemma inject_Z_mult_eq (a b : Z) : inject_Z (a * b) = inject_Z a * inject_Z b.
Proof. unfold inject_Z, Qmult. simpl. reflexivity. Qed.

Lemma roundUpNice_integer (B : Builtins) (x : Q) :
  exists z : Z, roundUpNice B (VNum (Fin x)) = inject_Z z /\ (0 <= z)%Z.
Proof.
  pose proof (roundUpNice_nonneg B x) as Hr. rewrite roundUpNice_num in *.
  destruct (Qle_bool x 0); [exists 0%Z; split; [reflexivity | lia] |].
  assert (Hk : forall k : Z,
             0 <= inject_Z (Qceiling (x / inject_Z k)) * inject_Z k ->
             exists z : Z,
               inject_Z (Qceiling (x / inject_Z k)) * inject_Z k = inject_Z z /\ (0 <= z)%Z).
  { intros k H. exists (Qceiling (x / inject_Z k) * k)%Z. split.
    - rewrite inject_Z_mult_eq. reflexivity.
    - rewrite <- inject_Z_mult_eq in H. change 0 with (inject_Z 0) in H.
      rewrite <- Zle_Qle in H. exact H. }
  destruct (niceStep_cases x) as [[_ Hs]|[[_ Hs]|[[_ Hs]|[[_ Hs]|[_ Hs]]]]];
    rewrite Hs in *.
  - exact (Hk 1%Z Hr).
  - exact (Hk 5%Z Hr).
  - exact (Hk 20%Z Hr).
  - exact (Hk 50%Z Hr).
  - exact (Hk 100%Z Hr).
Qed.

(** The rounded total of any argument is a whole number, at least 0, and
    at least 1 when the argument coerces to a positive number. *)
Theorem roundUpNice_whole (B : Builtins) (v : JsVal) :
  exists z : Z,
    roundUpNice B v = inject_Z z /\ (0 <= z)%Z /\
    (0 < toNumber B v -> (1 <= z)%Z).
Proof.
  rewrite roundUpNice_coerces, roundUpNice_num. set (x := toNumber B v).
  destruct (Qle_bool x 0) eqn:H0.
  - apply Qle_bool_iff in H0. exists 0%Z. repeat split; [lia | intros; lra].
  - apply Qle_bool_false in H0.
    assert (Hc : forall s : Q, 0 < s -> (1 <= Qceiling (x / s))%Z).
    { intros s Hs.
      assert (Hq : 0 < x / s) by (apply Qlt_shift_div_l; [exact Hs | lra]).
      pose proof (Qle_ceiling (x / s)) as Hle.
      assert (Hz : inject_Z 0 < inject_Z (Qceiling (x / s))).
      { change (inject_Z 0) with 0. lra. }
      rewrite <- Zlt_Qlt in Hz. lia. }
    destruct (niceStep_cases x) as [[_ ->]|[[_ ->]|[[_ ->]|[[_ ->]|[_ ->]]]]].
    + exists (Qceiling (x / 1) * 1)%Z. pose proof (Hc 1 eq_refl).
      split; [reflexivity | split; [lia | intros; lia]].
    + exists (Qceiling (x / 5) * 5)%Z. pose proof (Hc 5 eq_refl).
      split; [reflexivity | split; [lia | intros; lia]].
    + exists (Qceiling (x / 20) * 20)%Z. pose proof (Hc 20 eq_refl).
      split; [reflexivity | split; [lia | intros; lia]].
    + exists (Qceiling (x / 50) * 50)%Z. pose proof (Hc 50 eq_refl).
      split; [reflexivity | split; [lia | intros; lia]].
    + exists (Qceiling (x / 100) * 100)%Z. pose proof (Hc 100 eq_refl).
      split; [reflexivity | split; [lia | intros; lia]].
Qed.

Lemma roundUpNice_whole_witness :
  exists z : Z,
    roundUpNice sampleBuiltins (VStr "25") = inject_Z z /\ (1 <= z)%Z.
Proof.
  destruct (roundUpNice_whole sampleBuiltins (VStr "25")) as (z & Hz & _ & Hpos).
  exists z. split; [exact Hz | exact (Hpos eq_refl)].
Defined.

(** ** When the pricing throws *)

Lemma itemTypeName_string (item : JsVal) :
  badTypeName item = false -> exists tn, itemTypeName item = VStr tn.
Proof.
  unfold badTypeName, itemTypeName, js_or.
  destruct (truthy (getPropOpt (getPropOpt item "itemType") "name")) eqn:Ht.
  - destruct (getPropOpt (getPropOpt item "itemType") "name");
      try discriminate; intros _; eexists; reflexivity.
  - intros _. eexists. reflexivity.
Qed.

Lemma itemTypeName_bad (B : Builtins) (item : JsVal) :
  badTypeName item = true -> calcItemRawTotal B item = Throw TypeError.
Proof.
  unfold badTypeName, calcItemRawTotal, itemTypeName, js_or.
  destruct (truthy (getPropOpt (getPropOpt item "itemType") "name")) eqn:Ht;
    [| discriminate].
  destruct (getPropOpt (getPropOpt item "itemType") "name");
    try discriminate; reflexivity.
Qed.

(** The two ways of pricing an item that is an object. *)
Lemma calcItemRawTotal_cases (B : Builtins) (item : JsVal) :
  nullish item = false ->
  badTypeName item = false ->
  calcItemRawTotal B item =
  match groupComponents item with
  | Some gs =>
      match mapThrow (componentOf B) gs with
      | Throw e => Throw e
      | Ret comps =>
          Ret {| rawTotal := fold_left (fun sum c => sum + lineTotal c) comps 0;
                 components := comps; kind := "SRG" |}
      end
  | None =>
      match tryToNumber B (getPropOpt item "price") with
      | Throw e => Throw e
      | Ret x => Ret {| rawTotal := x; components := []; kind := "ITEM" |}
      end
  end.
Proof.
  intros Hn Hb. destruct (itemTypeName_string item Hb) as [tn Htn].
  unfold calcItemRawTotal, groupComponents. rewrite Htn.
  rewrite !getProp_not_nullish by exact Hn.
  destruct (String.eqb (toLowerCase tn) "item group"); [| reflexivity].
  destruct (getPropOpt item "groupItems"); reflexivity.
Qed.

Lemma calcItemRawTotal_fails (B : Builtins) (item : JsVal) :
  match calcItemRawTotal B item with
  | Throw e => e = TypeError /\ pricingFails item = true
  | Ret _ => pricingFails item = false
  end.
Proof.
  unfold pricingFails.
  destruct (nullish item) eqn:Hn.
  { destruct item; try discriminate Hn; split; reflexivity. }
  destruct (badTypeName item) eqn:Hb.
  { rewrite (itemTypeName_bad B item Hb). split; reflexivity. }
  rewrite (calcItemRawTotal_cases B item Hn Hb). cbn [orb].
  destruct (groupComponents item) as [gs |].
  - destruct (forallb priced gs) eqn:Hall.
    + destruct (mapThrow_priced B gs Hall) as (comps & -> & _). reflexivity.
    + rewrite (mapThrow_unpriced B gs Hall). split; reflexivity.
  - rewrite tryToNumber_run.
    destruct (hasPrimitive (getPropOpt item "price")); [reflexivity | split; reflexivity].
Qed.

(** [calcItemRawTotal] throws, a [TypeError], exactly on the items that are
    [null] or [undefined], that have a truthy type name which is not a
    string, that are groups with a component which is [null] or whose [qty]
    or [price] does not convert to a number, or that are no groups and have
    a [price] which does not convert; what does not convert is an object
    with a property [toString] of its own.  On every other item it returns
    a pricing. *)
Theorem calcItemRawTotal_throws (B : Builtins) (item : JsVal) :
  (pricingFails item = true <-> exists e, calcItemRawTotal B item = Throw e) /\
  (pricingFails item = false <-> exists p, calcItemRawTotal B item = Ret p) /\
  (forall e, calcItemRawTotal B item = Throw e -> e = TypeError).
Proof.
  pose proof (calcItemRawTotal_fails B item) as H.
  destruct (calcItemRawTotal B item) as [p | e0].
  - split; [| split].
    + split; [intros Hp; congruence | intros [e He]; discriminate].
    + split; [intros _; exists p; reflexivity | intros _; exact H].
    + intros e He. discriminate.
  - destruct H as [-> Hp]. split; [| split].
    + split; [intros _; exists TypeError; reflexivity | intros _; exact Hp].
    + split; [intros Hf; congruence | intros [p Hr]; discriminate].
    + intros e He. injection He as <-. reflexivity.
Qed.

Lemma calcItemRawTotal_throws_witness :
  calcItemRawTotal sampleBuiltins
    (VObj [("itemType", VObj [("name", VStr "Item Group")]);
           ("groupItems", VArr [VNull])]) = Throw TypeError.
Proof.
  set (item := VObj [("itemType", VObj [("name", VStr "Item Group")]);
                     ("groupItems", VArr [VNull])]).
  destruct (calcItemRawTotal_throws sampleBuiltins item) as ([Hif _] & _ & Honly).
  destruct (Hif eq_refl) as [e He]. rewrite He. f_equal. exact (Honly e He).
Defined.

(** ** The record of a resolved item *)

Lemma resolvedOf_throws (B : Builtins) (item : JsVal) :
  match resolvedOf B item with
  | Throw e => e = TypeError /\ pricingFails item = true
  | Ret _ => pricingFails item = false
  end.
Proof.
  unfold resolvedOf. pose proof (calcItemRawTotal_fails B item) as H.
  destruct (calcItemRawTotal B item) as [p | e]; [| exact H].
  assert (Hn : nullish item = false).
  { unfold pricingFails in H. destruct (nullish item); [discriminate | reflexivity]. }
  rewrite (getProp_not_nullish item "id" Hn). exact H.
Qed.



(** ** The lines of a batch *)

Section Lines.

Variable B : Builtins.
Variable W : World.

Lemma fetchLine_got (id : JsVal) (errorLine : string -> Line) (results : list Line)
    (s s2 : State) (item : JsVal) :
  fetchItemByIdCached B W id s = (Ret item, s2) ->
  fetchLine B W id errorLine results s = (Ret (Got item), s2).
Proof. intros H. unfold fetchLine, tryCatch, bind. rewrite H. reflexivity. Qed.

Lemma fetchLine_error (id : JsVal) (errorLine : string -> Line) (results : list Line)
    (s s2 : State) (e : JsError) :
  fetchItemByIdCached B W id s = (Throw e, s2) ->
  is429 B e = false ->
  fetchLine B W id errorLine results s =
  (Ret (Skip (push results (errorLine (errText e)))), s2).
Proof.
  intros H H429. unfold fetchLine, tryCatch, bind. rewrite H.
  unfold is429 in H429. rewrite H429. reflexivity.
Qed.

Lemma fetchLine_429 (id : JsVal) (errorLine : string -> Line) (results : list Line)
    (s s2 : State) (e : JsError) :
  fetchItemByIdCached B W id s = (Throw e, s2) ->
  is429 B e = true ->
  exists ra s3,
    fetchLine B W id errorLine results s =
    (Ret (Abort (Json429 (errText e) ra results)), s3) /\
    (truthy (retryAfter e) = true -> ra = retryAfter e /\ s3 = s2) /\
    (truthy (retryAfter e) = false -> exists secs, (1 <= secs)%Z /\ ra = VNum (ofZ secs)).
Proof.
  intros H H429. unfold fetchLine, tryCatch, bind. rewrite H.
  unfold is429 in H429. rewrite H429. unfold retryAfterOf.
  destruct (truthy (retryAfter e)).
  - do 2 eexists. split; [reflexivity |]. split; [intros _; split; reflexivity | discriminate].
  - unfold bind. rewrite getRetryAfterSeconds_run.
    do 2 eexists. split; [reflexivity |]. split; [discriminate |].
    intros _. eexists. split; [apply secondsLeft_pos | reflexivity].
Qed.

Lemma handler_throws {A : Type} (body : A -> list Line -> M (Reply + list Line))
    (pre post : list A) (a : A) (results : list Line) (s s1 s2 : State) (e : JsError) :
  forOf body pre [] s = (Ret (inr results), s1) ->
  body a results s1 = (Throw e, s2) ->
  tryCatch (r <- forOf body (pre ++ a :: post)%list [] ;; finish r) (catchAll B) s =
  catchAll B e s2.
Proof.
  intros Hpre Hbody. unfold tryCatch, bind. rewrite forOf_app, Hpre.
  cbn [forOf]. unfold bind. rewrite Hbody. reflexivity.
Qed.

Lemma tryCatch_catchAll (m : M Reply) (s : State) :
  exists reply s', tryCatch m (catchAll B) s = (Ret reply, s').
Proof.
  unfold tryCatch. destruct (m s) as [[reply | e] s']; do 2 eexists; reflexivity.
Qed.

End Lines.

(** No handler throws: whatever the request, the state, the clock and the
    network, each of the three handlers ends with a reply. *)
Lemma handlers_reply (B : Builtins) (W : World) (s : State) :
  (forall id, exists reply s', getItem B W id s = (Ret reply, s')) /\
  (forall body, exists reply s', resolveByNumber B W body s = (Ret reply, s')) /\
  (forall body, exists reply s', resolveLines B W body s = (Ret reply, s')).
Proof.
  split; [| split]; intros x; apply tryCatch_catchAll.
Qed.

(** An error of the fetch of a line whose status is not 429 (an upstream
    error with another status, a failed token exchange, a network failure, a
    body that is not JSON) becomes the error record of that line, and the
    loop goes on with the next line. *)
Theorem line_error_goes_on (B : Builtins) (W : World) (results : list Line)
    (s s2 : State) (e : JsError) :
  is429 B e = false ->
  (forall n,
      truthy (lookupItemId W (normalizeKey B n)) = true ->
      fetchItemByIdCached B W (lookupItemId W (normalizeKey B n)) s = (Throw e, s2) ->
      resolveByNumber_line B W n results s =
      (Ret (inr (push results
                   (ErrorByNumber (normalizeKey B n) (normalizeKey B n) (errText e)))), s2)) /\
  (forall line idv,
      getProp line "id" = Ret idv ->
      isFinite (Number B idv) = true ->
      fetchItemByIdCached B W (VNum (Number B idv)) s = (Throw e, s2) ->
      resolveLines_line B W line results s =
      (Ret (inr (push results (ErrorById (Number B idv) (errText e)))), s2)).
Proof.
  intros H429. split.
  - intros n Hid Hf. unfold resolveByNumber_line. cbv zeta. rewrite Hid. cbn [negb].
    unfold bind. rewrite (fetchLine_error B W _ _ results s s2 e Hf H429). reflexivity.
  - intros line idv Hid Hfin Hf.
    rewrite (resolveLines_line_finite B W line idv results s Hid Hfin). unfold bind.
    rewrite (fetchLine_error B W _ _ results s s2 e Hf H429). reflexivity.
Qed.

Lemma line_error_goes_on_witness :
  let W := sampleWorld secondsClock networkRefusing 90 in
  let s := initialState W in
  resolveLines_line sampleBuiltins W (lineOfId 7) [] s =
  (Ret (inr [ErrorById (ofZ 7) "Token request failed (401): denied"]),
   snd (fetchItemByIdCached sampleBuiltins W (VNum (ofZ 7)) s)).
Proof.
  intros W s.
  set (run := fetchItemByIdCached sampleBuiltins W (VNum (ofZ 7)) s).
  set (e := match fst run with Throw e => e | Ret _ => TypeError end).
  destruct (line_error_goes_on sampleBuiltins W [] s (snd run) e eq_refl) as [_ Hline].
  exact (Hline (lineOfId 7) (VNum (ofZ 7)) eq_refl eq_refl eq_refl).
Defined.

Lemma strivenApiError_429 (B : Builtins) (path : string) (res : Response) :
  resStatus res = 429%Z -> is429 B (strivenApiError B path res) = true.
Proof. intros H. unfold is429, strivenApiError. cbn [status Number]. rewrite H. reflexivity. Qed.

(** Any error of status 429 thrown by the fetch of a line ends the batch,
    the answer of Striven with status 429 as well as the refusal of the
    guard: the reply is the 429 record with the lines made so far.  Its
    [retryAfter] is that of the error when it is truthy (for an answer of
    Striven, the number in its retry-after header) and otherwise the
    seconds the guard reports, at least 1. *)
Theorem status429_aborts (B : Builtins) (W : World) :
  (forall path res,
      resStatus res = 429%Z -> is429 B (strivenApiError B path res) = true) /\
  (forall body pre n post s results s1 e s2,
      arrayOrEmpty (getPropOpt body "itemNumbers") = (pre ++ n :: post)%list ->
      forOf (resolveByNumber_line B W) pre [] s = (Ret (inr results), s1) ->
      truthy (lookupItemId W (normalizeKey B n)) = true ->
      fetchItemByIdCached B W (lookupItemId W (normalizeKey B n)) s1 = (Throw e, s2) ->
      is429 B e = true ->
      exists ra s3,
        resolveByNumber B W body s = (Ret (Json429 (errText e) ra results), s3) /\
        (truthy (retryAfter e) = true -> ra = retryAfter e /\ s3 = s2) /\
        (truthy (retryAfter e) = false ->
         exists secs, (1 <= secs)%Z /\ ra = VNum (ofZ secs))) /\
  (forall body pre line post s results s1 idv e s2,
      arrayOrEmpty (getPropOpt body "lines") = (pre ++ line :: post)%list ->
      forOf (resolveLines_line B W) pre [] s = (Ret (inr results), s1) ->
      getProp line "id" = Ret idv ->
      isFinite (Number B idv) = true ->
      fetchItemByIdCached B W (VNum (Number B idv)) s1 = (Throw e, s2) ->
      is429 B e = true ->
      exists ra s3,
        resolveLines B W body s = (Ret (Json429 (errText e) ra results), s3) /\
        (truthy (retryAfter e) = true -> ra = retryAfter e /\ s3 = s2) /\
        (truthy (retryAfter e) = false ->
         exists secs, (1 <= secs)%Z /\ ra = VNum (ofZ secs))).
Proof.
  split; [apply strivenApiError_429 |]. split.
  - intros body pre n post s results s1 e s2 Hbody Hpre Hid Hf H429.
    destruct (fetchLine_429 B W _ (ErrorByNumber (normalizeKey B n) (normalizeKey B n))
                results s1 s2 e Hf H429) as (ra & s3 & Hline & Hra).
    exists ra, s3. split; [| exact Hra].
    unfold resolveByNumber. cbv zeta. rewrite Hbody.
    unfold tryCatch at 1. rewrite length_app_cons_nonzero.
    apply (handler_stops B (resolveByNumber_line B W) pre post n results s s1 s3);
      [exact Hpre |].
    unfold resolveByNumber_line. cbv zeta. rewrite Hid. cbn [negb].
    unfold bind. rewrite Hline. reflexivity.
  - intros body pre line post s results s1 idv e s2 Hbody Hpre Hid Hfin Hf H429.
    destruct (fetchLine_429 B W _ (ErrorById (Number B idv))
                results s1 s2 e Hf H429) as (ra & s3 & Hline & Hra).
    exists ra, s3. split; [| exact Hra].
    unfold resolveLines. cbv zeta. rewrite Hbody.
    unfold tryCatch at 1. rewrite length_app_cons_nonzero.
    apply (handler_stops B (resolveLines_line B W) pre post line results s s1 s3);
      [exact Hpre |].
    rewrite (resolveLines_line_finite B W line idv results s1 Hid Hfin).
    unfold bind. rewrite Hline. reflexivity.
Qed.

Lemma status429_aborts_witness :
  let W := sampleWorld secondsClock (networkFailing 429 (Some "7")) 90 in
  exists s3,
    resolveLines sampleBuiltins W (VObj [("lines", VArr [lineOfId 1; lineOfId 2])])
      (initialState W) =
    (Ret (Json429 "Striven API error 429 on /v1/items/1: busy" (VNum (ofZ 7)) []), s3).
Proof.
  intros W.
  destruct (status429_aborts sampleBuiltins W) as (_ & _ & Hlines).
  set (s := initialState W).
  set (run := fetchItemByIdCached sampleBuiltins W (VNum (ofZ 1)) s).
  set (e := match fst run with Throw e => e | Ret _ => TypeError end).
  destruct (Hlines (VObj [("lines", VArr [lineOfId 1; lineOfId 2])])
              [] (lineOfId 1) [lineOfId 2] s [] s (VNum (ofZ 1)) e (snd run))
    as (ra & s3 & Hrun & Hra & _); try reflexivity.
  destruct (Hra eq_refl) as [-> _].
  exists s3. exact Hrun.
Defined.

(** A fetched item on which the pricing throws ends the batch with the
    reply of the last [catch], of status 500: the lines made so far are not
    sent. *)
Theorem pricing_failure_ends_batch (B : Builtins) (W : World) :
  (forall body pre n post s results s1 item s2,
      arrayOrEmpty (getPropOpt body "itemNumbers") = (pre ++ n :: post)%list ->
      forOf (resolveByNumber_line B W) pre [] s = (Ret (inr results), s1) ->
      truthy (lookupItemId W (normalizeKey B n)) = true ->
      fetchItemByIdCached B W (lookupItemId W (normalizeKey B n)) s1 = (Ret item, s2) ->
      pricingFails item = true ->
      resolveByNumber B W body s =
      (Ret (JsonError (Fin 500) (errText TypeError) VUndef), s2)) /\
  (forall body pre line post s results s1 idv item s2,
      arrayOrEmpty (getPropOpt body "lines") = (pre ++ line :: post)%list ->
      forOf (resolveLines_line B W) pre [] s = (Ret (inr results), s1) ->
      getProp line "id" = Ret idv ->
      isFinite (Number B idv) = true ->
      fetchItemByIdCached B W (VNum (Number B idv)) s1 = (Ret item, s2) ->
      pricingFails item = true ->
      resolveLines B W body s =
      (Ret (JsonError (Fin 500) (errText TypeError) VUndef), s2)).
Proof.
  assert (Hres : forall item, pricingFails item = true -> resolvedOf B item = Throw TypeError).
  { intros item Hp. pose proof (resolvedOf_throws B item) as H.
    destruct (resolvedOf B item) as [r | e]; [congruence |]. destruct H as [-> _]. reflexivity. }
  split.
  - intros body pre n post s results s1 item s2 Hbody Hpre Hid Hf Hp.
    unfold resolveByNumber. cbv zeta. rewrite Hbody.
    unfold tryCatch at 1. rewrite length_app_cons_nonzero.
    transitivity (catchAll B TypeError s2); [| reflexivity].
    apply (handler_throws B (resolveByNumber_line B W) pre post n results s s1 s2 TypeError);
      [exact Hpre |].
    unfold resolveByNumber_line. cbv zeta. rewrite Hid. cbn [negb].
    unfold bind. rewrite (fetchLine_got B W _ _ results s1 s2 item Hf).
    unfold liftC. rewrite (Hres item Hp). reflexivity.
  - intros body pre line post s results s1 idv item s2 Hbody Hpre Hid Hfin Hf Hp.
    unfold resolveLines. cbv zeta. rewrite Hbody.
    unfold tryCatch at 1. rewrite length_app_cons_nonzero.
    transitivity (catchAll B TypeError s2); [| reflexivity].
    apply (handler_throws B (resolveLines_line B W) pre post line results s s1 s2 TypeError);
      [exact Hpre |].
    rewrite (resolveLines_line_finite B W line idv results s1 Hid Hfin). unfold bind.
    rewrite (fetchLine_got B W _ _ results s1 s2 item Hf).
    unfold liftC. rewrite (Hres item Hp). reflexivity.
Qed.

Lemma pricing_failure_ends_batch_witness :
  let W := sampleWorld secondsClock (networkServing VNull) 90 in
  fst (resolveLines sampleBuiltins W (VObj [("lines", VArr [lineOfId 1; lineOfId 2])])
         (initialState W)) =
  Ret (JsonError (Fin 500) "TypeError" VUndef).
Proof.
  intros W.
  destruct (pricing_failure_ends_batch sampleBuiltins W) as [_ Hlines].
  set (s := initialState W).
  set (run := fetchItemByIdCached sampleBuiltins W (VNum (ofZ 1)) s).
  rewrite (Hlines (VObj [("lines", VArr [lineOfId 1; lineOfId 2])])
             [] (lineOfId 1) [lineOfId 2] s [] s (VNum (ofZ 1)) VNull (snd run));
    reflexivity.
Defined.

(** ** The lookup of an item number *)

(** A key that a plain object inherits has a truthy value: a function, or
    the prototype. *)
Lemma objectPrototype_truthy (key : string) :
  lookupField key objectPrototype = VUndef \/
  truthy (lookupField key objectPrototype) = true.
Proof.
  unfold objectPrototype. cbn [lookupField].
  repeat match goal with
         | |- context [String.eqb key ?k] => destruct (String.eqb key k)
         end; auto.
Qed.

Lemma getIndex_own (key : string) (fs : list (string * JsVal)) (v : JsVal) :
  lookupOwn key fs = Some v -> getIndex key fs = v.
Proof. unfold getIndex. intros ->. reflexivity. Qed.

Lemma getIndex_inherited (key : string) (fs : list (string * JsVal)) :
  lookupOwn key fs = None -> getIndex key fs = lookupField key objectPrototype.
Proof. unfold getIndex. intros ->. reflexivity. Qed.

(** The id of an item number is the property of that name of the number map
    when it is truthy; the property of the name map when the number map has
    none or [null]; and the falsy property of the number map itself
    otherwise (0, the empty string, [false]): then the name map is not
    consulted.  A property of a map is its own entry or, for a key without
    an entry, what every object inherits: the item number "constructor",
    which no file lists, has the function [Object] for its id.  A key
    without a truthy id gets the error record of the mapping files at once:
    the state is untouched, nothing is fetched and no call is counted. *)
Theorem lookupItemId_precedence (B : Builtins) (W : World) (key : string) :
  let a := getIndex key (itemNumberToId W) in
  let b := getIndex key (itemNameToIdMissingNumber W) in
  (truthy a = true -> lookupItemId W key = a) /\
  (nullish a = true -> lookupItemId W key = b) /\
  (truthy a = false -> nullish a = false ->
   lookupItemId W key = a /\ truthy (lookupItemId W key) = false) /\
  (forall v, lookupOwn key (itemNumberToId W) = Some v -> a = v) /\
  (lookupOwn key (itemNumberToId W) = None ->
   a = lookupField key objectPrototype /\
   (a <> VUndef -> lookupItemId W key = a /\ truthy (lookupItemId W key) = true)) /\
  (forall n results s,
      normalizeKey B n = key ->
      truthy (lookupItemId W key) = false ->
      resolveByNumber_line B W n results s =
      (Ret (inr (push results (ErrorByNumber key key NO_ID_FOUND))), s)).
Proof.
  intros a b. unfold lookupItemId. fold a. fold b.
  split; [| split; [| split; [| split; [| split]]]].
  - intros Ht. rewrite Ht. reflexivity.
  - intros Hn. rewrite Hn.
    assert (Ht : truthy a = false) by (destruct a; try discriminate; reflexivity).
    rewrite Ht. reflexivity.
  - intros Ht Hn. rewrite Ht, Hn. split; [reflexivity | exact Ht].
  - intros v Hown. apply getIndex_own, Hown.
  - intros Hnone.
    assert (Ha : a = lookupField key objectPrototype) by apply getIndex_inherited, Hnone.
    split; [exact Ha |]. intros Hdef.
    assert (Ht : truthy a = true).
    { destruct (objectPrototype_truthy key) as [Hu | Ht].
      - exfalso. apply Hdef. rewrite Ha. exact Hu.
      - rewrite Ha. exact Ht. }
    rewrite Ht. split; [reflexivity | exact Ht].
  - intros n results s Hkey Hid. unfold resolveByNumber_line. cbv zeta.
    rewrite Hkey. unfold lookupItemId. fold a. fold b. rewrite Hid. reflexivity.
Qed.

Lemma lookupItemId_precedence_witness :
  let W := {| clock := secondsClock; network := networkServing sampleItem;
              STRIVEN_MAX_CALLS_PER_MIN := 90;
              CLIENT_ID := "client"; CLIENT_SECRET := "secret";
              itemNumberToId := [("A-1", VNum (Fin 0)); ("A-2", VNull)];
              itemNameToIdMissingNumber := [("A-1", VNum (Fin 5)); ("A-2", VNum (Fin 6))] |} in
  lookupItemId W "A-1" = VNum (Fin 0) /\
  lookupItemId W "A-2" = VNum (Fin 6) /\
  lookupItemId W "constructor" = VFun "Object" /\
  resolveByNumber_line sampleBuiltins W (VStr "A-1") [] (initialState W) =
  (Ret (inr [ErrorByNumber "A-1" "A-1" NO_ID_FOUND]), initialState W).
Proof.
  intros W.
  destruct (lookupItemId_precedence sampleBuiltins W "A-1") as (_ & _ & Hfalsy & _ & _ & Hline).
  destruct (lookupItemId_precedence sampleBuiltins W "A-2") as (_ & Hnull & _).
  destruct (lookupItemId_precedence sampleBuiltins W "constructor")
    as (_ & _ & _ & _ & Hinh & _).
  destruct (Hfalsy eq_refl eq_refl) as [Ha Hf].
  destruct (Hinh eq_refl) as [_ Hfun].
  destruct Hfun as [Hc _]; [discriminate |].
  split; [exact Ha |]. split; [exact (Hnull eq_refl) |]. split; [exact Hc |].
  exact (Hline (VStr "A-1") [] (initialState W) eq_refl Hf).
Defined.

Section ByNumber.

Variable B : Builtins.
Variable W : World.

(** What one turn of the loop of /api/resolve-by-number can return. *)
Lemma resolveByNumber_line_outcome (n : JsVal) (acc : list Line) (s s1 : State)
    (r : Reply + list Line) :
  resolveByNumber_line B W n acc s = (Ret r, s1) ->
  match r with
  | inl reply => exists msg ra, reply = Json429 msg ra acc
  | inr acc' => exists out, acc' = push acc out /\ isRecordOf B n out
  end.
Proof.
  unfold resolveByNumber_line, isRecordOf. cbv zeta.
  destruct (negb (truthy (lookupItemId W (normalizeKey B n)))).
  - intros H. injection H as <- _. eexists. split; [reflexivity |]. left. eexists. reflexivity.
  - unfold bind at 1.
    destruct (fetchLine_outcome B W (lookupItemId W (normalizeKey B n))
                (ErrorByNumber (normalizeKey B n) (normalizeKey B n)) acc s)
      as (f & s' & -> & Hf).
    destruct f as [item | reply | results'].
    + unfold bind, liftC. destruct (resolvedOf B item) as [res | e]; [| discriminate].
      intros H. injection H as <- _. eexists. split; [reflexivity |]. right. eexists. reflexivity.
    + intros H. injection H as <- _. exact Hf.
    + intros H. injection H as <- _. destruct Hf as (msg & ->).
      eexists. split; [reflexivity |]. left. eexists. reflexivity.
Qed.

Lemma forOf_resolveByNumber (ns : list JsVal) :
  forall acc s s1 r,
    forOf (resolveByNumber_line B W) ns acc s = (Ret r, s1) ->
    match r with
    | inl reply => exists msg ra results, reply = Json429 msg ra results
    | inr results =>
        exists new, results = (acc ++ new)%list /\ Forall2 (isRecordOf B) ns new
    end.
Proof.
  induction ns as [|n ns IH]; intros acc s s1 r; simpl.
  - intros H. injection H as <- _. exists []. split; [symmetry; apply app_nil_r | constructor].
  - unfold bind.
    destruct (resolveByNumber_line B W n acc s) as [[r0 | e] s0] eqn:Hline; [| discriminate].
    pose proof (resolveByNumber_line_outcome n acc s s0 r0 Hline) as Hout.
    destruct r0 as [reply | acc'].
    + intros H. injection H as <- _. destruct Hout as (msg & ra & ->). eauto.
    + intros H. specialize (IH acc' s0 s1 r H).
      destruct r as [reply | results]; [exact IH |].
      destruct IH as (new & -> & Hnew). destruct Hout as (out & -> & Hout).
      exists (out :: new). split; [unfold push; rewrite <- app_assoc; reflexivity |].
      constructor; assumption.
Qed.

End ByNumber.

(** When /api/resolve-by-number answers with its [lines], there is exactly
    one record for each requested item number, in the order of the request:
    an error or a resolved item, marked with the normalized key of the
    request.  No request is skipped. *)
Theorem resolveByNumber_records (B : Builtins) (W : World) (body : JsVal)
    (s s' : State) (results : list Line) :
  resolveByNumber B W body s = (Ret (Json200 results), s') ->
  let itemNumbers := arrayOrEmpty (getPropOpt body "itemNumbers") in
  Forall2 (isRecordOf B) itemNumbers results /\
  length results = length itemNumbers /\
  itemNumbers <> [].
Proof.
  intros Hrun itemNumbers.
  unfold resolveByNumber, tryCatch in Hrun. cbv zeta in Hrun. fold itemNumbers in Hrun.
  destruct (length itemNumbers =? 0)%nat eqn:Hlen; [discriminate |].
  unfold bind in Hrun.
  destruct (forOf (resolveByNumber_line B W) itemNumbers [] s) as [[r | e] s1] eqn:Hloop;
    [| discriminate].
  pose proof (forOf_resolveByNumber B W itemNumbers [] s s1 r Hloop) as Hout.
  destruct r as [reply | res]; cbn [finish] in Hrun.
  - destruct Hout as (msg & ra & l & ->). discriminate.
  - injection Hrun as <- _. destruct Hout as (new & -> & Hnew). cbn [app].
    split; [exact Hnew |]. split; [symmetry; apply (Forall2_length _ _ _ Hnew) |].
    intros Hnil. rewrite Hnil in Hlen. discriminate.
Qed.

Lemma resolveByNumber_records_witness :
  let W := sampleWorld secondsClock (networkServing sampleItem) 90 in
  let body := VObj [("itemNumbers", VArr [VStr "A-100"; VStr "nowhere"; VStr "Winch"])] in
  let out := resolveByNumber sampleBuiltins W body (initialState W) in
  exists results, fst out = Ret (Json200 results) /\ length results = 3%nat.
Proof.
  intros W body out.
  set (results := match fst out with Ret (Json200 r) => r | _ => [] end).
  assert (Hrun : out = (Ret (Json200 results), snd out)) by (vm_compute; reflexivity).
  destruct (resolveByNumber_records sampleBuiltins W body (initialState W) (snd out) results Hrun)
    as (_ & Hlen & _).
  exists results. split; [rewrite Hrun; reflexivity | exact Hlen].
Defined.

(** ** The seconds to wait *)

Lemma secondsLeft_le_60 (now start : Z) :
  (start <= now)%Z -> (secondsLeft now start <= 60)%Z.
Proof.
  intros H. unfold secondsLeft. apply Z.max_lub; [lia |].
  set (m := Z.max 0 (60000 - (now - start))).
  assert (Hm : (m <= 60000)%Z) by (unfold m; lia).
  rewrite <- (Qceiling_Z 60). apply Qceiling_resp_le.
  apply Qle_shift_div_r; [reflexivity |].
  change (inject_Z 60 * 1000) with (inject_Z 60000). rewrite <- Zle_Qle. exact Hm.
Qed.

(** The whole seconds that hold [m] milliseconds. *)
Lemma ceil_thousandth (m : Z) :
  let c := Qceiling (inject_Z m / 1000) in
  ((c - 1) * 1000 < m <= c * 1000)%Z.
Proof.
  cbv zeta. set (c := Qceiling (inject_Z m / 1000)).
  pose proof (Qle_ceiling (inject_Z m / 1000)) as Hle. fold c in Hle.
  pose proof (Qceiling_lt (inject_Z m / 1000)) as Hlt. fold c in Hlt.
  assert (Hm : inject_Z m == inject_Z m / 1000 * 1000) by field.
  set (q := inject_Z m / 1000) in *. clearbody q.
  split.
  - rewrite Zlt_Qlt, inject_Z_mult, Hm. change (inject_Z 1000) with 1000. lra.
  - rewrite Zle_Qle, inject_Z_mult, Hm. change (inject_Z 1000) with 1000. lra.
Qed.

(** [getRetryAfterSeconds] first makes the reset check of the window: a
    window that has elapsed at the first reading of the clock restarts there
    with a count of 0, any other window is left as it is.  It then reports
    the time the window has left at the second reading, in whole seconds
    rounded up, and 1 second when no time is left: at least 1 and, when the
    clock does not run backwards, at most 60.  It sends nothing. *)
Theorem getRetryAfterSeconds_bounds (W : World) (s : State) :
  let t1 := clock W (ticks s) in
  let t2 := clock W (S (ticks s)) in
  exists secs s',
    getRetryAfterSeconds W s = (Ret secs, s') /\
    ((60000 <= t1 - windowStartMs s)%Z ->
     windowStartMs s' = t1 /\ windowCount s' = 0%Z) /\
    ((t1 - windowStartMs s < 60000)%Z ->
     windowStartMs s' = windowStartMs s /\ windowCount s' = windowCount s) /\
    (let msLeft := (60000 - (t2 - windowStartMs s'))%Z in
     ((msLeft <= 0)%Z -> secs = 1%Z) /\
     ((0 < msLeft)%Z -> ((secs - 1) * 1000 < msLeft <= secs * 1000)%Z)) /\
    (1 <= secs)%Z /\
    ((windowStartMs s <= t1)%Z -> (t1 <= t2)%Z -> (secs <= 60)%Z) /\
    sent s' = sent s.
Proof.
  intros t1 t2. rewrite getRetryAfterSeconds_run. cbv zeta.
  cbn [ticks tick windowStartMs windowCount sent]. rewrite resetWindow_ticks.
  fold t1. fold t2.
  do 2 eexists. split; [reflexivity |].
  cbn [ticks tick windowStartMs windowCount sent].
  split; [| split; [| split; [| split; [| split]]]].
  - intros He. rewrite resetWindow_elapsed by exact He. split; reflexivity.
  - intros Hw. rewrite resetWindow_within by exact Hw. split; reflexivity.
  - unfold secondsLeft. set (start := windowStartMs (resetWindow t1 s)).
    split.
    + intros H0. rewrite (Z.max_l 0 (60000 - (t2 - start))) by lia. reflexivity.
    + intros H0. rewrite (Z.max_r 0 (60000 - (t2 - start))) by lia.
      pose proof (ceil_thousandth (60000 - (t2 - start))) as Hc. cbv zeta in Hc.
      set (c := Qceiling (inject_Z (60000 - (t2 - start)) / 1000)) in *.
      assert (H1 : (1 <= c)%Z) by lia.
      rewrite Z.max_r by exact H1. exact Hc.
  - apply secondsLeft_pos.
  - intros H1 H2. apply secondsLeft_le_60. unfold resetWindow.
    destruct (60000 <=? t1 - windowStartMs s)%Z; cbn [windowStartMs setWindow]; lia.
  - apply resetWindow_sent.
Qed.

Lemma getRetryAfterSeconds_bounds_witness :
  let W := sampleWorld secondsClock (networkServing sampleItem) 90 in
  exists secs s',
    getRetryAfterSeconds W (initialState W) = (Ret secs, s') /\ (1 <= secs <= 60)%Z /\
    windowCount s' = windowCount (initialState W).
Proof.
  intros W.
  destruct (getRetryAfterSeconds_bounds W (initialState W))
    as (secs & s' & Hrun & _ & Hkeep & _ & H1 & H60 & _).
  exists secs, s'. split; [exact Hrun |]. split.
  - split; [exact H1 |]. apply H60; vm_compute; discriminate.
  - apply Hkeep. reflexivity.
Defined.

(** ** What a failed exchange leaves of the token *)

(** What [getAccessToken] returns is the cached token.  When the token is
    not fresh and the exchange fails before a token has been read (the
    request is not answered, the answer is not ok, its body is not JSON, or
    its JSON is [null]), [getAccessToken] throws an error without a status,
    and the cached token and its expiry are as they were. *)
Theorem getAccessToken_token (B : Builtins) (W : World) (s : State) :
  (forall tok s', getAccessToken B W s = (Ret tok, s') -> cachedToken s' = tok) /\
  (tokenFresh s (clock W (ticks s)) = false ->
   let kept := fun s' : State =>
     cachedToken s' = cachedToken s /\ tokenExpiresAt s' = tokenExpiresAt s in
   (forall reason,
       network W (length (sent s)) (tokenRequest B W) = NetworkFailure reason ->
       exists s', getAccessToken B W s = (Throw (mkError reason VUndef VUndef), s') /\
                  kept s') /\
   (forall res,
       network W (length (sent s)) (tokenRequest B W) = Responded res ->
       (resOk res = false ->
        exists e s', getAccessToken B W s = (Throw e, s') /\
                     status e = VUndef /\ kept s') /\
       (resOk res = true -> resJson res = None ->
        exists e s', getAccessToken B W s = (Throw e, s') /\
                     status e = VUndef /\ kept s') /\
       (resOk res = true ->
        forall j, resJson res = Some j -> nullish j = true ->
        exists s', getAccessToken B W s = (Throw TypeError, s') /\ kept s'))).
Proof.
  split.
  - intros tok s'.
    destruct (tokenFresh s (clock W (ticks s))) eqn:Hf.
    + rewrite (getAccessToken_fresh B W s Hf). intros H. injection H as <- <-. reflexivity.
    + rewrite (getAccessToken_exchange B W s Hf).
      unfold bind at 1, fetch. cbn [sent tick].
      destruct (network W _ _) as [reason | res]; [discriminate |].
      destruct (negb (resOk res)); [discriminate |].
      unfold bind at 1, json. destruct (resJson res) as [j |]; [| discriminate].
      unfold ret at 1. unfold bind at 1, liftC at 1.
      destruct (getProp j "access_token") as [tok0 | e] eqn:Htok; [| discriminate].
      assert (Hnn : nullish j = false) by (destruct j; try discriminate; reflexivity).
      unfold bind at 1, modify at 1. unfold bind at 1, liftC.
      rewrite (getProp_not_nullish j "expires_in" Hnn).
      intros H. injection H as <- <-. reflexivity.
  - intros Hf kept. rewrite (getAccessToken_exchange B W s Hf). split.
    + intros reason Hnet. unfold bind at 1, fetch. cbn [sent tick]. rewrite Hnet.
      eexists. split; [reflexivity |]. split; reflexivity.
    + intros res Hnet. split; [| split].
      * intros Hok. unfold bind at 1, fetch. cbn [sent tick]. rewrite Hnet, Hok.
        cbn [negb]. do 2 eexists. split; [reflexivity |].
        split; [reflexivity |]. split; reflexivity.
      * intros Hok Hj. unfold bind at 1, fetch. cbn [sent tick]. rewrite Hnet, Hok.
        cbn [negb]. unfold bind at 1, json. rewrite Hj.
        do 2 eexists. split; [reflexivity |]. split; [reflexivity |]. split; reflexivity.
      * intros Hok j Hj Hnull. unfold bind at 1, fetch. cbn [sent tick].
        rewrite Hnet, Hok. cbn [negb]. unfold bind at 1, json. rewrite Hj.
        unfold ret at 1. unfold bind at 1, liftC at 1.
        assert (Hget : getProp j "access_token" = Throw TypeError)
          by (destruct j; try discriminate; reflexivity).
        rewrite Hget. eexists. split; [reflexivity |]. split; reflexivity.
Qed.

Lemma getAccessToken_token_witness :
  let W := sampleWorld secondsClock networkRefusing 90 in
  exists e s', getAccessToken sampleBuiltins W (initialState W) = (Throw e, s') /\
               status e = VUndef /\ cachedToken s' = VNull.
Proof.
  intros W.
  destruct (getAccessToken_token sampleBuiltins W (initialState W)) as [_ Hfail].
  destruct (Hfail eq_refl) as [_ Hres].
  destruct (Hres _ eq_refl) as [Hbad _].
  destruct (Hbad eq_refl) as (e & s' & Hrun & Hst & Htok & _).
  exists e, s'. split; [exact Hrun |]. split; [exact Hst | exact Htok].
Defined.

(** ** What a fetch does to the cache *)

Section Quiet.

Variable B : Builtins.
Variable W : World.
Variable P : State -> Prop.

(** [P] looks at the rate window and at the cache only. *)
Hypothesis P_quiet :
  forall s s',
    windowStartMs s' = windowStartMs s -> windowCount s' = windowCount s ->
    itemByIdCache s' = itemByIdCache s -> P s -> P s'.

Lemma quiet_DateNow : preserves P (DateNow W).
Proof. intros s Hs. apply (P_quiet s); [reflexivity .. | exact Hs]. Qed.

Lemma quiet_fetch (r : Request) : preserves P (fetch W r).
Proof.
  intros s Hs. unfold fetch.
  destruct (network W _ r); apply (P_quiet s); (reflexivity || exact Hs).
Qed.

Lemma quiet_getAccessToken : preserves P (getAccessToken B W).
Proof.
  unfold getAccessToken.
  apply preserves_bind; [apply quiet_DateNow | intros now].
  apply preserves_bind; [apply preserves_get | intros s].
  destruct (_ && _)%bool; [apply preserves_ret |].
  apply preserves_bind; [apply quiet_fetch | intros res].
  destruct (negb (resOk res)); [apply preserves_throw |].
  apply preserves_bind; [apply preserves_json | intros j].
  apply preserves_bind; [apply preserves_liftC | intros tok].
  apply preserves_bind.
  { apply preserves_modify. intros s0 Hs. apply (P_quiet s0); (reflexivity || exact Hs). }
  intros _. apply preserves_bind; [apply preserves_liftC | intros ex].
  apply preserves_bind; [apply quiet_DateNow | intros now'].
  apply preserves_bind; [| intros _; apply preserves_ret].
  apply preserves_modify. intros s0 Hs. apply (P_quiet s0); (reflexivity || exact Hs).
Qed.

Lemma quiet_strivenCall (path meth : string) : preserves P (strivenCall B W path meth).
Proof.
  unfold strivenCall.
  apply preserves_bind; [apply quiet_getAccessToken | intros token].
  apply preserves_bind; [apply quiet_fetch | intros res].
  destruct (negb (resOk res)); [apply preserves_throw | apply preserves_json].
Qed.

End Quiet.

Section CacheLocality.

Variable B : Builtins.
Variable W : World.

Lemma strivenCall_cache (path meth : string) (s : State) :
  itemByIdCache (snd (strivenCall B W path meth s)) = itemByIdCache s.
Proof.
  apply (quiet_strivenCall B W (fun s' => itemByIdCache s' = itemByIdCache s));
    [| reflexivity].
  intros s1 s2 _ _ Hc H. congruence.
Qed.

(** A fetch from Striven that throws stores nothing; one that returns has
    stored what it returns under the string form of the identifier, stamped
    with the last reading of the clock, and has touched no other key. *)
Lemma fetchAndStore_cache (id : JsVal) (s s' : State) (r : Completion JsVal) :
  fetchAndStore B W id s = (r, s') ->
  match r with
  | Throw _ => itemByIdCache s' = itemByIdCache s
  | Ret item =>
      itemByIdCache s' =
      <[ToString B id := {| ts := clock W (pred (ticks s')); value := item |}]>
        (itemByIdCache s)
  end.
Proof.
  rewrite fetchAndStore_guard.
  pose proof (rateGuard_cache B W s) as Hg.
  destruct (rateGuard B W s) as [[[] | e] s1]; cbn [snd] in Hg.
  - unfold bind at 1.
    pose proof (strivenCall_cache ("/v1/items/" +:+ ToString B id) "GET" s1) as Hc.
    destruct (strivenCall B W _ "GET" s1) as [[item | e] s2]; cbn [snd] in Hc.
    + unfold bind. rewrite cacheSetItem_run. unfold ret.
      intros H. injection H as <- <-. cbn [itemByIdCache setCache ticks tick pred].
      rewrite Hc, Hg. reflexivity.
    + intros H. injection H as <- <-. congruence.
  - intros H. injection H as <- <-. exact Hg.
Qed.

End CacheLocality.

(** [fetchItemByIdCached] changes the cache at the key of its identifier
    only: the entries of the other keys are neither replaced nor evicted.
    When it throws, it has stored nothing: the cache holds what the lookup
    left. *)
Theorem fetchItemByIdCached_locality (B : Builtins) (W : World) (id : JsVal)
    (s s' : State) (r : Completion JsVal) :
  fetchItemByIdCached B W id s = (r, s') ->
  (forall k, k <> ToString B id -> itemByIdCache s' !! k = itemByIdCache s !! k) /\
  (forall e, r = Throw e ->
             itemByIdCache s' = itemByIdCache (snd (cacheGetItem B W id s))).
Proof.
  intros Hrun.
  destruct (cacheGetItem_returns B W id s) as (cached & s1 & Hget).
  rewrite (fetchItemByIdCached_after B W id cached s s1 Hget) in Hrun.
  assert (Hlookup : forall k, k <> ToString B id ->
                              itemByIdCache s1 !! k = itemByIdCache s !! k).
  { intros k Hk.
    destruct (itemByIdCache s !! ToString B id) as [hit |] eqn:H.
    - destruct (Z_lt_le_dec ITEM_CACHE_TTL_MS (clock W (ticks s) - ts hit)) as [Hlt | Hle].
      + rewrite (cacheGetItem_expired B W id s hit H Hlt) in Hget.
        injection Hget as _ <-. cbn [itemByIdCache setCache tick].
        apply lookup_delete_ne. congruence.
      + rewrite (cacheGetItem_live B W id s hit H Hle) in Hget.
        injection Hget as _ <-. reflexivity.
    - rewrite (cacheGetItem_absent B W id s H) in Hget.
      injection Hget as _ <-. reflexivity. }
  rewrite Hget. cbn [snd].
  destruct (truthy cached).
  - injection Hrun as <- <-. split; [exact Hlookup | discriminate].
  - pose proof (fetchAndStore_cache B W id s1 s' r Hrun) as Hc.
    destruct r as [item | e].
    + split; [| discriminate]. intros k Hk. rewrite Hc, lookup_insert_ne by congruence.
      apply Hlookup, Hk.
    + split; [intros k Hk; rewrite Hc; apply Hlookup, Hk | intros _ _; exact Hc].
Qed.

(** After a fetch from Striven has returned a truthy item, a second fetch
    of the same identifier within the TTL returns that item from the cache:
    it sends nothing and leaves the window as it is. *)
Theorem second_fetch_from_cache (B : Builtins) (W : World) (id item : JsVal)
    (s s1 : State) :
  fetchAndStore B W id s = (Ret item, s1) ->
  truthy item = true ->
  (clock W (ticks s1) - clock W (pred (ticks s1)) <= ITEM_CACHE_TTL_MS)%Z ->
  fetchItemByIdCached B W id s1 = (Ret item, tick s1) /\
  sent (tick s1) = sent s1 /\
  windowCount (tick s1) = windowCount s1.
Proof.
  intros Hrun Hv Httl.
  pose proof (fetchAndStore_cache B W id s s1 (Ret item) Hrun) as Hc. cbn in Hc.
  assert (Hentry : itemByIdCache s1 !! ToString B id =
                   Some {| ts := clock W (pred (ticks s1)); value := item |}).
  { rewrite Hc. apply lookup_insert_eq. }
  pose proof (cacheGetItem_live B W id s1 _ Hentry Httl) as Hget. cbn [value] in Hget.
  rewrite (fetchItemByIdCached_after B W id item s1 (tick s1) Hget), Hv.
  repeat split.
Qed.

Lemma second_fetch_from_cache_witness :
  let W := sampleWorld secondsClock (networkServing sampleItem) 90 in
  let s1 := snd (fetchAndStore sampleBuiltins W (VNum (Fin 7)) (initialState W)) in
  fetchItemByIdCached sampleBuiltins W (VNum (Fin 7)) s1 = (Ret sampleItem, tick s1).
Proof.
  intros W s1.
  destruct (second_fetch_from_cache sampleBuiltins W (VNum (Fin 7)) sampleItem
              (initialState W) s1) as [H _].
  - vm_compute. reflexivity.
  - reflexivity.
  - vm_compute. discriminate.
  - exact H.
Defined.

Lemma fetchItemByIdCached_locality_witness :
  let W := sampleWorld secondsClock networkRefusing 90 in
  let s := stateWith 0 0 VNull (Fin 0) nullCache in
  let s' := snd (fetchItemByIdCached sampleBuiltins W (VNum (Fin 8)) s) in
  itemByIdCache s' !! "7" = Some {| ts := 0; value := VNull |}.
Proof.
  intros W s s'.
  destruct (fetchItemByIdCached_locality sampleBuiltins W (VNum (Fin 8)) s s'
              (fst (fetchItemByIdCached sampleBuiltins W (VNum (Fin 8)) s)))
    as [Hother _].
  - vm_compute. reflexivity.
  - rewrite (Hother "7"); [reflexivity | discriminate].
Defined.

(** ** The calls of a window *)

Section Ledger.

Variable B : Builtins.
Variable W : World.
Variable start : Z.

(** The clock stays inside the window that started at [start]. *)
Hypothesis clock_within : forall k, (clock W k - start < 60000)%Z.

Lemma itemRequests_token (s : State) (l : list Request) :
  sent s = tokenRequest B W :: l ->
  itemRequests s = Z.of_nat (length (List.filter isItemRequest l)).
Proof. intros H. unfold itemRequests. rewrite H. reflexivity. Qed.

Lemma getAccessToken_itemRequests (s : State) :
  itemRequests (snd (getAccessToken B W s)) = itemRequests s.
Proof.
  destruct (tokenFresh s (clock W (ticks s))) eqn:Hf.
  - rewrite (getAccessToken_fresh B W s Hf). reflexivity.
  - apply itemRequests_token, getAccessToken_exchange_sent, Hf.
Qed.

Lemma logRequest_itemRequests (s : State) (r : Request) :
  (itemRequests (logRequest s r) <= itemRequests s + 1)%Z.
Proof.
  unfold itemRequests. cbn [sent logRequest List.filter].
  destruct (isItemRequest r); cbn [length]; lia.
Qed.

Lemma strivenCall_ledger (path meth : string) (d : Z) (s : State) :
  quotaLedger start (d - 1) s ->
  quotaLedger start d (snd (strivenCall B W path meth s)).
Proof.
  intros [Hstart Hd].
  pose proof (getAccessToken_itemRequests s) as Hreq.
  assert (Hwin : sameWindow s (snd (getAccessToken B W s))).
  { apply (preserves_getAccessToken B W (sameWindow s) (windowOnly_sameWindow s)).
    split; reflexivity. }
  unfold strivenCall, bind at 1.
  destruct (getAccessToken B W s) as [[tok | e] s1]; cbn [snd] in Hreq, Hwin;
    destruct Hwin as [Hst Hct].
  - assert (Hlog : forall r, quotaLedger start d (logRequest s1 r)).
    { intros r. pose proof (logRequest_itemRequests s1 r) as Hr.
      split; cbn [windowStartMs windowCount logRequest] in *; [congruence | lia]. }
    unfold bind, fetch.
    destruct (network W _ _) as [reason | res]; [apply Hlog |].
    destruct (negb (resOk res)); [apply Hlog |].
    unfold json. destruct (resJson res); apply Hlog.
  - split; cbn [snd]; [congruence | lia].
Qed.

Lemma rateGuard_ledger (d : Z) (s : State) :
  quotaLedger start d s ->
  match rateGuard B W s with
  | (Ret _, s') => quotaLedger start (d - 1) s'
  | (Throw _, s') => quotaLedger start d s'
  end.
Proof.
  intros [Hstart Hd]. rewrite rateGuard_run. cbv zeta.
  rewrite (resetWindow_within _ s) by (rewrite Hstart; apply clock_within).
  cbn [ticks tick windowCount].
  rewrite (resetWindow_within _ (tick s)) by (cbn; rewrite Hstart; apply clock_within).
  destruct (windowCount s <? STRIVEN_MAX_CALLS_PER_MIN W)%Z;
    (split; [exact Hstart | unfold itemRequests in *; cbn; lia]).
Qed.

Lemma preserves_ledger_cacheGetItem (d : Z) (id : JsVal) :
  preserves (quotaLedger start d) (cacheGetItem B W id).
Proof.
  intros s [Hstart Hd].
  destruct (cacheGetItem_frame B W id s) as [[Hst Hct] Hsent].
  split; [congruence |]. unfold itemRequests in *. rewrite Hsent, Hct. exact Hd.
Qed.

Lemma preserves_ledger_fetchItemByIdCached (d : Z) (id : JsVal) :
  preserves (quotaLedger start d) (fetchItemByIdCached B W id).
Proof.
  apply preserves_bind; [apply preserves_ledger_cacheGetItem | intros cached].
  destruct (truthy cached); [apply preserves_ret |].
  intros s Hs. rewrite fetchAndStore_guard.
  pose proof (rateGuard_ledger d s Hs) as Hg.
  destruct (rateGuard B W s) as [[[] | e] s1]; [| exact Hg].
  pose proof (strivenCall_ledger ("/v1/items/" +:+ ToString B id) "GET" d s1 Hg) as Hc.
  unfold bind at 1.
  destruct (strivenCall B W _ "GET" s1) as [[item | e] s2]; cbn [snd] in Hc; [| exact Hc].
  unfold bind. rewrite cacheSetItem_run. cbn [snd ret].
  destruct Hc as [Hst Hd]. split; [exact Hst | exact Hd].
Qed.

Lemma preserves_ledger_getRetryAfterSeconds (d : Z) :
  preserves (quotaLedger start d) (getRetryAfterSeconds W).
Proof.
  intros s [Hstart Hd]. rewrite getRetryAfterSeconds_run. cbv zeta.
  rewrite (resetWindow_within _ s) by (rewrite Hstart; apply clock_within).
  split; [exact Hstart | exact Hd].
Qed.

Lemma preserves_ledger_fetchLine (d : Z) (id : JsVal) (errorLine : string -> Line)
    (results : list Line) :
  preserves (quotaLedger start d) (fetchLine B W id errorLine results).
Proof.
  apply preserves_tryCatch.
  - apply preserves_bind; [apply preserves_ledger_fetchItemByIdCached |].
    intros item. apply preserves_ret.
  - intros err. destruct (num_eqb _ _); [| apply preserves_ret].
    apply preserves_bind; [| intros ra; apply preserves_ret].
    unfold retryAfterOf. destruct (truthy _); [apply preserves_ret |].
    apply preserves_bind; [apply preserves_ledger_getRetryAfterSeconds |].
    intros secs. apply preserves_ret.
Qed.

Lemma preserves_ledger_handlers (d : Z) :
  (forall id, preserves (quotaLedger start d) (getItem B W id)) /\
  (forall body, preserves (quotaLedger start d) (resolveByNumber B W body)) /\
  (forall body, preserves (quotaLedger start d) (resolveLines B W body)).
Proof.
  split; [| split].
  - intros id. apply preserves_tryCatch; [| apply preserves_catchAll].
    apply preserves_bind; [apply preserves_ledger_fetchItemByIdCached |].
    intros item. apply preserves_ret.
  - intros body. apply preserves_tryCatch; [| apply preserves_catchAll]. cbv zeta.
    destruct (_ =? _)%nat; [apply preserves_ret |].
    apply preserves_bind; [| apply preserves_finish].
    apply preserves_forOf. intros n results.
    unfold resolveByNumber_line. cbv zeta.
    destruct (negb (truthy _)); [apply preserves_ret |].
    apply preserves_bind; [apply preserves_ledger_fetchLine |].
    intros [item | reply | results']; try apply preserves_ret.
    apply preserves_bind; [apply preserves_liftC | intros r; apply preserves_ret].
  - intros body. apply preserves_tryCatch; [| apply preserves_catchAll]. cbv zeta.
    destruct (_ =? _)%nat; [apply preserves_ret |].
    apply preserves_bind; [| apply preserves_finish].
    apply preserves_forOf. intros line results.
    unfold resolveLines_line.
    apply preserves_bind; [apply preserves_liftC | intros lineId].
    apply preserves_bind; [apply preserves_liftC | intros lineNum].
    destruct (negb (isFinite _)); [apply preserves_ret |].
    apply preserves_bind; [apply preserves_ledger_fetchLine |].
    intros [item | reply | results']; try apply preserves_ret.
    apply preserves_bind; [apply preserves_liftC | intros r; apply preserves_ret].
Qed.

End Ledger.

Lemma ledger_bound {A : Type} (W : World) (m : M A) (s : State) :
  (forall d, preserves (quotaLedger (windowStartMs s) d) m) ->
  preserves (countInBounds W) m ->
  countInBounds W s ->
  let s' := snd (m s) in
  windowStartMs s' = windowStartMs s /\
  (itemRequests s' - itemRequests s <= windowCount s' - windowCount s)%Z /\
  (itemRequests s' - itemRequests s <= STRIVEN_MAX_CALLS_PER_MIN W - windowCount s)%Z.
Proof.
  intros Hled Hcount Hs s'.
  destruct (Hled (itemRequests s - windowCount s)%Z s) as [Hstart Hd].
  { split; [reflexivity | lia]. }
  pose proof (Hcount s Hs) as Hc. unfold countInBounds in Hc, Hs. fold s' in Hstart, Hd, Hc.
  repeat split; [exact Hstart | lia | lia].
Qed.

(** While the clock stays inside the current window, a handler sends at
    most as many requests to the item endpoint as the guard counts calls,
    and so at most as many as the limit leaves in the window: the batch of
    any size never overdraws the quota. *)
Theorem window_quota (B : Builtins) (W : World) (s : State) :
  (0 < STRIVEN_MAX_CALLS_PER_MIN W)%Z ->
  countInBounds W s ->
  (forall k, (clock W k - windowStartMs s < 60000)%Z) ->
  (forall id,
      let s' := snd (getItem B W id s) in
      windowStartMs s' = windowStartMs s /\
      (itemRequests s' - itemRequests s <= windowCount s' - windowCount s)%Z /\
      (itemRequests s' - itemRequests s <= STRIVEN_MAX_CALLS_PER_MIN W - windowCount s)%Z) /\
  (forall body,
      let s' := snd (resolveByNumber B W body s) in
      windowStartMs s' = windowStartMs s /\
      (itemRequests s' - itemRequests s <= windowCount s' - windowCount s)%Z /\
      (itemRequests s' - itemRequests s <= STRIVEN_MAX_CALLS_PER_MIN W - windowCount s)%Z) /\
  (forall body,
      let s' := snd (resolveLines B W body s) in
      windowStartMs s' = windowStartMs s /\
      (itemRequests s' - itemRequests s <= windowCount s' - windowCount s)%Z /\
      (itemRequests s' - itemRequests s <= STRIVEN_MAX_CALLS_PER_MIN W - windowCount s)%Z).
Proof.
  intros HL Hs Hclock.
  split; [| split]; intros x; apply ledger_bound; try exact Hs.
  - intros d. apply (preserves_ledger_handlers B W (windowStartMs s) Hclock d).
  - apply (preserves_getItem B W HL).
  - intros d. apply (preserves_ledger_handlers B W (windowStartMs s) Hclock d).
  - apply (preserves_resolveByNumber B W HL).
  - intros d. apply (preserves_ledger_handlers B W (windowStartMs s) Hclock d).
  - apply (preserves_resolveLines B W HL).
Qed.

Lemma window_quota_witness :
  let s' := snd (resolveLines sampleBuiltins tightWorld (VObj [("lines", VArr fiveLines)])
                   (initialState tightWorld)) in
  (itemRequests s' <= 2)%Z.
Proof.
  intros s'.
  destruct (window_quota sampleBuiltins tightWorld (initialState tightWorld))
    as (_ & _ & Hlines).
  - reflexivity.
  - split; discriminate.
  - intros k. reflexivity.
  - destruct (Hlines (VObj [("lines", VArr fiveLines)])) as (_ & _ & Hq).
    exact Hq.
Defined.

(** ** The item route *)

(** GET /api/items/:id answers with the item when the fetch returns it.
    When the fetch throws, the status of the error is the status of the
    reply, or 500 when the error has none: the refusal of the guard is
    answered with 429 and a [retryAfter] of at least 1, a failed token
    exchange with 500. *)
Theorem getItem_replies (B : Builtins) (W : World) (id : string) (s s2 : State) :
  (forall item,
      fetchItemByIdCached B W (VStr id) s = (Ret item, s2) ->
      getItem B W id s = (Ret (JsonItem item), s2)) /\
  (forall e,
      fetchItemByIdCached B W (VStr id) s = (Throw e, s2) ->
      QuotaExceeded B e ->
      exists ra, (1 <= ra)%Z /\
                 getItem B W id s =
                 (Ret (JsonError (Fin 429) (errText e) (VNum (ofZ ra))), s2)) /\
  (forall e,
      fetchItemByIdCached B W (VStr id) s = (Throw e, s2) ->
      status e = VUndef ->
      exists ra, getItem B W id s = (Ret (JsonError (Fin 500) (errText e) ra), s2)).
Proof.
  split; [| split].
  - intros item H. unfold getItem, tryCatch, bind. rewrite H. reflexivity.
  - intros e H (ra & Hra & ->). exists ra. split; [exact Hra |].
    unfold getItem, tryCatch, bind. rewrite H. unfold catchAll.
    cbn [status retryAfter rateLimitError Number js_or truthy].
    assert (Ht : negb (isZero (ofZ ra)) = true).
    { unfold ofZ, isZero. apply negb_true_iff, not_true_iff_false.
      rewrite Qeq_bool_iff. unfold Qeq. simpl. lia. }
    unfold ofZ in Ht |- *. rewrite Ht. reflexivity.
  - intros e H Hst. eexists.
    unfold getItem, tryCatch, bind. rewrite H. unfold catchAll. rewrite Hst. reflexivity.
Qed.

Lemma getItem_replies_witness :
  let W := sampleWorld secondsClock (networkServing sampleItem) 90 in
  fst (getItem sampleBuiltins W "7" (initialState W)) = Ret (JsonItem sampleItem).
Proof.
  intros W.
  set (s2 := snd (fetchItemByIdCached sampleBuiltins W (VStr "7") (initialState W))).
  destruct (getItem_replies sampleBuiltins W "7" (initialState W) s2) as [Hok _].
  rewrite (Hok sampleItem); reflexivity.
Defined.

(** ** The replies of a batch *)

Section Replies.

Variable B : Builtins.
Variable W : World.

Lemma fetchLine_returns (id : JsVal) (errorLine : string -> Line) (results : list Line)
    (s s1 : State) (e : JsError) :
  fetchLine B W id errorLine results s <> (Throw e, s1).
Proof.
  destruct (fetchLine_outcome B W id errorLine results s) as (f & s' & -> & _).
  discriminate.
Qed.

Lemma resolvedOf_TypeError (item : JsVal) (e : JsError) :
  resolvedOf B item = Throw e -> e = TypeError.
Proof.
  intros H. pose proof (resolvedOf_throws B item) as Ht. rewrite H in Ht. apply Ht.
Qed.

Lemma getProp_TypeError (v : JsVal) (k : string) (e : JsError) :
  getProp v k = Throw e -> e = TypeError.
Proof. destruct v; simpl; intros H; try discriminate; injection H as <-; reflexivity. Qed.

Lemma resolveLines_line_throws (line : JsVal) (acc : list Line) (s s1 : State) (e : JsError) :
  resolveLines_line B W line acc s = (Throw e, s1) -> e = TypeError.
Proof.
  unfold resolveLines_line. unfold bind at 1, liftC at 1.
  destruct (getProp line "id") as [v | e0] eqn:Hid.
  - unfold bind at 1, liftC at 1, tryNumber.
    destruct (hasPrimitive v);
      [| intros H; injection H as <- _; reflexivity].
    destruct (negb (isFinite (Number B v))); [discriminate |].
    unfold bind at 1.
    destruct (fetchLine B W (VNum (Number B v)) (ErrorById (Number B v)) acc s)
      as [[f | e0] s0] eqn:Hf; [| exfalso; exact (fetchLine_returns _ _ _ _ _ _ Hf)].
    destruct f as [item | reply | results']; try discriminate.
    unfold bind, liftC. destruct (resolvedOf B item) as [r | e0] eqn:Hr; [discriminate |].
    intros H. injection H as <- _. apply (resolvedOf_TypeError item e0 Hr).
  - intros H. injection H as <- _. apply (getProp_TypeError line "id" e0 Hid).
Qed.

Lemma resolveByNumber_line_throws (n : JsVal) (acc : list Line) (s s1 : State) (e : JsError) :
  resolveByNumber_line B W n acc s = (Throw e, s1) -> e = TypeError.
Proof.
  unfold resolveByNumber_line. cbv zeta.
  destruct (negb (truthy (lookupItemId W (normalizeKey B n)))); [discriminate |].
  unfold bind at 1.
  destruct (fetchLine B W (lookupItemId W (normalizeKey B n))
              (ErrorByNumber (normalizeKey B n) (normalizeKey B n)) acc s)
    as [[f | e0] s0] eqn:Hf; [| exfalso; exact (fetchLine_returns _ _ _ _ _ _ Hf)].
  destruct f as [item | reply | results']; try discriminate.
  unfold bind, liftC. destruct (resolvedOf B item) as [r | e0] eqn:Hr; [discriminate |].
  intros H. injection H as <- _. apply (resolvedOf_TypeError item e0 Hr).
Qed.

Lemma forOf_throws {A : Type} (body : A -> list Line -> M (Reply + list Line)) :
  (forall a acc s s1 e, body a acc s = (Throw e, s1) -> e = TypeError) ->
  forall l acc s s1 e, forOf body l acc s = (Throw e, s1) -> e = TypeError.
Proof.
  intros Hbody. induction l as [|a l IH]; intros acc s s1 e; simpl; [discriminate |].
  unfold bind. destruct (body a acc s) as [[[reply | acc'] | e0] s0] eqn:Ha.
  - discriminate.
  - apply IH.
  - intros H. injection H as <- _. apply (Hbody a acc s s0 e0 Ha).
Qed.

(** The reply of a batch handler whose loop is [body], over the list [l]. *)
Lemma batch_shapes {A : Type} (body : A -> list Line -> M (Reply + list Line))
    (l : list A) (msg400 : string) (s : State) :
  (forall a acc s s1 e, body a acc s = (Throw e, s1) -> e = TypeError) ->
  (forall l acc s s1 reply,
      forOf body l acc s = (Ret (inl reply), s1) ->
      exists msg ra results, reply = Json429 msg ra results) ->
  exists reply s',
    tryCatch
      (if (length l =? 0)%nat then ret (JsonError (Fin 400) msg400 VUndef)
       else r <- forOf body l [] ;; finish r)
      (catchAll B) s = (Ret reply, s') /\
    ((l = [] /\ reply = JsonError (Fin 400) msg400 VUndef /\ s' = s) \/
     (l <> [] /\
      ((exists results, reply = Json200 results) \/
       (exists msg ra results, reply = Json429 msg ra results) \/
       reply = JsonError (Fin 500) (errText TypeError) VUndef))).
Proof.
  intros Hthrow H429. unfold tryCatch.
  destruct l as [|a l'].
  - do 2 eexists. split; [reflexivity |]. left. repeat split.
  - set (l := a :: l'). change (length l =? 0)%nat with false. cbv iota.
    unfold bind.
    destruct (forOf body l [] s) as [[[reply | results] | e] s1] eqn:Hloop.
    + do 2 eexists. split; [reflexivity |]. right. split; [discriminate |].
      right. left. apply (H429 l [] s s1 reply Hloop).
    + do 2 eexists. split; [reflexivity |]. right. split; [discriminate |].
      left. eexists. reflexivity.
    + rewrite (forOf_throws body Hthrow l [] s s1 e Hloop).
      do 2 eexists. split; [reflexivity |]. right. split; [discriminate |].
      right. right. reflexivity.
Qed.

End Replies.

(** Both batch handlers always end with a reply, of one of four shapes:
    the 400 record, exactly when the array of the request is missing or
    empty, and then the state is untouched; the lines; the 429 record of
    an abort; or the 500 record of a [TypeError] (a line that is [null], an
    item the pricing throws on). *)
Theorem batch_replies (B : Builtins) (W : World) (body : JsVal) (s : State) :
  (let itemNumbers := arrayOrEmpty (getPropOpt body "itemNumbers") in
   exists reply s',
     resolveByNumber B W body s = (Ret reply, s') /\
     ((itemNumbers = [] /\
       reply = JsonError (Fin 400) "Body must include { itemNumbers: [...] }" VUndef /\
       s' = s) \/
      (itemNumbers <> [] /\
       ((exists results, reply = Json200 results) \/
        (exists msg ra results, reply = Json429 msg ra results) \/
        reply = JsonError (Fin 500) (errText TypeError) VUndef)))) /\
  (let lines := arrayOrEmpty (getPropOpt body "lines") in
   exists reply s',
     resolveLines B W body s = (Ret reply, s') /\
     ((lines = [] /\
       reply = JsonError (Fin 400) "Body must include { lines: [{id: number}, ...] }" VUndef /\
       s' = s) \/
      (lines <> [] /\
       ((exists results, reply = Json200 results) \/
        (exists msg ra results, reply = Json429 msg ra results) \/
        reply = JsonError (Fin 500) (errText TypeError) VUndef)))).
Proof.
  split; cbv zeta.
  - apply (batch_shapes B (resolveByNumber_line B W)).
    + apply resolveByNumber_line_throws.
    + intros l acc s0 s1 reply H.
      apply (forOf_resolveByNumber B W l acc s0 s1 (inl reply) H).
  - apply (batch_shapes B (resolveLines_line B W)).
    + apply resolveLines_line_throws.
    + intros l acc s0 s1 reply H.
      apply (forOf_resolveLines B W l acc s0 s1 (inl reply) H).
Qed.

(** ** The answers of Striven *)

(** With a token that is still fresh, [strivenFetch] past the guard sends
    one request, with that token, and follows the answer.  The JSON of an
    ok answer is returned, and an ok answer without JSON is an error.  An
    answer that is not ok is thrown as an error with the status of the
    answer; its [retryAfter] is the number the retry-after header converts
    to, when the header is there and not empty and that number is neither 0
    nor [NaN], and [undefined] in every other case. *)
Theorem strivenCall_answer (B : Builtins) (W : World) (path meth : string)
    (s : State) (res : Response) :
  tokenFresh s (clock W (ticks s)) = true ->
  let r := {| url := STRIVEN_BASE +:+ path; method := meth;
              authorization := "Bearer " +:+ ToString B (cachedToken s) |} in
  network W (length (sent s)) r = Responded res ->
  let s' := logRequest (tick s) r in
  (resOk res = true ->
   (forall j, resJson res = Some j -> strivenCall B W path meth s = (Ret j, s')) /\
   (resJson res = None ->
    strivenCall B W path meth s = (Throw (mkError "SyntaxError" VUndef VUndef), s'))) /\
  (resOk res = false ->
   let e := strivenApiError B path res in
   strivenCall B W path meth s = (Throw e, s') /\
   status e = VNum (ofZ (resStatus res)) /\
   (resRetryAfter res = None -> retryAfter e = VUndef) /\
   (forall ra,
       resRetryAfter res = Some ra ->
       let n := StringToNumber B ra in
       (ra <> EmptyString -> truthy (VNum n) = true -> retryAfter e = VNum n) /\
       (ra = EmptyString -> retryAfter e = VUndef) /\
       (truthy (VNum n) = false -> retryAfter e = VUndef))).
Proof.
  intros Hf r Hnet s'.
  assert (Hrun : strivenCall B W path meth s =
                 (if negb (resOk res) then throw (strivenApiError B path res)
                  else json res) s').
  { unfold strivenCall. unfold bind at 1. rewrite (getAccessToken_fresh B W s Hf).
    unfold bind, fetch. cbn [sent tick]. fold r. rewrite Hnet. reflexivity. }
  split.
  - intros Hok. rewrite Hrun, Hok. cbn [negb]. unfold json. split.
    + intros j ->. reflexivity.
    + intros ->. reflexivity.
  - intros Hok e. rewrite Hrun, Hok. cbn [negb]. split; [reflexivity |].
    split; [reflexivity |].
    unfold e, strivenApiError. cbn [retryAfter]. split.
    + intros ->. reflexivity.
    + intros ra ->. cbn [Number]. set (n := StringToNumber B ra).
      unfold js_or.
      change (truthy (VStr ra)) with (negb (String.eqb ra EmptyString)).
      split; [| split].
      * intros Hne Ht.
        assert (Hra : String.eqb ra EmptyString = false) by (apply String.eqb_neq; exact Hne).
        rewrite Hra. cbn [negb]. rewrite Ht. reflexivity.
      * intros ->. reflexivity.
      * intros Ht. destruct (negb (String.eqb ra EmptyString)); [| reflexivity].
        rewrite Ht. reflexivity.
Qed.

Lemma strivenCall_answer_witness :
  let W := sampleWorld (fun _ => 0%Z) (networkFailing 503 (Some "30")) 90 in
  let s := stateWith 0 0 (VStr "tok") (Fin 100000) ∅ in
  exists e s', strivenCall sampleBuiltins W "/v1/items/7" "GET" s = (Throw e, s') /\
               status e = VNum (ofZ 503) /\ retryAfter e = VNum (ofZ 30).
Proof.
  intros W s.
  destruct (strivenCall_answer sampleBuiltins W "/v1/items/7" "GET" s
              {| resStatus := 503; resText := "busy"; resRetryAfter := Some "30";
                 resJson := None |} eq_refl eq_refl) as [_ Hbad].
  destruct (Hbad eq_refl) as (Hrun & Hst & _ & Hra).
  destruct (Hra "30" eq_refl) as [Hnum _].
  do 2 eexists. split; [exact Hrun |]. split; [exact Hst |].
  apply Hnum; [discriminate | reflexivity].
Defined.
